(** * JAT v2: the ownership-scoped record store

    A shallow embedding of the data-access layer for job applications
    (src/lib/db/applications.ts), its validation schemas
    (src/lib/validations/application.ts), the API routes and server action
    that call it, and the row-level policy of the applications table
    (supabase_migration_applications.sql).

    JavaScript strings are sequences of UTF-16 code units; the storage engine
    is a table of rows together with the column types and the policies of the
    migration; the session, the engine's faults, the generated id and the
    clock are inputs of each call. What the code asks of its platform
    (lowercasing, the reading of dates by [new Date], the reading of dates by
    the DATE column, the wording of one error of the query server) is a
    record of functions, [Runtime]; [node] is the one to evaluate with. *)

From Stdlib Require Import List NArith ZArith Bool String Ascii Lia.
From Stdlib Require Import Permutation Sorted PeanoNat.
Import ListNotations.
Open Scope N_scope.
Open Scope list_scope.

(** ** JavaScript strings *)

Module JS.

Definition jsstring := list N.

(** A string literal of the source, as code units. *)
Definition lit (s : string) : jsstring :=
  map N_of_ascii (list_ascii_of_string s).
Arguments lit : simpl never.

Fixpoint streq (a b : jsstring) : bool :=
  match a, b with
  | [], [] => true
  | x :: a', y :: b' => (x =? y) && streq a' b'
  | _, _ => false
  end.

Fixpoint startsWith (s p : jsstring) : bool :=
  match p, s with
  | [], _ => true
  | c :: p', d :: s' => (c =? d) && startsWith s' p'
  | _ :: _, [] => false
  end.

(** [String.prototype.includes] *)
Fixpoint includes (s p : jsstring) : bool :=
  startsWith s p ||
  match s with
  | [] => false
  | _ :: s' => includes s' p
  end.

(** WhiteSpace and LineTerminator code points, the ones [trim] removes. *)
Definition isWhiteSpace (c : N) : bool :=
  ((9 <=? c) && (c <=? 13)) || (c =? 32) || (c =? 160) || (c =? 5760)
  || ((8192 <=? c) && (c <=? 8202)) || (c =? 8232) || (c =? 8233)
  || (c =? 8239) || (c =? 8287) || (c =? 12288) || (c =? 65279).

Fixpoint trimStart (s : jsstring) : jsstring :=
  match s with
  | [] => []
  | c :: s' => if isWhiteSpace c then trimStart s' else s
  end.

Definition trimEnd (s : jsstring) : jsstring := rev (trimStart (rev s)).

Definition trim (s : jsstring) : jsstring := trimEnd (trimStart s).

(** Truthiness of a string: the empty string is falsy. *)
Definition truthy (s : jsstring) : bool :=
  match s with [] => false | _ => true end.

(** The two halves of a code point beyond U+FFFF. *)
Definition isHighSurrogate (c : N) : bool := (55296 <=? c) && (c <=? 56319).
Definition isLowSurrogate (c : N) : bool := (56320 <=? c) && (c <=? 57343).

(** ASCII letters lowered, every other code unit kept. *)
Definition asciiLower (s : jsstring) : jsstring :=
  map (fun c => if (65 <=? c) && (c <=? 90) then c + 32 else c) s.

(** A value that may be [undefined] or [null]. *)
Inductive Nullish (A : Type) : Type :=
| undefined : Nullish A
| null : Nullish A
| value : A -> Nullish A.
Arguments undefined {A}.
Arguments null {A}.
Arguments value {A} _.

(** [x ?? null] *)
Definition orNull {A} (x : Nullish A) : option A :=
  match x with
  | value a => Some a
  | _ => None
  end.

(** The outcome of a call that may throw. *)
Inductive Outcome (A : Type) : Type :=
| Returns : A -> Outcome A
| Throws : jsstring -> Outcome A.
Arguments Returns {A} _.
Arguments Throws {A} _.

(** *** Fixed-length regular expressions

    The patterns of the source are sequences of one-character classes between
    [^] and [$]; without the [m] flag, [$] matches at the end of input only. *)
Fixpoint matchClasses (cs : list (N -> bool)) (s : jsstring) : bool :=
  match cs, s with
  | [], [] => true
  | k :: cs', c :: s' => k c && matchClasses cs' s'
  | _, _ => false
  end.

(** [\d] *)
Definition digit (c : N) : bool := (48 <=? c) && (c <=? 57).
(** [[0-9a-f]] under the [i] flag *)
Definition hex (c : N) : bool :=
  digit c || ((97 <=? c) && (c <=? 102)) || ((65 <=? c) && (c <=? 70)).
(** [-] *)
Definition dash (c : N) : bool := c =? 45.
(** [[1-5]] *)
Definition oneToFive (c : N) : bool := (49 <=? c) && (c <=? 53).
(** [[89ab]] under the [i] flag *)
Definition variant (c : N) : bool :=
  (c =? 56) || (c =? 57) || (c =? 97) || (c =? 98) || (c =? 65) || (c =? 66).

(** The values a JSON body can take. *)
#[local] Unset Elimination Schemes.
Inductive json : Type :=
| JNull
| JBool (b : bool)
| JNumber (n : N)
| JString (s : jsstring)
| JArray (items : list json)
| JObject (members : list (jsstring * json)).
#[local] Set Elimination Schemes.

(** [Object.keys(v).length]; [Object.keys(null)] throws a TypeError. *)
Definition Object_keys_length (v : json) : option nat :=
  match v with
  | JNull => None
  | JBool _ | JNumber _ => Some 0%nat
  | JString s => Some (List.length s)
  | JArray items => Some (List.length items)
  | JObject members => Some (List.length members)
  end.

Fixpoint member (k : jsstring) (members : list (jsstring * json)) : option json :=
  match members with
  | [] => None
  | (k', v) :: rest => if streq k k' then Some v else member k rest
  end.

(** The values handed to a schema field: a property of a parsed body or an
    entry of a form. [VOther] carries the type name zod reports. *)
Inductive jsvalue : Type :=
| VUndefined
| VNull
| VString (s : jsstring)
| VOther (type_name : jsstring).

Definition typeName (v : json) : jsstring :=
  match v with
  | JNull => lit "null"
  | JBool _ => lit "boolean"
  | JNumber _ => lit "number"
  | JString _ => lit "string"
  | JArray _ => lit "array"
  | JObject _ => lit "object"
  end.

Definition valueOf (v : json) : jsvalue :=
  match v with
  | JNull => VNull
  | JString s => VString s
  | other => VOther (typeName other)
  end.

(** [body[key]] on a parsed JSON object. *)
Definition prop (members : list (jsstring * json)) (k : jsstring) : jsvalue :=
  match member k members with
  | None => VUndefined
  | Some v => valueOf v
  end.

End JS.
Import JS.

(** What the engine makes of a text sent for a DATE column: the date as it
    prints it back (YYYY-MM-DD), or the code and the message of the error it
    raises. *)
Inductive DateInput : Type :=
| Accepted (printed : jsstring)
| Refused (code message : jsstring).

(** The built-ins of the runtime, of the query client and of the engine whose
    definition lies outside the repository. *)
Record Runtime := {
  (** [String.prototype.toLowerCase] *)
  toLowerCase : jsstring -> jsstring;
  (** whether [new Date(s)] is a valid date: [!isNaN(parsed.getTime())] *)
  date_parses : jsstring -> bool;
  (** the message of the error [.single()] and [.maybeSingle()] report when
      the number of rows is not the one they accept; its wording differs
      between versions of the query server *)
  single_row_message : jsstring;
  (** the engine's reading of a text sent for the column
      [application_date DATE] *)
  date_in : jsstring -> DateInput
}.

(** ** The data model (src/lib/types/index.ts) *)

Inductive ApplicationStatus : Type :=
| applied | interviewing | offer | rejected | withdrawn.

Definition applicationStatuses : list (jsstring * ApplicationStatus) :=
  [ (lit "applied", applied); (lit "interviewing", interviewing);
    (lit "offer", offer); (lit "rejected", rejected);
    (lit "withdrawn", withdrawn) ].

(** A row of the applications table. Timestamps are the engine's clock
    readings. *)
Module Application.
Record t := {
  id : jsstring;
  user_id : jsstring;
  company_name : jsstring;
  position_title : jsstring;
  status : ApplicationStatus;
  application_date : jsstring;
  notes : option jsstring;
  created_at : N;
  updated_at : N
}.
End Application.

(** The argument of [createApplication], which is also the output of
    [createApplicationSchema]. It has no [user_id]. *)
Module CreateData.
Record t := {
  company_name : jsstring;
  position_title : jsstring;
  application_date : jsstring;
  status : ApplicationStatus;
  notes : Nullish jsstring
}.
End CreateData.

(** The second argument of [updateApplication], which is also the output of
    [updateApplicationSchema]: [None] and [undefined] are absent fields. *)
Module UpdateData.
Record t := {
  company_name : option jsstring;
  position_title : option jsstring;
  application_date : option jsstring;
  status : option ApplicationStatus;
  notes : Nullish jsstring
}.
End UpdateData.

Module User.
Record t := { id : jsstring }.
End User.

(** ** The validation schemas (zod) *)

Module Zod.

Record ZodIssue := { path : list jsstring; message : jsstring }.

Inductive SafeParse (A : Type) : Type :=
| ParseOk : A -> SafeParse A
| ZodError : list ZodIssue -> SafeParse A.
Arguments ParseOk {A} _.
Arguments ZodError {A} _.

(** A field either yields its output or the messages of its issues. *)
Definition Field (A : Type) : Type := (list jsstring + A)%type.

Definition invalidType (expected : string) (v : jsvalue) : jsstring :=
  match v with
  | VUndefined => lit "Required"
  | VNull => lit "Expected " ++ lit expected ++ lit ", received null"
  | VString _ => lit "Expected " ++ lit expected ++ lit ", received string"
  | VOther t => lit "Expected " ++ lit expected ++ lit ", received " ++ t
  end.

Definition check (failed : bool) (msg : string) : list jsstring :=
  if failed then [lit msg] else [].

(** [z.string().min(1, m1).max(200, m2).trim()]: the checks run in the order
    they are chained, so both lengths are those of the input as received. *)
Definition text (min_msg max_msg : string) (v : jsvalue) : Field jsstring :=
  match v with
  | VString s =>
      match check (Nat.ltb (List.length s) 1) min_msg
            ++ check (Nat.ltb 200 (List.length s)) max_msg with
      | [] => inr (trim s)
      | issues => inl issues
      end
  | other => inl [invalidType "string" other]
  end.

(** [/^\d{4}-\d{2}-\d{2}$/] *)
Definition DATE_RE : list (N -> bool) :=
  [digit; digit; digit; digit; dash; digit; digit; dash; digit; digit].

(** [z.string().regex(...).refine(...)]: the refinement runs on a string that
    failed the pattern too. *)
Definition date (rt : Runtime) (v : jsvalue) : Field jsstring :=
  match v with
  | VString s =>
      match check (negb (matchClasses DATE_RE s)) "Date must be in YYYY-MM-DD format"
            ++ check (negb (date_parses rt s)) "Invalid date" with
      | [] => inr s
      | issues => inl issues
      end
  | other => inl [invalidType "string" other]
  end.

Fixpoint lookupStatus (s : jsstring) (l : list (jsstring * ApplicationStatus))
  : option ApplicationStatus :=
  match l with
  | [] => None
  | (name, st) :: rest => if streq s name then Some st else lookupStatus s rest
  end.

(** [z.enum(applicationStatuses, { errorMap })] *)
Definition statusEnum (v : jsvalue) : Field ApplicationStatus :=
  match v with
  | VString s =>
      match lookupStatus s applicationStatuses with
      | Some st => inr st
      | None => inl [lit "Invalid status value"]
      end
  | _ => inl [lit "Invalid status value"]
  end.

(** [schema.optional()] *)
Definition optional {A} (f : jsvalue -> Field A) (v : jsvalue) : Field (option A) :=
  match v with
  | VUndefined => inr None
  | _ => match f v with
         | inl issues => inl issues
         | inr a => inr (Some a)
         end
  end.

(** [(val) => val && val.trim() === '' ? null : val]: the condition is
    [val && (val.trim() === '')], which the empty string and [undefined]
    make falsy. *)
Definition notesTransform (val : option jsstring) : Nullish jsstring :=
  match val with
  | None => undefined
  | Some s =>
      if truthy s && streq (trim s) [] then null else value s
  end.

(** [z.string().max(2000, m).optional().transform(...)] *)
Definition notesField (v : jsvalue) : Field (Nullish jsstring) :=
  let base :=
    optional (fun v' =>
      match v' with
      | VString s =>
          match check (Nat.ltb 2000 (List.length s))
                  "Notes must be less than 2000 characters" with
          | [] => inr s
          | issues => inl issues
          end
      | other => inl [invalidType "string" other]
      end) v in
  match base with
  | inl issues => inl issues
  | inr val => inr (notesTransform val)
  end.

Definition issuesAt {A} (key : string) (f : Field A) : list ZodIssue :=
  match f with
  | inl msgs => map (fun m => {| path := [lit key]; message := m |}) msgs
  | inr _ => []
  end.

(** [createApplicationSchema], on the properties of an object. Keys the shape
    does not name are never read. *)
Definition createApplicationSchema (rt : Runtime) (get : jsstring -> jsvalue)
  : SafeParse CreateData.t :=
  let c := text "Company name is required"
                "Company name must be less than 200 characters"
                (get (lit "company_name")) in
  let p := text "Position title is required"
                "Position title must be less than 200 characters"
                (get (lit "position_title")) in
  let d := date rt (get (lit "application_date")) in
  let s := statusEnum (get (lit "status")) in
  let n := notesField (get (lit "notes")) in
  match c, p, d, s, n with
  | inr c', inr p', inr d', inr s', inr n' =>
      ParseOk {| CreateData.company_name := c';
                 CreateData.position_title := p';
                 CreateData.application_date := d';
                 CreateData.status := s';
                 CreateData.notes := n' |}
  | _, _, _, _, _ =>
      ZodError (issuesAt "company_name" c ++ issuesAt "position_title" p
                ++ issuesAt "application_date" d ++ issuesAt "status" s
                ++ issuesAt "notes" n)
  end.

(** [updateApplicationSchema] *)
Definition updateApplicationSchema (rt : Runtime) (get : jsstring -> jsvalue)
  : SafeParse UpdateData.t :=
  let c := optional (text "Company name cannot be empty"
                          "Company name must be less than 200 characters")
                    (get (lit "company_name")) in
  let p := optional (text "Position title cannot be empty"
                          "Position title must be less than 200 characters")
                    (get (lit "position_title")) in
  let d := optional (date rt) (get (lit "application_date")) in
  let s := optional statusEnum (get (lit "status")) in
  let n := notesField (get (lit "notes")) in
  match c, p, d, s, n with
  | inr c', inr p', inr d', inr s', inr n' =>
      ParseOk {| UpdateData.company_name := c';
                 UpdateData.position_title := p';
                 UpdateData.application_date := d';
                 UpdateData.status := s';
                 UpdateData.notes := n' |}
  | _, _, _, _, _ =>
      ZodError (issuesAt "company_name" c ++ issuesAt "position_title" p
                ++ issuesAt "application_date" d ++ issuesAt "status" s
                ++ issuesAt "notes" n)
  end.

(** [schema.parse(body)] on a parsed JSON body: anything but an object is an
    issue at the root. *)
Definition parseBody {A} (schema : (jsstring -> jsvalue) -> SafeParse A)
  (body : json) : SafeParse A :=
  match body with
  | JObject members => schema (prop members)
  | other => ZodError [ {| path := [];
                           message := lit "Expected object, received "
                                      ++ typeName other |} ]
  end.

End Zod.

(** ** The row-level policy (supabase_migration_applications.sql) *)

Module Rls.

Inductive Command : Type := SELECT | INSERT | UPDATE | DELETE.

Definition Command_eqb (a b : Command) : bool :=
  match a, b with
  | SELECT, SELECT | INSERT, INSERT | UPDATE, UPDATE | DELETE, DELETE => true
  | _, _ => false
  end.

(** The operands of the policy expressions: [auth.uid()] and the [user_id]
    column. *)
Inductive Term : Type := auth_uid | user_id.

Inductive Expr : Type := Eq (a b : Term).

Record Policy := {
  name : string;
  for_command : Command;
  USING : option Expr;
  WITH_CHECK : option Expr
}.

(** [ALTER TABLE applications ENABLE ROW LEVEL SECURITY] and the four
    [CREATE POLICY] statements. *)
Definition applications_policies : list Policy :=
  [ {| name := "Users can view their own applications";
       for_command := SELECT;
       USING := Some (Eq auth_uid user_id);
       WITH_CHECK := None |};
    {| name := "Users can insert their own applications";
       for_command := INSERT;
       USING := None;
       WITH_CHECK := Some (Eq auth_uid user_id) |};
    {| name := "Users can update their own applications";
       for_command := UPDATE;
       USING := Some (Eq auth_uid user_id);
       WITH_CHECK := Some (Eq auth_uid user_id) |};
    {| name := "Users can delete their own applications";
       for_command := DELETE;
       USING := Some (Eq auth_uid user_id);
       WITH_CHECK := None |} ].

(** [auth.uid()] is NULL for a request without a verified identity; the
    [user_id] column is NOT NULL. *)
Definition evalTerm (caller : option jsstring) (row : Application.t) (t : Term)
  : option jsstring :=
  match t with
  | auth_uid => caller
  | user_id => Some (Application.user_id row)
  end.

(** SQL equality: NULL when an operand is NULL. *)
Definition eval (caller : option jsstring) (row : Application.t) (e : Expr)
  : option bool :=
  match e with
  | Eq a b =>
      match evalTerm caller row a, evalTerm caller row b with
      | Some x, Some y => Some (streq x y)
      | _, _ => None
      end
  end.

(** A policy expression admits a row when it evaluates to true; false and
    NULL both refuse it. *)
Definition holds (caller : option jsstring) (row : Application.t) (e : Expr) : bool :=
  match eval caller row e with
  | Some true => true
  | _ => false
  end.

(** The rows a command may read or target: some policy for the command has a
    USING expression that holds. With row-level security enabled and no policy
    for the command, no row passes. *)
Definition usingOk (cmd : Command) (caller : option jsstring) (row : Application.t) : bool :=
  existsb (fun p =>
    Command_eqb (for_command p) cmd &&
    match USING p with
    | Some e => holds caller row e
    | None => true
    end) applications_policies.

(** The rows a command may write: WITH CHECK, or USING when the policy has no
    WITH CHECK. *)
Definition checkOk (cmd : Command) (caller : option jsstring) (row : Application.t) : bool :=
  existsb (fun p =>
    Command_eqb (for_command p) cmd &&
    match WITH_CHECK p, USING p with
    | Some e, _ => holds caller row e
    | None, Some e => holds caller row e
    | None, None => true
    end) applications_policies.

End Rls.

(** ** The storage engine behind the query client *)

Module Engine.

Record PostgrestError := { message : jsstring; code : jsstring }.

(** The [{ data, error }] pair every query resolves to. *)
Record Response (A : Type) := { data : option A; error : option PostgrestError }.
Arguments data {A} _.
Arguments error {A} _.

Definition ok {A} (a : A) : Response A := {| data := Some a; error := None |}.
Definition failed {A} (e : PostgrestError) : Response A :=
  {| data := None; error := Some e |}.

(** The object handed to [.insert(...)]. *)
Module NewRow.
Record t := {
  user_id : jsstring;
  company_name : jsstring;
  position_title : jsstring;
  application_date : jsstring;
  status : ApplicationStatus;
  notes : option jsstring
}.
End NewRow.

(** The object handed to [.update(...)]: the columns it sets. *)
Module Patch.
Record t := {
  user_id : option jsstring;
  company_name : option jsstring;
  position_title : option jsstring;
  application_date : option jsstring;
  status : option ApplicationStatus;
  notes : option (option jsstring)
}.

Definition isEmpty (p : t) : bool :=
  match user_id p, company_name p, position_title p, application_date p,
        status p, notes p with
  | None, None, None, None, None, None => true
  | _, _, _, _, _, _ => false
  end.

Definition or {A} (new : option A) (old : A) : A :=
  match new with Some v => v | None => old end.

Definition apply (p : t) (r : Application.t) : Application.t :=
  {| Application.id := Application.id r;
     Application.user_id := or (user_id p) (Application.user_id r);
     Application.company_name := or (company_name p) (Application.company_name r);
     Application.position_title := or (position_title p) (Application.position_title r);
     Application.status := or (status p) (Application.status r);
     Application.application_date := or (application_date p) (Application.application_date r);
     Application.notes := or (notes p) (Application.notes r);
     Application.created_at := Application.created_at r;
     Application.updated_at := Application.updated_at r |}.
End Patch.

Definition quote : jsstring := [34].

(** *** Column types

    The values of an INSERT or UPDATE reach the engine as the strings of a
    JSON document, which it reads in the order of the document before it
    converts them to the types of their columns (supabase_migration_applications.sql,
    lines 17 to 27). A string becomes TEXT unless it holds the code unit 0 or
    a surrogate that is not half of a pair; the text for [application_date]
    must then be a date for the DATE column, which keeps the date and not the
    text: what is stored, and returned, is the date as the engine prints
    it. Identifiers are the UUIDs the auth service and the engine issue, and
    a status is one of the names of the enum: these are stored as they are. *)

Definition invalidJsonText : PostgrestError :=
  {| message := lit "invalid input syntax for type json"; code := lit "22P02" |}.

Definition untranslatableCharacter : PostgrestError :=
  {| message := lit "unsupported Unicode escape sequence"; code := lit "22P05" |}.

(** The error a string raises when it is read as TEXT, if any; [pending]
    tells that the code unit before was a high surrogate. *)
Fixpoint text_fault (pending : bool) (s : jsstring) : option PostgrestError :=
  match s with
  | [] => if pending then Some invalidJsonText else None
  | c :: s' =>
      if isHighSurrogate c
      then if pending then Some invalidJsonText else text_fault true s'
      else if isLowSurrogate c
      then if pending then text_fault false s' else Some invalidJsonText
      else if pending then Some invalidJsonText
      else if c =? 0 then Some untranslatableCharacter
      else text_fault false s'
  end.

(** The first error the strings of a document raise. *)
Fixpoint first_fault (strings : list jsstring) : option PostgrestError :=
  match strings with
  | [] => None
  | s :: rest =>
      match text_fault false s with
      | Some e => Some e
      | None => first_fault rest
      end
  end.

Definition maybe {A} (x : option A) : list A :=
  match x with Some a => [a] | None => [] end.

(** The record of an INSERT as its columns take it. *)
Definition record_in (rt : Runtime) (v : NewRow.t) : PostgrestError + NewRow.t :=
  match first_fault ([NewRow.company_name v; NewRow.position_title v;
                      NewRow.application_date v] ++ maybe (NewRow.notes v)) with
  | Some e => inl e
  | None =>
      match date_in rt (NewRow.application_date v) with
      | Refused c m => inl {| message := m; code := c |}
      | Accepted d =>
          inr {| NewRow.user_id := NewRow.user_id v;
                 NewRow.company_name := NewRow.company_name v;
                 NewRow.position_title := NewRow.position_title v;
                 NewRow.application_date := d;
                 NewRow.status := NewRow.status v;
                 NewRow.notes := NewRow.notes v |}
      end
  end.

(** The columns of an UPDATE as they take their values. *)
Definition patch_in (rt : Runtime) (p : Patch.t) : PostgrestError + Patch.t :=
  match first_fault (maybe (Patch.company_name p) ++ maybe (Patch.position_title p)
                     ++ maybe (Patch.application_date p)
                     ++ match Patch.notes p with Some (Some n) => [n] | _ => [] end) with
  | Some e => inl e
  | None =>
      match Patch.application_date p with
      | None => inr p
      | Some text =>
          match date_in rt text with
          | Refused c m => inl {| message := m; code := c |}
          | Accepted d =>
              inr {| Patch.user_id := Patch.user_id p;
                     Patch.company_name := Patch.company_name p;
                     Patch.position_title := Patch.position_title p;
                     Patch.application_date := Some d;
                     Patch.status := Patch.status p;
                     Patch.notes := Patch.notes p |}
          end
      end
  end.

Definition rlsViolation : PostgrestError :=
  {| message := lit "new row violates row-level security policy for table "
                ++ quote ++ lit "applications" ++ quote;
     code := lit "42501" |}.

Definition duplicateKey : PostgrestError :=
  {| message := lit "duplicate key value violates unique constraint "
                ++ quote ++ lit "applications_pkey" ++ quote;
     code := lit "23505" |}.

Definition notSingle (rt : Runtime) : PostgrestError :=
  {| message := single_row_message rt; code := lit "PGRST116" |}.

(** A text compared with the [id UUID] column is read as a UUID first,
    which folds the case of its hexadecimal digits. *)
Definition uuid_in (text : jsstring) : jsstring := asciiLower text.

(** [.eq('id', text)] *)
Definition eq_id (text : jsstring) (r : Application.t) : bool :=
  streq (uuid_in text) (Application.id r).

(** SELECT under the policy, whatever the filter. *)
Definition select (caller : option jsstring) (filter_ : Application.t -> bool)
  (t : list Application.t) : list Application.t :=
  filter (fun r => filter_ r && Rls.usingOk Rls.SELECT caller r) t.

Fixpoint insertDesc (r : Application.t) (l : list Application.t) : list Application.t :=
  match l with
  | [] => [r]
  | x :: l' =>
      if Application.created_at x <? Application.created_at r
      then r :: l else x :: insertDesc r l'
  end.

(** [.order('created_at', { ascending: false })] *)
Definition orderByCreatedAtDesc (l : list Application.t) : list Application.t :=
  fold_right insertDesc [] l.

(** The row an INSERT builds: [id] from [gen_random_uuid()], both timestamps
    from [now()]. *)
Definition newRow (fresh : jsstring) (now : N) (v : NewRow.t) : Application.t :=
  {| Application.id := fresh;
     Application.user_id := NewRow.user_id v;
     Application.company_name := NewRow.company_name v;
     Application.position_title := NewRow.position_title v;
     Application.status := NewRow.status v;
     Application.application_date := NewRow.application_date v;
     Application.notes := NewRow.notes v;
     Application.created_at := now;
     Application.updated_at := now |}.

(** INSERT ... RETURNING of a row whose values the columns have taken: the
    new row must pass the INSERT check, must not repeat a primary key and, to
    be returned, must be readable. *)
Definition insert (caller : option jsstring) (row : Application.t)
  (t : list Application.t) : (PostgrestError + Application.t) * list Application.t :=
  if negb (Rls.checkOk Rls.INSERT caller row) then (inl rlsViolation, t)
  else if existsb (fun r => streq (Application.id r) (Application.id row)) t
  then (inl duplicateKey, t)
  else if negb (Rls.usingOk Rls.SELECT caller row) then (inl rlsViolation, t)
  else (inr row, t ++ [row]).

(** The trigger [update_applications_updated_at], BEFORE UPDATE FOR EACH ROW. *)
Definition update_updated_at_column (now : N) (new : Application.t) : Application.t :=
  {| Application.id := Application.id new;
     Application.user_id := Application.user_id new;
     Application.company_name := Application.company_name new;
     Application.position_title := Application.position_title new;
     Application.status := Application.status new;
     Application.application_date := Application.application_date new;
     Application.notes := Application.notes new;
     Application.created_at := Application.created_at new;
     Application.updated_at := now |}.

(** The rows an UPDATE or DELETE with a filter reaches: those the filter
    keeps, the command's policy admits and the SELECT policy lets it read. *)
Definition targets (cmd : Rls.Command) (caller : option jsstring)
  (filter_ : Application.t -> bool) (r : Application.t) : bool :=
  filter_ r && Rls.usingOk cmd caller r && Rls.usingOk Rls.SELECT caller r.

(** UPDATE ... RETURNING with values the columns have taken. An update that
    sets no column is answered with no rows and changes nothing; every new
    row must pass the UPDATE check and be readable, or the statement fails as
    a whole. *)
Definition update (caller : option jsstring) (filter_ : Application.t -> bool)
  (p : Patch.t) (now : N) (t : list Application.t)
  : (PostgrestError + list Application.t) * list Application.t :=
  if Patch.isEmpty p then (inr [], t)
  else
    let change r := update_updated_at_column now (Patch.apply p r) in
    let changed := map change (filter (targets Rls.UPDATE caller filter_) t) in
    if forallb (fun r' => Rls.checkOk Rls.UPDATE caller r'
                          && Rls.usingOk Rls.SELECT caller r') changed
    then (inr changed,
          map (fun r => if targets Rls.UPDATE caller filter_ r then change r else r) t)
    else (inl rlsViolation, t).

(** DELETE ... RETURNING *)
Definition delete (caller : option jsstring) (filter_ : Application.t -> bool)
  (t : list Application.t) : list Application.t * list Application.t :=
  (filter (targets Rls.DELETE caller filter_) t,
   filter (fun r => negb (targets Rls.DELETE caller filter_ r)) t).

(** [.maybeSingle()] on a SELECT: no row is [null], more than one is an
    error. *)
Definition maybeSingle (rt : Runtime) (rows : list Application.t)
  : Response Application.t :=
  match rows with
  | [] => {| data := None; error := None |}
  | [r] => ok r
  | _ => failed (notSingle rt)
  end.

(** [.single()]: anything but exactly one row is an error, with no data. *)
Definition single (rt : Runtime) (rows : list Application.t)
  : Response Application.t :=
  match rows with
  | [r] => ok r
  | _ => failed (notSingle rt)
  end.

End Engine.

(** ** Calls: their inputs, their effects *)

Inductive DataResult (A : Type) : Type :=
| Success : A -> DataResult A
| Failure : jsstring -> DataResult A.
Arguments Success {A} _.
Arguments Failure {A} _.

(** What [supabase.auth.getUser()] resolves to. *)
Record AuthResponse := { user : option User.t; authError : option jsstring }.

(** The queries the data-access layer sends. *)
Inductive Query : Type :=
| SelectOrdered
| SelectById (id : jsstring)
| Insert (v : Engine.NewRow.t)
| UpdateById (p : Engine.Patch.t) (id : jsstring)
| DeleteById (id : jsstring).

(** What a call can change: the table, the queries sent so far, the server
    log. *)
Record World := {
  table : list Application.t;
  requests : list Query;
  console : list (jsstring * jsstring)
}.

(** What a call receives from outside: the session ([createClient()] followed
    by [auth.getUser()], either of which may throw), whether the engine
    answers the query, reports an error or the client throws, and the values
    [gen_random_uuid()] and [now()] take. *)
Record Env := {
  getUser : Outcome AuthResponse;
  fault : Outcome (option Engine.PostgrestError);
  gen_random_uuid : jsstring;
  now : N
}.

(** [auth.uid()] inside the engine: the client sends the token of the session
    [getUser] verified. *)
Definition auth_uid (env : Env) : option jsstring :=
  match getUser env with
  | Returns a => option_map User.id (user a)
  | Throws _ => None
  end.

(** Computations over the world that may throw. *)
Definition M (A : Type) : Type := World -> Outcome A * World.

Definition ret {A} (a : A) : M A := fun w => (Returns a, w).

Definition bind {A B} (c : M A) (k : A -> M B) : M B :=
  fun w =>
    match c w with
    | (Returns a, w') => k a w'
    | (Throws e, w') => (Throws e, w')
    end.

Definition throw {A} (e : jsstring) : M A := fun w => (Throws e, w).

(** [try { c } catch (error) { handler }] *)
Definition try_catch {A} (c : M A) (handler : jsstring -> M A) : M A :=
  fun w =>
    match c w with
    | (Returns a, w') => (Returns a, w')
    | (Throws e, w') => handler e w'
    end.

Declare Scope call_scope.
Delimit Scope call_scope with call.
Notation "x <- c ;; k" := (bind c (fun x => k))
  (at level 61, c at next level, right associativity) : call_scope.
Notation "c ;;; k" := (bind c (fun _ => k))
  (at level 61, right associativity) : call_scope.
Open Scope call_scope.

Definition lift {A} (o : Outcome A) : M A := fun w => (o, w).

(** [console.error(label, error)] *)
Definition console_error (label : string) (detail : jsstring) : M unit :=
  fun w => (Returns tt,
            {| table := table w; requests := requests w;
               console := console w ++ [(lit label, detail)] |}).

(** Sending a query: it is recorded, then the engine runs it on the table
    unless the call is faulted. *)
Definition send {A} (env : Env) (q : Query)
  (run : list Application.t -> Engine.Response A * list Application.t)
  : M (Engine.Response A) :=
  fun w =>
    let sent := requests w ++ [q] in
    match fault env with
    | Throws e =>
        (Throws e, {| table := table w; requests := sent; console := console w |})
    | Returns (Some e) =>
        (Returns (Engine.failed e),
         {| table := table w; requests := sent; console := console w |})
    | Returns None =>
        let (r, t') := run (table w) in
        (Returns r, {| table := t'; requests := sent; console := console w |})
    end.

(** The chains of the query client, under the caller's token. *)
Module Client.

(** [.from('applications').select('*').order('created_at', { ascending: false })] *)
Definition selectOrdered (env : Env) : M (Engine.Response (list Application.t)) :=
  send env SelectOrdered (fun t =>
    (Engine.ok (Engine.orderByCreatedAtDesc
                  (Engine.select (auth_uid env) (fun _ => true) t)), t)).

(** [.select('*').eq('id', id).maybeSingle()] *)
Definition selectByIdMaybeSingle (rt : Runtime) (env : Env) (id : jsstring)
  : M (Engine.Response Application.t) :=
  send env (SelectById id) (fun t =>
    (Engine.maybeSingle rt (Engine.select (auth_uid env) (Engine.eq_id id) t), t)).

(** [.insert(v).select().single()]: the values are read for their columns,
    then the row is inserted. *)
Definition insertSelectSingle (rt : Runtime) (env : Env) (v : Engine.NewRow.t)
  : M (Engine.Response Application.t) :=
  send env (Insert v) (fun t =>
    match Engine.record_in rt v with
    | inl e => (Engine.failed e, t)
    | inr v' =>
        match Engine.insert (auth_uid env)
                (Engine.newRow (gen_random_uuid env) (now env) v') t with
        | (inl e, _) => (Engine.failed e, t)
        | (inr r, t') => (Engine.single rt [r], t')
        end
    end).

(** [.update(p).eq('id', id).select().single()]: the values are read for
    their columns, then the rows are updated; when [.single()] refuses the
    row count the statement is rolled back. *)
Definition updateByIdSelectSingle (rt : Runtime) (env : Env) (p : Engine.Patch.t)
  (id : jsstring) : M (Engine.Response Application.t) :=
  send env (UpdateById p id) (fun t =>
    match Engine.patch_in rt p with
    | inl e => (Engine.failed e, t)
    | inr p' =>
        match Engine.update (auth_uid env) (Engine.eq_id id) p' (now env) t with
        | (inl e, _) => (Engine.failed e, t)
        | (inr [r], t') => (Engine.single rt [r], t')
        | (inr rows, _) => (Engine.single rt rows, t)
        end
    end).

(** [.delete().eq('id', id).select()] *)
Definition deleteByIdSelect (env : Env) (id : jsstring)
  : M (Engine.Response (list Application.t)) :=
  send env (DeleteById id) (fun t =>
    let (deleted, t') := Engine.delete (auth_uid env) (Engine.eq_id id) t in
    (Engine.ok deleted, t')).

End Client.

(** ** The data-access layer (src/lib/db/applications.ts) *)

Module Dal.

(** [/^[0-9a-f]{8}-[0-9a-f]{4}-[1-5][0-9a-f]{3}-[89ab][0-9a-f]{3}-[0-9a-f]{12}$/i] *)
Definition UUID_RE : list (N -> bool) :=
  repeat hex 8 ++ [dash] ++ repeat hex 4 ++ [dash]
  ++ [oneToFive] ++ repeat hex 3 ++ [dash]
  ++ [variant] ++ repeat hex 3 ++ [dash] ++ repeat hex 12.

(** [!applicationId || !UUID_RE.test(applicationId)] *)
Definition invalidId (applicationId : jsstring) : bool :=
  negb (truthy applicationId) || negb (matchClasses UUID_RE applicationId).

(** [error.message.toLowerCase().includes(word)] *)
Definition mentions (rt : Runtime) (e : Engine.PostgrestError) (word : string) : bool :=
  includes (toLowerCase rt (Engine.message e)) (lit word).

Definition unauthenticated {A} : M (DataResult A) :=
  ret (Failure (lit "User not authenticated")).

Definition getApplications (rt : Runtime) (env : Env)
  : M (DataResult (option (list Application.t))) :=
  try_catch
    (auth <- lift (getUser env) ;;
     match authError auth, user auth with
     | None, Some _ =>
         r <- Client.selectOrdered env ;;
         match Engine.error r with
         | Some error =>
             console_error "Error fetching applications:" (Engine.message error) ;;;
             let errorMessage :=
               if mentions rt error "network" || mentions rt error "fetch"
               then lit "Network error. Please check your internet connection."
               else if mentions rt error "timeout"
               then lit "Request timed out. Please try again."
               else lit "Unable to load applications. Please try again." in
             ret (Failure errorMessage)
         | None => ret (Success (Engine.data r))
         end
     | _, _ => unauthenticated
     end)
    (fun error =>
       console_error "Unexpected error in getApplications:" error ;;;
       ret (Failure (lit "An unexpected error occurred while fetching applications"))).

Definition getApplicationById (rt : Runtime) (env : Env) (id : jsstring)
  : M (DataResult (option Application.t)) :=
  try_catch
    (auth <- lift (getUser env) ;;
     match authError auth, user auth with
     | None, Some _ =>
         let applicationId := trim id in
         if invalidId applicationId
         then ret (Failure (lit "Invalid application ID"))
         else
           r <- Client.selectByIdMaybeSingle rt env applicationId ;;
           match Engine.error r with
           | Some error =>
               console_error "Error fetching application:" (Engine.message error) ;;;
               ret (Failure (lit "Failed to fetch application: "
                             ++ Engine.message error))
           | None => ret (Success (Engine.data r))
           end
     | _, _ => unauthenticated
     end)
    (fun error =>
       console_error "Unexpected error in getApplicationById:" error ;;;
       ret (Failure (lit "An unexpected error occurred while fetching the application"))).

Definition createApplication (rt : Runtime) (env : Env) (data : CreateData.t)
  : M (DataResult (option Application.t)) :=
  try_catch
    (auth <- lift (getUser env) ;;
     match authError auth, user auth with
     | None, Some user =>
         r <- Client.insertSelectSingle rt env
                {| Engine.NewRow.user_id := User.id user;
                   Engine.NewRow.company_name := CreateData.company_name data;
                   Engine.NewRow.position_title := CreateData.position_title data;
                   Engine.NewRow.application_date := CreateData.application_date data;
                   Engine.NewRow.status := CreateData.status data;
                   Engine.NewRow.notes := orNull (CreateData.notes data) |} ;;
         match Engine.error r with
         | Some error =>
             console_error "Error creating application:" (Engine.message error) ;;;
             let errorMessage :=
               if mentions rt error "network" || mentions rt error "fetch"
               then lit "Network error. Please check your internet connection."
               else if mentions rt error "timeout"
               then lit "Request timed out. Please try again."
               else if mentions rt error "violates"
               then lit "Invalid data. Please check your input."
               else lit "Unable to create application. Please try again." in
             ret (Failure errorMessage)
         | None => ret (Success (Engine.data r))
         end
     | _, _ => unauthenticated
     end)
    (fun error =>
       console_error "Unexpected error in createApplication:" error ;;;
       ret (Failure (lit "An unexpected error occurred while creating the application"))).

(** [data.notes !== undefined && { notes: data.notes }] *)
Definition notesColumn (n : Nullish jsstring) : option (option jsstring) :=
  match n with
  | undefined => None
  | null => Some None
  | value s => Some (Some s)
  end.

(** The object spread into [.update(...)]: a column for every field of
    [data] that is not [undefined], and no other. *)
Definition updateColumns (data : UpdateData.t) : Engine.Patch.t :=
  {| Engine.Patch.user_id := None;
     Engine.Patch.company_name := UpdateData.company_name data;
     Engine.Patch.position_title := UpdateData.position_title data;
     Engine.Patch.application_date := UpdateData.application_date data;
     Engine.Patch.status := UpdateData.status data;
     Engine.Patch.notes := notesColumn (UpdateData.notes data) |}.

Definition updateApplication (rt : Runtime) (env : Env) (id : jsstring)
  (data : UpdateData.t) : M (DataResult Application.t) :=
  try_catch
    (auth <- lift (getUser env) ;;
     match authError auth, user auth with
     | None, Some _ =>
         let applicationId := trim id in
         if invalidId applicationId
         then ret (Failure (lit "Invalid application ID"))
         else
           r <- Client.updateByIdSelectSingle rt env (updateColumns data) applicationId ;;
           match Engine.error r with
           | Some error =>
               console_error "Error updating application:" (Engine.message error) ;;;
               let errorMessage :=
                 if mentions rt error "network" || mentions rt error "fetch"
                 then lit "Network error. Please check your internet connection."
                 else if mentions rt error "timeout"
                 then lit "Request timed out. Please try again."
                 else if mentions rt error "violates"
                 then lit "Invalid data. Please check your input."
                 else lit "Unable to update application. Please try again." in
               ret (Failure errorMessage)
           | None =>
               match Engine.data r with
               | None => ret (Failure (lit "Application not found or access denied"))
               | Some updatedApplication => ret (Success updatedApplication)
               end
           end
     | _, _ => unauthenticated
     end)
    (fun error =>
       console_error "Unexpected error in updateApplication:" error ;;;
       ret (Failure (lit "An unexpected error occurred while updating the application"))).

Definition deleteApplication (rt : Runtime) (env : Env) (id : jsstring)
  : M (DataResult jsstring) :=
  try_catch
    (auth <- lift (getUser env) ;;
     match authError auth, user auth with
     | None, Some _ =>
         let applicationId := trim id in
         if invalidId applicationId
         then ret (Failure (lit "Invalid application ID"))
         else
           r <- Client.deleteByIdSelect env applicationId ;;
           match Engine.error r with
           | Some error =>
               console_error "Error deleting application:" (Engine.message error) ;;;
               let errorMessage :=
                 if mentions rt error "network" || mentions rt error "fetch"
                 then lit "Network error. Please check your internet connection."
                 else if mentions rt error "timeout"
                 then lit "Request timed out. Please try again."
                 else lit "Unable to delete application. Please try again." in
               ret (Failure errorMessage)
           | None =>
               match Engine.data r with
               | None | Some [] =>
                   ret (Failure (lit "Application not found or access denied: "
                                 ++ applicationId))
               | Some (_ :: _) => ret (Success applicationId)
               end
           end
     | _, _ => unauthenticated
     end)
    (fun error =>
       console_error "Unexpected error in deleteApplication:" error ;;;
       ret (Failure (lit "An unexpected error occurred while deleting the application"))).

End Dal.

(** The copy of the layer that holds the two read operations only: its
    [getApplicationById] is the one above, its [getApplications] differs in
    the error branch. *)
Module DalReadOnly.

Definition getApplications (rt : Runtime) (env : Env)
  : M (DataResult (option (list Application.t))) :=
  try_catch
    (auth <- lift (getUser env) ;;
     match authError auth, user auth with
     | None, Some _ =>
         r <- Client.selectOrdered env ;;
         match Engine.error r with
         | Some error =>
             console_error "Error fetching applications:" (Engine.message error) ;;;
             ret (Failure (lit "Failed to fetch applications: "
                           ++ Engine.message error))
         | None => ret (Success (Engine.data r))
         end
     | _, _ => Dal.unauthenticated
     end)
    (fun error =>
       console_error "Unexpected error in getApplications:" error ;;;
       ret (Failure (lit "An unexpected error occurred while fetching applications"))).

End DalReadOnly.

(** ** The API routes and the server action *)

Module Api.

Module NextRequest.
(** [await request.json()]: [None] when the body is not JSON and the call
    throws a SyntaxError. *)
Record t := { json : option JS.json }.
End NextRequest.

Inductive Body : Type :=
| ErrorBody (error : jsstring)
| ValidationBody (error : jsstring) (details : list Zod.ZodIssue)
| DataBody (data : option Application.t)
| DeletedBody (message : jsstring) (id : jsstring).

Record NextResponse := { body : Body; status : N }.

Definition respond (b : Body) (st : N) : M NextResponse :=
  ret {| body := b; status := st |}.

(** The first two cases of the routes' catch clause. *)
Definition validationFailed (details : list Zod.ZodIssue) : M NextResponse :=
  respond (ValidationBody (lit "Validation failed") details) 400.
Definition invalidJson : M NextResponse :=
  respond (ErrorBody (lit "Invalid JSON")) 400.

(** [result.error.includes('not found') || result.error.includes('access denied')] *)
Definition isNotFound (error : jsstring) : bool :=
  includes error (lit "not found") || includes error (lit "access denied").

(** POST /api/applications *)
Definition POST (rt : Runtime) (env : Env) (request : NextRequest.t) : M NextResponse :=
  try_catch
    (auth <- lift (getUser env) ;;
     match authError auth, user auth with
     | None, Some _ =>
         match NextRequest.json request with
         | None => invalidJson
         | Some body =>
             match Zod.parseBody (Zod.createApplicationSchema rt) body with
             | Zod.ZodError details => validationFailed details
             | Zod.ParseOk validatedData =>
                 result <- Dal.createApplication rt env
                   {| CreateData.company_name := CreateData.company_name validatedData;
                      CreateData.position_title := CreateData.position_title validatedData;
                      CreateData.application_date := CreateData.application_date validatedData;
                      CreateData.status := CreateData.status validatedData;
                      CreateData.notes :=
                        match orNull (CreateData.notes validatedData) with
                        | Some s => value s
                        | None => null
                        end |} ;;
                 match result with
                 | Failure error => respond (ErrorBody error) 500
                 | Success data => respond (DataBody data) 201
                 end
             end
         end
     | _, _ => respond (ErrorBody (lit "Unauthorized")) 401
     end)
    (fun error =>
       console_error "Unexpected error in POST /api/applications:" error ;;;
       respond (ErrorBody (lit "Internal server error")) 500).

(** The object the PATCH route builds from the validated data: every field
    that is not [undefined]. *)
Definition definedFields (validatedData : UpdateData.t) : UpdateData.t :=
  {| UpdateData.company_name := UpdateData.company_name validatedData;
     UpdateData.position_title := UpdateData.position_title validatedData;
     UpdateData.application_date := UpdateData.application_date validatedData;
     UpdateData.status := UpdateData.status validatedData;
     UpdateData.notes := UpdateData.notes validatedData |}.

(** PATCH /api/applications/[id] *)
Definition PATCH (rt : Runtime) (env : Env) (request : NextRequest.t)
  (id : jsstring) : M NextResponse :=
  try_catch
    (auth <- lift (getUser env) ;;
     match authError auth, user auth with
     | None, Some _ =>
         if negb (truthy id)
         then respond (ErrorBody (lit "Application ID is required")) 400
         else
           match NextRequest.json request with
           | None => invalidJson
           | Some rawBody =>
               match Object_keys_length rawBody with
               | None => throw (lit "TypeError: Cannot convert undefined or null to object")
               | Some O => respond (ErrorBody (lit "No fields to update")) 400
               | Some (S _) =>
                   match Zod.parseBody (Zod.updateApplicationSchema rt) rawBody with
                   | Zod.ZodError details => validationFailed details
                   | Zod.ParseOk validatedData =>
                       result <- Dal.updateApplication rt env id
                                   (definedFields validatedData) ;;
                       match result with
                       | Failure error =>
                           if isNotFound error
                           then respond (ErrorBody (lit "Application not found")) 404
                           else respond (ErrorBody error) 500
                       | Success data => respond (DataBody (Some data)) 200
                       end
                   end
               end
           end
     | _, _ => respond (ErrorBody (lit "Unauthorized")) 401
     end)
    (fun error =>
       console_error "Unexpected error in PATCH /api/applications/[id]:" error ;;;
       respond (ErrorBody (lit "Internal server error")) 500).

(** DELETE /api/applications/[id] *)
Definition DELETE (rt : Runtime) (env : Env) (id : jsstring) : M NextResponse :=
  try_catch
    (auth <- lift (getUser env) ;;
     match authError auth, user auth with
     | None, Some _ =>
         if negb (truthy id)
         then respond (ErrorBody (lit "Application ID is required")) 400
         else
           result <- Dal.deleteApplication rt env id ;;
           match result with
           | Failure error =>
               if isNotFound error
               then respond (ErrorBody (lit "Application not found")) 404
               else respond (ErrorBody error) 500
           | Success data =>
               respond (DeletedBody (lit "Application deleted successfully") data) 200
           end
     | _, _ => respond (ErrorBody (lit "Unauthorized")) 401
     end)
    (fun error =>
       console_error "Unexpected error in DELETE /api/applications/[id]:" error ;;;
       respond (ErrorBody (lit "Internal server error")) 500).

(** A form entry is a string or a file. *)
Inductive FormDataEntryValue : Type :=
| FString (s : jsstring)
| FFile.

Definition FormData : Type := list (jsstring * FormDataEntryValue).

(** [formData.get(name)]: the first entry of that name, or [null]. *)
Fixpoint get (formData : FormData) (name : jsstring) : jsvalue :=
  match formData with
  | [] => VNull
  | (k, v) :: rest =>
      if streq name k
      then match v with
           | FString s => VString s
           | FFile => VOther (lit "object")
           end
      else get rest name
  end.

(** [rawData]: the five entries read from the form, and nothing else. *)
Definition rawData (formData : FormData) (key : jsstring) : jsvalue :=
  if streq key (lit "company_name") then get formData (lit "company_name")
  else if streq key (lit "position_title") then get formData (lit "position_title")
  else if streq key (lit "application_date") then get formData (lit "application_date")
  else if streq key (lit "status") then get formData (lit "status")
  else if streq key (lit "notes") then get formData (lit "notes")
  else VUndefined.

Inductive ActionResult : Type :=
| ActionFailure (error : jsstring)
| Redirect (path : jsstring).

(** The server action [createApplicationAction] (src/app/(auth)/actions.ts);
    it has no catch clause, and [redirect] ends it on success. *)
Definition createApplicationAction (rt : Runtime) (env : Env) (formData : FormData)
  : M ActionResult :=
  auth <- lift (getUser env) ;;
  match authError auth, user auth with
  | None, Some _ =>
      match Zod.createApplicationSchema rt (rawData formData) with
      | Zod.ZodError issues =>
          let firstError :=
            match issues with
            | i :: _ => if truthy (Zod.message i) then Zod.message i
                        else lit "Validation failed"
            | [] => lit "Validation failed"
            end in
          ret (ActionFailure firstError)
      | Zod.ParseOk data =>
          result <- Dal.createApplication rt env data ;;
          match result with
          | Failure error => ret (ActionFailure error)
          | Success _ => ret (Redirect (lit "/dashboard"))
          end
      end
  | _, _ => ret (ActionFailure (lit "User not authenticated"))
  end.

End Api.

(** ** A runtime to evaluate with *)

(** *** Lower case (Unicode 14.0)

    [String.prototype.toLowerCase] reads the string as code points, maps
    each one by the Unicode default case conversion, and writes the result
    back as code units. A capital sigma becomes the final sigma when a cased
    letter precedes it and none follows, case-ignorable code points aside;
    U+0130 becomes i followed by a combining dot above; a surrogate without
    its pair is kept. *)

Module Unicode.

(** The lower-case mappings of single code points (UnicodeData.txt, Unicode
    14.0): every [step]-th code point from [first] to [last] has a lower-case
    form, that of [first] being [target] and the others following at the same
    distance. Rows are [(first, last, step, target)], in ascending order. *)
Definition lowerCaseMappings : list (N * N * N * N) :=
  [(65, 90, 1, 97); (192, 214, 1, 224); (216, 222, 1, 248); (256, 302, 2, 257);
   (306, 310, 2, 307); (313, 327, 2, 314); (330, 374, 2, 331); (376, 376, 1, 255);
   (377, 381, 2, 378); (385, 385, 1, 595); (386, 388, 2, 387); (390, 390, 1, 596);
   (391, 391, 1, 392); (393, 394, 1, 598); (395, 395, 1, 396); (398, 398, 1, 477);
   (399, 399, 1, 601); (400, 400, 1, 603); (401, 401, 1, 402); (403, 403, 1, 608);
   (404, 404, 1, 611); (406, 406, 1, 617); (407, 407, 1, 616); (408, 408, 1, 409);
   (412, 412, 1, 623); (413, 413, 1, 626); (415, 415, 1, 629); (416, 420, 2, 417);
   (422, 422, 1, 640); (423, 423, 1, 424); (425, 425, 1, 643); (428, 428, 1, 429);
   (430, 430, 1, 648); (431, 431, 1, 432); (433, 434, 1, 650); (435, 437, 2, 436);
   (439, 439, 1, 658); (440, 440, 1, 441); (444, 444, 1, 445); (452, 452, 1, 454);
   (453, 453, 1, 454); (455, 455, 1, 457); (456, 456, 1, 457); (458, 458, 1, 460);
   (459, 475, 2, 460); (478, 494, 2, 479); (497, 497, 1, 499); (498, 500, 2, 499);
   (502, 502, 1, 405); (503, 503, 1, 447); (504, 542, 2, 505); (544, 544, 1, 414);
   (546, 562, 2, 547); (570, 570, 1, 11365); (571, 571, 1, 572); (573, 573, 1, 410);
   (574, 574, 1, 11366); (577, 577, 1, 578); (579, 579, 1, 384); (580, 580, 1, 649);
   (581, 581, 1, 652); (582, 590, 2, 583); (880, 882, 2, 881); (886, 886, 1, 887);
   (895, 895, 1, 1011); (902, 902, 1, 940); (904, 906, 1, 941); (908, 908, 1, 972);
   (910, 911, 1, 973); (913, 929, 1, 945); (931, 939, 1, 963); (975, 975, 1, 983);
   (984, 1006, 2, 985); (1012, 1012, 1, 952); (1015, 1015, 1, 1016);
   (1017, 1017, 1, 1010); (1018, 1018, 1, 1019); (1021, 1023, 1, 891);
   (1024, 1039, 1, 1104); (1040, 1071, 1, 1072); (1120, 1152, 2, 1121);
   (1162, 1214, 2, 1163); (1216, 1216, 1, 1231); (1217, 1229, 2, 1218);
   (1232, 1326, 2, 1233); (1329, 1366, 1, 1377); (4256, 4293, 1, 11520);
   (4295, 4295, 1, 11559); (4301, 4301, 1, 11565); (5024, 5103, 1, 43888);
   (5104, 5109, 1, 5112); (7312, 7354, 1, 4304); (7357, 7359, 1, 4349);
   (7680, 7828, 2, 7681); (7838, 7838, 1, 223); (7840, 7934, 2, 7841);
   (7944, 7951, 1, 7936); (7960, 7965, 1, 7952); (7976, 7983, 1, 7968);
   (7992, 7999, 1, 7984); (8008, 8013, 1, 8000); (8025, 8031, 2, 8017);
   (8040, 8047, 1, 8032); (8072, 8079, 1, 8064); (8088, 8095, 1, 8080);
   (8104, 8111, 1, 8096); (8120, 8121, 1, 8112); (8122, 8123, 1, 8048);
   (8124, 8124, 1, 8115); (8136, 8139, 1, 8050); (8140, 8140, 1, 8131);
   (8152, 8153, 1, 8144); (8154, 8155, 1, 8054); (8168, 8169, 1, 8160);
   (8170, 8171, 1, 8058); (8172, 8172, 1, 8165); (8184, 8185, 1, 8056);
   (8186, 8187, 1, 8060); (8188, 8188, 1, 8179); (8486, 8486, 1, 969);
   (8490, 8490, 1, 107); (8491, 8491, 1, 229); (8498, 8498, 1, 8526);
   (8544, 8559, 1, 8560); (8579, 8579, 1, 8580); (9398, 9423, 1, 9424);
   (11264, 11311, 1, 11312); (11360, 11360, 1, 11361); (11362, 11362, 1, 619);
   (11363, 11363, 1, 7549); (11364, 11364, 1, 637); (11367, 11371, 2, 11368);
   (11373, 11373, 1, 593); (11374, 11374, 1, 625); (11375, 11375, 1, 592);
   (11376, 11376, 1, 594); (11378, 11378, 1, 11379); (11381, 11381, 1, 11382);
   (11390, 11391, 1, 575); (11392, 11490, 2, 11393); (11499, 11501, 2, 11500);
   (11506, 11506, 1, 11507); (42560, 42604, 2, 42561); (42624, 42650, 2, 42625);
   (42786, 42798, 2, 42787); (42802, 42862, 2, 42803); (42873, 42875, 2, 42874);
   (42877, 42877, 1, 7545); (42878, 42886, 2, 42879); (42891, 42891, 1, 42892);
   (42893, 42893, 1, 613); (42896, 42898, 2, 42897); (42902, 42920, 2, 42903);
   (42922, 42922, 1, 614); (42923, 42923, 1, 604); (42924, 42924, 1, 609);
   (42925, 42925, 1, 620); (42926, 42926, 1, 618); (42928, 42928, 1, 670);
   (42929, 42929, 1, 647); (42930, 42930, 1, 669); (42931, 42931, 1, 43859);
   (42932, 42946, 2, 42933); (42948, 42948, 1, 42900); (42949, 42949, 1, 642);
   (42950, 42950, 1, 7566); (42951, 42953, 2, 42952); (42960, 42960, 1, 42961);
   (42966, 42968, 2, 42967); (42997, 42997, 1, 42998); (65313, 65338, 1, 65345);
   (66560, 66599, 1, 66600); (66736, 66771, 1, 66776); (66928, 66938, 1, 66967);
   (66940, 66954, 1, 66979); (66956, 66962, 1, 66995); (66964, 66965, 1, 67003);
   (68736, 68786, 1, 68800); (71840, 71871, 1, 71872); (93760, 93791, 1, 93792);
   (125184, 125217, 1, 125218)].

(** The code points with the property Case_Ignorable, as ranges. *)
Definition caseIgnorable : list (N * N) :=
  [(39, 39); (46, 46); (58, 58); (94, 94); (96, 96); (168, 168); (173, 173);
   (175, 175); (180, 180); (183, 184); (688, 879); (884, 885); (890, 890); (900, 901);
   (903, 903); (1155, 1161); (1369, 1369); (1375, 1375); (1425, 1469); (1471, 1471);
   (1473, 1474); (1476, 1477); (1479, 1479); (1524, 1524); (1536, 1541); (1552, 1562);
   (1564, 1564); (1600, 1600); (1611, 1631); (1648, 1648); (1750, 1757); (1759, 1768);
   (1770, 1773); (1807, 1807); (1809, 1809); (1840, 1866); (1958, 1968); (2027, 2037);
   (2042, 2042); (2045, 2045); (2070, 2093); (2137, 2139); (2184, 2184); (2192, 2193);
   (2200, 2207); (2249, 2306); (2362, 2362); (2364, 2364); (2369, 2376); (2381, 2381);
   (2385, 2391); (2402, 2403); (2417, 2417); (2433, 2433); (2492, 2492); (2497, 2500);
   (2509, 2509); (2530, 2531); (2558, 2558); (2561, 2562); (2620, 2620); (2625, 2626);
   (2631, 2632); (2635, 2637); (2641, 2641); (2672, 2673); (2677, 2677); (2689, 2690);
   (2748, 2748); (2753, 2757); (2759, 2760); (2765, 2765); (2786, 2787); (2810, 2815);
   (2817, 2817); (2876, 2876); (2879, 2879); (2881, 2884); (2893, 2893); (2901, 2902);
   (2914, 2915); (2946, 2946); (3008, 3008); (3021, 3021); (3072, 3072); (3076, 3076);
   (3132, 3132); (3134, 3136); (3142, 3144); (3146, 3149); (3157, 3158); (3170, 3171);
   (3201, 3201); (3260, 3260); (3263, 3263); (3270, 3270); (3276, 3277); (3298, 3299);
   (3328, 3329); (3387, 3388); (3393, 3396); (3405, 3405); (3426, 3427); (3457, 3457);
   (3530, 3530); (3538, 3540); (3542, 3542); (3633, 3633); (3636, 3642); (3654, 3662);
   (3761, 3761); (3764, 3772); (3782, 3782); (3784, 3789); (3864, 3865); (3893, 3893);
   (3895, 3895); (3897, 3897); (3953, 3966); (3968, 3972); (3974, 3975); (3981, 3991);
   (3993, 4028); (4038, 4038); (4141, 4144); (4146, 4151); (4153, 4154); (4157, 4158);
   (4184, 4185); (4190, 4192); (4209, 4212); (4226, 4226); (4229, 4230); (4237, 4237);
   (4253, 4253); (4348, 4348); (4957, 4959); (5906, 5908); (5938, 5939); (5970, 5971);
   (6002, 6003); (6068, 6069); (6071, 6077); (6086, 6086); (6089, 6099); (6103, 6103);
   (6109, 6109); (6155, 6159); (6211, 6211); (6277, 6278); (6313, 6313); (6432, 6434);
   (6439, 6440); (6450, 6450); (6457, 6459); (6679, 6680); (6683, 6683); (6742, 6742);
   (6744, 6750); (6752, 6752); (6754, 6754); (6757, 6764); (6771, 6780); (6783, 6783);
   (6823, 6823); (6832, 6862); (6912, 6915); (6964, 6964); (6966, 6970); (6972, 6972);
   (6978, 6978); (7019, 7027); (7040, 7041); (7074, 7077); (7080, 7081); (7083, 7085);
   (7142, 7142); (7144, 7145); (7149, 7149); (7151, 7153); (7212, 7219); (7222, 7223);
   (7288, 7293); (7376, 7378); (7380, 7392); (7394, 7400); (7405, 7405); (7412, 7412);
   (7416, 7417); (7468, 7530); (7544, 7544); (7579, 7679); (8125, 8125); (8127, 8129);
   (8141, 8143); (8157, 8159); (8173, 8175); (8189, 8190); (8203, 8207); (8216, 8217);
   (8228, 8228); (8231, 8231); (8234, 8238); (8288, 8292); (8294, 8303); (8305, 8305);
   (8319, 8319); (8336, 8348); (8400, 8432); (11388, 11389); (11503, 11505);
   (11631, 11631); (11647, 11647); (11744, 11775); (11823, 11823); (12293, 12293);
   (12330, 12333); (12337, 12341); (12347, 12347); (12441, 12446); (12540, 12542);
   (40981, 40981); (42232, 42237); (42508, 42508); (42607, 42610); (42612, 42621);
   (42623, 42623); (42652, 42655); (42736, 42737); (42752, 42785); (42864, 42864);
   (42888, 42890); (42994, 42996); (43000, 43001); (43010, 43010); (43014, 43014);
   (43019, 43019); (43045, 43046); (43052, 43052); (43204, 43205); (43232, 43249);
   (43263, 43263); (43302, 43309); (43335, 43345); (43392, 43394); (43443, 43443);
   (43446, 43449); (43452, 43453); (43471, 43471); (43493, 43494); (43561, 43566);
   (43569, 43570); (43573, 43574); (43587, 43587); (43596, 43596); (43632, 43632);
   (43644, 43644); (43696, 43696); (43698, 43700); (43703, 43704); (43710, 43711);
   (43713, 43713); (43741, 43741); (43756, 43757); (43763, 43764); (43766, 43766);
   (43867, 43871); (43881, 43883); (44005, 44005); (44008, 44008); (44013, 44013);
   (64286, 64286); (64434, 64450); (65024, 65039); (65043, 65043); (65056, 65071);
   (65106, 65106); (65109, 65109); (65279, 65279); (65287, 65287); (65294, 65294);
   (65306, 65306); (65342, 65342); (65344, 65344); (65392, 65392); (65438, 65439);
   (65507, 65507); (65529, 65531); (66045, 66045); (66272, 66272); (66422, 66426);
   (67456, 67461); (67463, 67504); (67506, 67514); (68097, 68099); (68101, 68102);
   (68108, 68111); (68152, 68154); (68159, 68159); (68325, 68326); (68900, 68903);
   (69291, 69292); (69446, 69456); (69506, 69509); (69633, 69633); (69688, 69702);
   (69744, 69744); (69747, 69748); (69759, 69761); (69811, 69814); (69817, 69818);
   (69821, 69821); (69826, 69826); (69837, 69837); (69888, 69890); (69927, 69931);
   (69933, 69940); (70003, 70003); (70016, 70017); (70070, 70078); (70089, 70092);
   (70095, 70095); (70191, 70193); (70196, 70196); (70198, 70199); (70206, 70206);
   (70367, 70367); (70371, 70378); (70400, 70401); (70459, 70460); (70464, 70464);
   (70502, 70508); (70512, 70516); (70712, 70719); (70722, 70724); (70726, 70726);
   (70750, 70750); (70835, 70840); (70842, 70842); (70847, 70848); (70850, 70851);
   (71090, 71093); (71100, 71101); (71103, 71104); (71132, 71133); (71219, 71226);
   (71229, 71229); (71231, 71232); (71339, 71339); (71341, 71341); (71344, 71349);
   (71351, 71351); (71453, 71455); (71458, 71461); (71463, 71467); (71727, 71735);
   (71737, 71738); (71995, 71996); (71998, 71998); (72003, 72003); (72148, 72151);
   (72154, 72155); (72160, 72160); (72193, 72202); (72243, 72248); (72251, 72254);
   (72263, 72263); (72273, 72278); (72281, 72283); (72330, 72342); (72344, 72345);
   (72752, 72758); (72760, 72765); (72767, 72767); (72850, 72871); (72874, 72880);
   (72882, 72883); (72885, 72886); (73009, 73014); (73018, 73018); (73020, 73021);
   (73023, 73029); (73031, 73031); (73104, 73105); (73109, 73109); (73111, 73111);
   (73459, 73460); (78896, 78904); (92912, 92916); (92976, 92982); (92992, 92995);
   (94031, 94031); (94095, 94111); (94176, 94177); (94179, 94180); (110576, 110579);
   (110581, 110587); (110589, 110590); (113821, 113822); (113824, 113827);
   (118528, 118573); (118576, 118598); (119143, 119145); (119155, 119170);
   (119173, 119179); (119210, 119213); (119362, 119364); (121344, 121398);
   (121403, 121452); (121461, 121461); (121476, 121476); (121499, 121503);
   (121505, 121519); (122880, 122886); (122888, 122904); (122907, 122913);
   (122915, 122916); (122918, 122922); (123184, 123197); (123566, 123566);
   (123628, 123631); (125136, 125142); (125252, 125259); (127995, 127999);
   (917505, 917505); (917536, 917631); (917760, 917999)].

(** The code points with the property Cased that are not Case_Ignorable, as
    ranges. *)
Definition casedLetters : list (N * N) :=
  [(65, 90); (97, 122); (170, 170); (181, 181); (186, 186); (192, 214); (216, 246);
   (248, 442); (444, 447); (452, 659); (661, 687); (880, 883); (886, 887); (891, 893);
   (895, 895); (902, 902); (904, 906); (908, 908); (910, 929); (931, 1013);
   (1015, 1153); (1162, 1327); (1329, 1366); (1376, 1416); (4256, 4293); (4295, 4295);
   (4301, 4301); (4304, 4346); (4349, 4351); (5024, 5109); (5112, 5117); (7296, 7304);
   (7312, 7354); (7357, 7359); (7424, 7467); (7531, 7543); (7545, 7578); (7680, 7957);
   (7960, 7965); (7968, 8005); (8008, 8013); (8016, 8023); (8025, 8025); (8027, 8027);
   (8029, 8029); (8031, 8061); (8064, 8116); (8118, 8124); (8126, 8126); (8130, 8132);
   (8134, 8140); (8144, 8147); (8150, 8155); (8160, 8172); (8178, 8180); (8182, 8188);
   (8450, 8450); (8455, 8455); (8458, 8467); (8469, 8469); (8473, 8477); (8484, 8484);
   (8486, 8486); (8488, 8488); (8490, 8493); (8495, 8500); (8505, 8505); (8508, 8511);
   (8517, 8521); (8526, 8526); (8544, 8575); (8579, 8580); (9398, 9449);
   (11264, 11387); (11390, 11492); (11499, 11502); (11506, 11507); (11520, 11557);
   (11559, 11559); (11565, 11565); (42560, 42605); (42624, 42651); (42786, 42863);
   (42865, 42887); (42891, 42894); (42896, 42954); (42960, 42961); (42963, 42963);
   (42965, 42969); (42997, 42998); (43002, 43002); (43824, 43866); (43872, 43880);
   (43888, 43967); (64256, 64262); (64275, 64279); (65313, 65338); (65345, 65370);
   (66560, 66639); (66736, 66771); (66776, 66811); (66928, 66938); (66940, 66954);
   (66956, 66962); (66964, 66965); (66967, 66977); (66979, 66993); (66995, 67001);
   (67003, 67004); (68736, 68786); (68800, 68850); (71840, 71903); (93760, 93823);
   (119808, 119892); (119894, 119964); (119966, 119967); (119970, 119970);
   (119973, 119974); (119977, 119980); (119982, 119993); (119995, 119995);
   (119997, 120003); (120005, 120069); (120071, 120074); (120077, 120084);
   (120086, 120092); (120094, 120121); (120123, 120126); (120128, 120132);
   (120134, 120134); (120138, 120144); (120146, 120485); (120488, 120512);
   (120514, 120538); (120540, 120570); (120572, 120596); (120598, 120628);
   (120630, 120654); (120656, 120686); (120688, 120712); (120714, 120744);
   (120746, 120770); (120772, 120779); (122624, 122633); (122635, 122654);
   (125184, 125251); (127280, 127305); (127312, 127337); (127344, 127369)].
Fixpoint inRanges (c : N) (ranges : list (N * N)) : bool :=
  match ranges with
  | [] => false
  | (first, last) :: rest =>
      if c <? first then false
      else if c <=? last then true
      else inRanges c rest
  end.

Fixpoint mapped (c : N) (rows : list (N * N * N * N)) : N :=
  match rows with
  | [] => c
  | (first, last, step, target) :: rest =>
      if c <? first then c
      else if (c <=? last) && ((c - first) mod step =? 0) then target + (c - first)
      else mapped c rest
  end.

(** The code points of a string of code units. *)
Fixpoint codePoints (s : jsstring) : list N :=
  match s with
  | [] => []
  | h :: tl =>
      match tl with
      | l :: rest =>
          if isHighSurrogate h && isLowSurrogate l
          then (65536 + (h - 55296) * 1024 + (l - 56320)) :: codePoints rest
          else h :: codePoints tl
      | [] => [h]
      end
  end.

Definition codeUnits (c : N) : jsstring :=
  if c <? 65536 then [c]
  else [55296 + (c - 65536) / 1024; 56320 + (c - 65536) mod 1024].

(** Whether, case-ignorable code points aside, a cased letter comes next. *)
Fixpoint casedFollows (l : list N) : bool :=
  match l with
  | [] => false
  | c :: rest =>
      if inRanges c caseIgnorable then casedFollows rest
      else inRanges c casedLetters
  end.

(** [afterCased]: case-ignorable code points aside, a cased letter came
    last. *)
Fixpoint lowerFrom (afterCased : bool) (l : list N) : jsstring :=
  match l with
  | [] => []
  | c :: rest =>
      let after :=
        if inRanges c caseIgnorable then afterCased else inRanges c casedLetters in
      (if c =? 931 then
         if afterCased && negb (casedFollows rest) then [962] else [963]
       else if c =? 304 then [105; 775]
       else codeUnits (mapped c lowerCaseMappings))
      ++ lowerFrom after rest
  end.

Definition toLowerCase (s : jsstring) : jsstring :=
  lowerFrom false (codePoints s).

End Unicode.

(** *** Dates (V8, src/date/dateparser.h and dateparser-inl.h)

    [new Date(s)] on a string reads it as an ES5 date-time string as far as
    it goes and hands what is left to the legacy parser, which takes numbers
    as parts of the day or of the time, words as names of months, AM, PM or
    time zones, and lets unknown words pass before the first number only.
    The date is valid when day, time and zone can be written out and the
    time value lies within 8.64e15 ms of the epoch. Integers are those of the
    C++ code: a numeral keeps nine significant digits, and the seconds of a
    zone offset wrap at 32 bits. Local time is taken to be UTC, which can
    matter to dates within a day of the end of that range only. *)

Module DateParser.

Inductive KeywordType : Type :=
| INVALID | MONTH_NAME | AM_PM | TIME_ZONE_NAME | TIME_SEPARATOR.

Inductive DateToken : Type :=
| Number (n : Z) (length : nat)
| Symbol (c : N)
| Keyword (type : KeywordType) (n : Z) (length : nat)
| WhiteSpace
| Unknown.

Definition Between (x lo hi : Z) : bool := (lo <=? x)%Z && (x <=? hi)%Z.

(** [IsWhiteSpace]: white space that is not a line terminator. *)
Definition IsWhiteSpace (c : N) : bool :=
  isWhiteSpace c
  && negb ((c =? 10) || (c =? 13) || (c =? 8232) || (c =? 8233)).

Definition IsAsciiAlphaOrAbove (c : N) : bool := 65 <=? c.

(** [ReadUnsignedNumeral]: leading zeros are skipped, nine further digits
    count, the others are read and dropped. *)
Fixpoint readDigits (s : jsstring) (leading : bool) (kept : nat) (n : Z)
  : Z * jsstring :=
  match s with
  | c :: rest =>
      if digit c then
        if leading && (c =? 48) then readDigits rest true kept n
        else if Nat.ltb kept 9
        then readDigits rest false (S kept) (n * 10 + Z.of_N (c - 48))%Z
        else readDigits rest false (S kept) n
      else (n, s)
  | [] => (n, [])
  end.

(** [ReadWord]: the characters of the word. *)
Fixpoint readWord (s : jsstring) : jsstring * jsstring :=
  match s with
  | c :: rest =>
      if IsAsciiAlphaOrAbove c && negb (IsWhiteSpace c)
      then let (w, r) := readWord rest in (c :: w, r)
      else ([], s)
  | [] => ([], [])
  end.

(** [SkipParentheses], from the opening parenthesis on. *)
Fixpoint skipParentheses (s : jsstring) (balance : nat) : jsstring :=
  match s with
  | c :: rest =>
      let balance' :=
        if c =? 41 then Nat.pred balance
        else if c =? 40 then S balance
        else balance in
      match balance' with
      | O => rest
      | _ => skipParentheses rest balance'
      end
  | [] => []
  end.

(** The keyword table: the first three characters of a word, lowered, decide;
    a word longer than three characters can only be the name of a month. *)
Definition keywords : list (string * KeywordType * Z) :=
  [ ("jan", MONTH_NAME, 1); ("feb", MONTH_NAME, 2); ("mar", MONTH_NAME, 3);
    ("apr", MONTH_NAME, 4); ("may", MONTH_NAME, 5); ("jun", MONTH_NAME, 6);
    ("jul", MONTH_NAME, 7); ("aug", MONTH_NAME, 8); ("sep", MONTH_NAME, 9);
    ("oct", MONTH_NAME, 10); ("nov", MONTH_NAME, 11); ("dec", MONTH_NAME, 12);
    ("am", AM_PM, 0); ("pm", AM_PM, 12);
    ("ut", TIME_ZONE_NAME, 0); ("utc", TIME_ZONE_NAME, 0); ("z", TIME_ZONE_NAME, 0);
    ("gmt", TIME_ZONE_NAME, 0);
    ("cdt", TIME_ZONE_NAME, -5); ("cst", TIME_ZONE_NAME, -6);
    ("edt", TIME_ZONE_NAME, -4); ("est", TIME_ZONE_NAME, -5);
    ("mdt", TIME_ZONE_NAME, -6); ("mst", TIME_ZONE_NAME, -7);
    ("pdt", TIME_ZONE_NAME, -7); ("pst", TIME_ZONE_NAME, -8);
    ("t", TIME_SEPARATOR, 0) ]%string%Z.

(** [AsciiAlphaToLower] *)
Definition AsciiAlphaToLower (c : N) : N := N.lor c 32.

Fixpoint Lookup (prefix : jsstring) (len : nat)
  (table : list (string * KeywordType * Z)) : KeywordType * Z :=
  match table with
  | [] => (INVALID, 0%Z)
  | (word, type, n) :: rest =>
      if streq prefix (lit word)
         && (Nat.leb len 3 || match type with MONTH_NAME => true | _ => false end)
      then (type, n)
      else Lookup prefix len rest
  end.

(** [Scan]: the next token and the rest of the input. *)
Definition Scan (s : jsstring) : option (DateToken * jsstring) :=
  match s with
  | [] => None
  | c :: rest =>
      if digit c then
        let (n, r) := readDigits s true 0 0%Z in
        Some (Number n (List.length s - List.length r), r)
      else if (c =? 58) || (c =? 45) || (c =? 43) || (c =? 46) || (c =? 41)
      then Some (Symbol c, rest)
      else if IsAsciiAlphaOrAbove c && negb (IsWhiteSpace c) then
        let (w, r) := readWord s in
        let (type, n) :=
          Lookup (map AsciiAlphaToLower (firstn 3 w)) (List.length w) keywords in
        Some (Keyword type n (List.length w), r)
      else if isWhiteSpace c then Some (WhiteSpace, rest)
      else if c =? 40 then Some (Unknown, skipParentheses s 0)
      else Some (Unknown, rest)
  end.

Fixpoint tokens (fuel : nat) (s : jsstring) : list DateToken :=
  match fuel with
  | O => []
  | S fuel' =>
      match Scan s with
      | None => []
      | Some (t, rest) => t :: tokens fuel' rest
      end
  end.

(** The input up to its end or to the first code unit 0, which the reader
    takes for the end. *)
Fixpoint upToNul (s : jsstring) : jsstring :=
  match s with
  | [] => []
  | c :: rest => if c =? 0 then [] else c :: upToNul rest
  end.

(** The composers: the parts of the day read so far, those of the time, and
    the zone. *)
Record DayComposer := {
  comp : list Z;
  named_month : option Z;
  is_iso_date : bool
}.

Record TimeComposer := {
  time_comp : list Z;
  hour_offset : option Z
}.

Record TimeZoneComposer := {
  sign : option Z;
  hour : option Z;
  minute : option Z
}.

Record Composers := {
  day : DayComposer;
  time : TimeComposer;
  tz : TimeZoneComposer
}.

Definition start : Composers :=
  {| day := {| comp := []; named_month := None; is_iso_date := false |};
     time := {| time_comp := []; hour_offset := None |};
     tz := {| sign := None; hour := None; minute := None |} |}.

Definition IsMonth (x : Z) : bool := Between x 1 12.
Definition IsDay (x : Z) : bool := Between x 1 31.
Definition IsHour (x : Z) : bool := Between x 0 23.
Definition IsHour12 (x : Z) : bool := Between x 0 12.
Definition IsMinute (x : Z) : bool := Between x 0 59.
Definition IsSecond (x : Z) : bool := Between x 0 59.
Definition IsMillisecond (x : Z) : bool := Between x 0 999.

(** [day.Add(n)]: there is room for three parts. *)
Definition dayAdd (n : Z) (c : Composers) : option Composers :=
  if Nat.ltb (List.length (comp (day c))) 3
  then Some {| day := {| comp := comp (day c) ++ [n];
                         named_month := named_month (day c);
                         is_iso_date := is_iso_date (day c) |};
               time := time c; tz := tz c |}
  else None.

Definition setNamedMonth (n : Z) (c : Composers) : Composers :=
  {| day := {| comp := comp (day c); named_month := Some n;
               is_iso_date := is_iso_date (day c) |};
     time := time c; tz := tz c |}.

Definition set_iso_date (c : Composers) : Composers :=
  {| day := {| comp := comp (day c); named_month := named_month (day c);
               is_iso_date := true |};
     time := time c; tz := tz c |}.

(** [time.Add(n)]: there is room for four parts. *)
Definition timeAdd (n : Z) (c : Composers) : option Composers :=
  if Nat.ltb (List.length (time_comp (time c))) 4
  then Some {| day := day c;
               time := {| time_comp := time_comp (time c) ++ [n];
                          hour_offset := hour_offset (time c) |};
               tz := tz c |}
  else None.

(** [time.AddFinal(n)], whose result the callers do not read: the part is
    added if there is room and the others are set to 0. *)
Definition timeAddFinal (n : Z) (c : Composers) : Composers :=
  match timeAdd n c with
  | None => c
  | Some c' =>
      {| day := day c';
         time := {| time_comp := time_comp (time c')
                                 ++ repeat 0%Z (4 - List.length (time_comp (time c')));
                    hour_offset := hour_offset (time c') |};
         tz := tz c' |}
  end.

Definition timeIsEmpty (c : Composers) : bool :=
  match time_comp (time c) with [] => true | _ => false end.

Definition timeIsExpecting (n : Z) (c : Composers) : bool :=
  match List.length (time_comp (time c)) with
  | 1%nat => IsMinute n
  | 2%nat => IsSecond n
  | 3%nat => IsMillisecond n
  | _ => false
  end.

Definition setHourOffset (n : Z) (c : Composers) : Composers :=
  {| day := day c;
     time := {| time_comp := time_comp (time c); hour_offset := Some n |};
     tz := tz c |}.

Definition setTz (z : TimeZoneComposer) (c : Composers) : Composers :=
  {| day := day c; time := time c; tz := z |}.

(** [tz.Set(offset_in_hours)] *)
Definition tzSet (offset : Z) (c : Composers) : Composers :=
  setTz {| sign := Some (if (offset <? 0)%Z then (-1)%Z else 1%Z);
           hour := Some (Z.abs offset); minute := Some 0%Z |} c.

Definition tzIsEmpty (c : Composers) : bool :=
  match hour (tz c) with None => true | Some _ => false end.

Definition tzIsExpecting (n : Z) (c : Composers) : bool :=
  match hour (tz c), minute (tz c) with
  | Some _, None => IsMinute n
  | _, _ => false
  end.

Definition tzIsUTC (c : Composers) : bool :=
  match hour (tz c), minute (tz c) with
  | Some 0%Z, Some 0%Z => true
  | _, _ => false
  end.

(** [ReadMilliseconds]: the three most significant digits of the fraction. *)
Definition ReadMilliseconds (number : Z) (length : nat) : Z :=
  match length with
  | 1%nat => (number * 100)%Z
  | 2%nat => (number * 10)%Z
  | 3%nat => number
  | O => number
  | _ => (number / 10 ^ Z.of_nat (Nat.min length 9 - 3))%Z
  end.

Definition isSymbol (t : option DateToken) (c : N) : bool :=
  match t with
  | Some (Symbol c') => c' =? c
  | _ => false
  end.

Definition isAsciiSign (t : DateToken) : option Z :=
  match t with
  | Symbol 43 => Some 1%Z
  | Symbol 45 => Some (-1)%Z
  | _ => None
  end.

(** How the reading of an ES5 date-time string ends: with the whole input
    read, with an input that can be no date, or at a token for the legacy
    parser to go on from. *)
Inductive ES5 : Type :=
| EndOfInput (c : Composers)
| Invalid
| Unhandled (token : DateToken) (rest : list DateToken) (c : Composers).

Definition withDay (parts : list Z) (c : Composers) : Composers :=
  {| day := {| comp := parts; named_month := named_month (day c);
               is_iso_date := is_iso_date (day c) |};
     time := time c; tz := tz c |}.

Definition withTime (parts : list Z) (c : Composers) : Composers :=
  {| day := day c;
     time := {| time_comp := parts; hour_offset := hour_offset (time c) |};
     tz := tz c |}.

(** The zone of an ES5 date-time string: Z, or a sign with hhmm or hh:mm. *)
Definition ParseES5Zone (ts : list DateToken) (c : Composers)
  : option (Composers * list DateToken) :=
  match ts with
  | Keyword TIME_ZONE_NAME _ 1 :: ts1 => Some (tzSet 0 c, ts1)
  | Symbol 43 :: ts1 | Symbol 45 :: ts1 =>
      let sg := if isSymbol (hd_error ts) 43 then 1%Z else (-1)%Z in
      match ts1 with
      | Number hourmin 4 :: ts2 =>
          if IsHour (hourmin / 100) && IsMinute (hourmin mod 100)
          then Some (setTz {| sign := Some sg; hour := Some (hourmin / 100)%Z;
                              minute := Some (hourmin mod 100)%Z |} c, ts2)
          else None
      | Number h 2 :: Symbol 58 :: Number m 2 :: ts2 =>
          if IsHour h && IsMinute m
          then Some (setTz {| sign := Some sg; hour := Some h; minute := Some m |} c, ts2)
          else None
      | _ => None
      end
  | _ => Some (c, ts)
  end.

(** The seconds and the fraction of an ES5 date-time string. *)
Definition ParseES5Seconds (hour_is_24 : bool) (ts : list DateToken)
  : option (list Z * list DateToken) :=
  match ts with
  | Symbol 58 :: ts1 =>
      match ts1 with
      | Number s 2 :: ts2 =>
          if negb (IsSecond s) || (hour_is_24 && (0 <? s)%Z) then None
          else
            match ts2 with
            | Symbol 46 :: ts3 =>
                match ts3 with
                | Number f l :: ts4 =>
                    if hour_is_24 && (0 <? f)%Z then None
                    else Some ([s; ReadMilliseconds f l], ts4)
                | _ => None
                end
            | _ => Some ([s], ts2)
            end
      | _ => None
      end
  | _ => Some ([], ts)
  end.

(** The end of [ParseES5DateTime]: a date without time and zone is in UTC. *)
Definition ES5Done (c : Composers) : ES5 :=
  EndOfInput (set_iso_date (if tzIsEmpty c && timeIsEmpty c then tzSet 0 c else c)).

(** The part of [ParseES5DateTime] after the date: T, the time and the
    zone, up to the end of the input. *)
Definition ParseES5Time (ts : list DateToken) (c : Composers) : ES5 :=
  match ts with
  | [] => ES5Done c
  | Keyword TIME_SEPARATOR _ _ :: ts1 =>
      match ts1 with
      | Number h 2 :: Symbol 58 :: Number m 2 :: ts2 =>
          let hour_is_24 := (h =? 24)%Z in
          if negb (Between h 0 24) || negb (IsMinute m) || (hour_is_24 && (0 <? m)%Z)
          then Invalid
          else
            match ParseES5Seconds hour_is_24 ts2 with
            | None => Invalid
            | Some (seconds, ts3) =>
                match ParseES5Zone ts3 (withTime ([h; m] ++ seconds) c) with
                | Some (c', []) => ES5Done c'
                | _ => Invalid
                end
            end
      | _ => Invalid
      end
  | t :: rest => Unhandled t rest c
  end.

(** The part of [ParseES5DateTime] after the year: a month and a day of two
    digits each, behind a hyphen. *)
Definition ParseES5MonthDay (ts : list DateToken) (c : Composers) : ES5 :=
  match ts with
  | Symbol 45 :: ts1 =>
      match ts1 with
      | [] => EndOfInput c
      | Number m 2 :: ts2 =>
          if IsMonth m then
            let c1 := withDay (comp (day c) ++ [m]) c in
            match ts2 with
            | Symbol 45 :: ts3 =>
                match ts3 with
                | [] => EndOfInput c1
                | Number d 2 :: ts4 =>
                    if IsDay d
                    then ParseES5Time ts4 (withDay (comp (day c1) ++ [d]) c1)
                    else Unhandled (Number d 2) ts4 c1
                | t :: ts4 => Unhandled t ts4 c1
                end
            | _ => ParseES5Time ts2 c1
            end
          else Unhandled (Number m 2) ts2 c
      | t :: ts2 => Unhandled t ts2 c
      end
  | _ => ParseES5Time ts c
  end.

(** [ParseES5DateTime]: the year has four digits, or a sign and six. *)
Definition ParseES5DateTime (ts : list DateToken) : ES5 :=
  match ts with
  | [] => EndOfInput start
  | Number y 4 :: ts1 => ParseES5MonthDay ts1 (withDay [y] start)
  | Symbol 43 :: ts1 | Symbol 45 :: ts1 =>
      let sg := if isSymbol (hd_error ts) 43 then 1%Z else (-1)%Z in
      match ts1 with
      | Number y 6 :: ts2 =>
          if (sg <? 0)%Z && (y =? 0)%Z then Unhandled Unknown ts2 start
          else ParseES5MonthDay ts2 (withDay [(sg * y)%Z] start)
      | _ => Unhandled (Symbol (if (sg <? 0)%Z then 45 else 43)) ts1 start
      end
  | t :: ts1 => Unhandled t ts1 start
  end.

Definition skipSymbol (c : N) (ts : list DateToken) : list DateToken :=
  match ts with
  | Symbol c' :: rest => if c' =? c then rest else ts
  | _ => ts
  end.

(** One round of the loop of the legacy parser, on the token [t] with [ts]
    after it: the tokens left and the composers, or nothing when the input
    can be no date. *)
Definition legacyStep (t : DateToken) (ts : list DateToken)
  (has_read_number : bool) (c : Composers)
  : option (list DateToken * bool * Composers) :=
  match t with
  | Number n _ =>
      if isSymbol (hd_error ts) 58 then
        let ts1 := tl ts in
        if isSymbol (hd_error ts1) 58 then
          (* n:: *)
          if timeIsEmpty c
          then Some (tl ts1, true, withTime [n; 0%Z] c)
          else None
        else
          (* n: *)
          match timeAdd n c with
          | None => None
          | Some c' => Some (skipSymbol 46 ts1, true, c')
          end
      else
        let dot := isSymbol (hd_error ts) 46 in
        let ts1 := skipSymbol 46 ts in
        if dot && timeIsExpecting n c then
          match ts1 with
          | Number f l :: ts2 =>
              match timeAdd n c with
              | None => None
              | Some c' => Some (ts2, true, timeAddFinal (ReadMilliseconds f l) c')
              end
          | _ => None
          end
        else if tzIsExpecting n c then
          Some (ts1, true,
                setTz {| sign := sign (tz c); hour := hour (tz c); minute := Some n |} c)
        else if timeIsExpecting n c then
          (* the time must end here, or go on with white space, Z or a sign *)
          match ts1 with
          | [] | WhiteSpace :: _ | Keyword TIME_ZONE_NAME _ 1 :: _
          | Symbol 43 :: _ | Symbol 45 :: _ => Some (ts1, true, timeAddFinal n c)
          | _ => None
          end
        else
          match dayAdd n c with
          | None => None
          | Some c' => Some (skipSymbol 45 ts1, true, c')
          end
  | Keyword type n _ =>
      match type with
      | MONTH_NAME => Some (skipSymbol 45 ts, has_read_number, setNamedMonth n c)
      | _ =>
          if match type with AM_PM => negb (timeIsEmpty c) | _ => false end
          then Some (ts, has_read_number, setHourOffset n c)
          else if match type with TIME_ZONE_NAME => has_read_number | _ => false end
          then Some (ts, has_read_number, tzSet n c)
          else if has_read_number then None
          else match ts with
               | Number _ _ :: _ => None
               | _ => Some (ts, has_read_number, c)
               end
      end
  | Symbol s =>
      match isAsciiSign t with
      | Some sg =>
          if tzIsUTC c || negb (timeIsEmpty c) then
            (* the offset of a zone, behind UTC or a time *)
            let '(n, length, ts1) :=
              match ts with
              | Number n l :: ts1 => (n, l, ts1)
              | _ => (0%Z, O, ts)
              end in
            if isSymbol (hd_error ts1) 58 then
              Some (ts1, true,
                    setTz {| sign := Some sg; hour := Some n; minute := None |} c)
            else if Nat.eqb length 2 || Nat.eqb length 1 then
              Some (ts1, true,
                    setTz {| sign := Some sg; hour := Some n; minute := Some 0%Z |} c)
            else if Nat.eqb length 4 || Nat.eqb length 3 then
              Some (ts1, true,
                    setTz {| sign := Some sg; hour := Some (n / 100)%Z;
                             minute := Some (n mod 100)%Z |} c)
            else None
          else if has_read_number then None
          else Some (ts, has_read_number, c)
      | None =>
          if (s =? 41) && has_read_number then None
          else Some (ts, has_read_number, c)
      end
  | WhiteSpace | Unknown => Some (ts, has_read_number, c)
  end.

Fixpoint legacy (fuel : nat) (ts : list DateToken) (has_read_number : bool)
  (c : Composers) : option Composers :=
  match ts with
  | [] => Some c
  | t :: rest =>
      match fuel with
      | O => None
      | S fuel' =>
          match legacyStep t rest has_read_number c with
          | None => None
          | Some (ts', read, c') => legacy fuel' ts' read c'
          end
      end
  end.

(** [DayComposer::Write]: missing parts are 1; three numbers are year, month
    and day when the string was an ES5 date or the first number can be no
    day, and month, day and year otherwise; a year below 100 written the
    legacy way is one of 1950 to 2049. *)
Definition writeDay (d : DayComposer) : option (Z * Z * Z) :=
  match comp d with
  | [] => None
  | _ =>
      let part i := nth i (comp d) 1%Z in
      let '(year, month, day_) :=
        match named_month d with
        | None =>
            if is_iso_date d || negb (IsDay (part 0%nat))
            then (part 0%nat, part 1%nat, part 2%nat)
            else (part 2%nat, part 0%nat, part 1%nat)
        | Some m =>
            if negb (IsDay (part 0%nat))
            then (part 0%nat, m, part 1%nat)
            else (part 1%nat, m, part 0%nat)
        end in
      let year :=
        if is_iso_date d then year
        else if Between year 0 49 then (year + 2000)%Z
        else if Between year 50 99 then (year + 1900)%Z
        else year in
      if IsMonth month && IsDay day_ then Some (year, month, day_) else None
  end.

(** [TimeComposer::Write]: the milliseconds since midnight. Missing parts
    are 0; hour 24 stands for the end of the day. *)
Definition writeTime (t : TimeComposer) : option Z :=
  let part i := nth i (time_comp t) 0%Z in
  let hour0 := part 0%nat in
  let hour_ :=
    match hour_offset t with
    | None => Some hour0
    | Some offset => if IsHour12 hour0 then Some (hour0 mod 12 + offset)%Z else None
    end in
  match hour_ with
  | None => None
  | Some h =>
      let m := part 1%nat in
      let s := part 2%nat in
      let ms := part 3%nat in
      if (IsHour h && IsMinute m && IsSecond s && IsMillisecond ms)
         || ((h =? 24)%Z && (m =? 0)%Z && (s =? 0)%Z && (ms =? 0)%Z)
      then Some (h * 3600000 + m * 60000 + s * 1000 + ms)%Z
      else None
  end.

(** [TimeZoneComposer::Write]: the offset in seconds, if a zone was read;
    its size is computed with 32 bits and must not pass 2^31 - 1. *)
Definition writeZone (z : TimeZoneComposer) : option (option Z) :=
  match sign z with
  | None => Some None
  | Some sg =>
      let h := match hour z with Some h => h | None => 0%Z end in
      let m := match minute z with Some m => m | None => 0%Z end in
      let total := ((h * 3600 + m * 60) mod 2 ^ 32)%Z in
      if (2 ^ 31 - 1 <? total)%Z then None
      else Some (Some (sg * total)%Z)
  end.

(** [MakeDay]: the days from the epoch to the first day of a month of the
    proleptic Gregorian calendar. *)
Definition daysFromYearMonth (year month : Z) : Z :=
  let y := (if (month <=? 2)%Z then year - 1 else year)%Z in
  let era := (y / 400)%Z in
  let yoe := (y - era * 400)%Z in
  let mp := ((month + 9) mod 12)%Z in
  let doy := ((153 * mp + 2) / 5)%Z in
  let doe := (yoe * 365 + yoe / 4 - yoe / 100 + doy)%Z in
  (era * 146097 + doe - 719468)%Z.

(** The time value of the composers, if [MakeDay], [MakeDate], the move from
    local time and [TimeClip] leave one. *)
Definition timeValue (c : Composers) : option Z :=
  match writeDay (day c), writeTime (time c), writeZone (tz c) with
  | Some (year, month, day_), Some ms, Some offset =>
      if Between year (-1000000) 1000000 then
        let date := ((daysFromYearMonth year month + day_ - 1) * 86400000 + ms)%Z in
        let utc :=
          match offset with
          | None => date
          | Some seconds => (date - seconds * 1000)%Z
          end in
        if Between utc (-8640000000000000) 8640000000000000 then Some utc else None
      else None
  | _, _, _ => None
  end.

(** [DateParser::Parse] followed by the making of the time value. *)
Definition Parse (s : jsstring) : option Z :=
  let ts := tokens (S (List.length s)) (upToNul s) in
  match ParseES5DateTime ts with
  | Invalid => None
  | EndOfInput c => timeValue c
  | Unhandled t rest c =>
      match legacy (S (List.length ts)) (t :: rest)
                   (match comp (day c) with [] => false | _ => true end) c with
      | None => None
      | Some c' => timeValue c'
      end
  end.

End DateParser.

(** [!isNaN(new Date(s).getTime())] *)
Definition v8_date_parses (s : jsstring) : bool :=
  match DateParser.Parse s with
  | Some _ => true
  | None => false
  end.

(** The value of a string of decimal digits. *)
Definition decimal (s : jsstring) : N :=
  fold_left (fun n c => n * 10 + (c - 48)) s 0.

Definition leapYear (y : N) : bool :=
  ((y mod 4 =? 0) && negb (y mod 100 =? 0)) || (y mod 400 =? 0).

Definition daysInMonth (y m : N) : N :=
  if m =? 2 then if leapYear y then 29 else 28
  else if (m =? 4) || (m =? 6) || (m =? 9) || (m =? 11) then 30
  else 31.

(** The DATE input of PostgreSQL on YYYY-MM-DD text, which it reads as year,
    month and day whatever its DateStyle: a day of the calendar from year
    0001 on is accepted and printed back as it was written, any other is
    refused as out of range. Text of another form, which the engine reads by
    further rules (names of months, other orders, 'today', ...), is refused
    here; the schemas let no such text through. *)
Definition postgres_date_in (s : jsstring) : DateInput :=
  match s with
  | [y1; y2; y3; y4; _; m1; m2; _; d1; d2] =>
      if matchClasses Zod.DATE_RE s
      then
        let y := decimal [y1; y2; y3; y4] in
        let m := decimal [m1; m2] in
        let d := decimal [d1; d2] in
        if (1 <=? y) && (1 <=? m) && (m <=? 12) && (1 <=? d) && (d <=? daysInMonth y m)
        then Accepted s
        else Refused (lit "22008")
                     (lit "date/time field value out of range: "
                      ++ Engine.quote ++ s ++ Engine.quote)
      else Refused (lit "22007")
                   (lit "invalid input syntax for type date: "
                    ++ Engine.quote ++ s ++ Engine.quote)
  | _ => Refused (lit "22007")
                 (lit "invalid input syntax for type date: "
                  ++ Engine.quote ++ s ++ Engine.quote)
  end.

(** Node.js in front of PostgreSQL, with the query server wording the error
    of [.single()] as it did up to version 11. *)
Definition node : Runtime :=
  {| toLowerCase := Unicode.toLowerCase;
     date_parses := v8_date_parses;
     single_row_message := lit "JSON object requested, multiple (or no) rows returned";
     date_in := postgres_date_in |}.

(** The same with the wording of version 12 and later. *)
Definition node_postgrest12 : Runtime :=
  {| toLowerCase := Unicode.toLowerCase;
     date_parses := v8_date_parses;
     single_row_message := lit "Cannot coerce the result to a single JSON object";
     date_in := postgres_date_in |}.

(** ** Vocabulary of the properties *)

(** The session resolves to user [u]. *)
Definition signedIn (env : Env) (u : User.t) : Prop :=
  getUser env = Returns {| user := Some u; authError := None |}.

(** The session resolves to no identity: [authError || !user]. *)
Definition signedOut (env : Env) : Prop :=
  exists a, getUser env = Returns a /\ (authError a <> None \/ user a = None).

(** The row belongs to the caller. *)
Definition owns (caller : option jsstring) (r : Application.t) : bool :=
  match caller with
  | Some c => streq c (Application.user_id r)
  | None => false
  end.

(** The keys the two schemas name. *)
Definition schemaKeys : list jsstring :=
  [lit "company_name"; lit "position_title"; lit "application_date";
   lit "status"; lit "notes"].

(** Two objects give the schemas the same properties. *)
Definition sameFields (get1 get2 : jsstring -> jsvalue) : Prop :=
  Forall (fun k => get1 k = get2 k) schemaKeys.

(** The object createApplication hands to [.insert(...)] under user [u]. *)
Definition insertedValues (u : User.t) (data : CreateData.t) : Engine.NewRow.t :=
  {| Engine.NewRow.user_id := User.id u;
     Engine.NewRow.company_name := CreateData.company_name data;
     Engine.NewRow.position_title := CreateData.position_title data;
     Engine.NewRow.application_date := CreateData.application_date data;
     Engine.NewRow.status := CreateData.status data;
     Engine.NewRow.notes := orNull (CreateData.notes data) |}.

(** The row a create under [u] builds from [data]. *)
Definition createdRow (env : Env) (u : User.t) (data : CreateData.t) : Application.t :=
  Engine.newRow (gen_random_uuid env) (now env) (insertedValues u data).

(** The columns take the values of a create as they were sent: the texts can
    be stored and the date is printed back as it was written. *)
Definition storedAsSent (rt : Runtime) (data : CreateData.t) : Prop :=
  Engine.first_fault ([CreateData.company_name data; CreateData.position_title data;
                       CreateData.application_date data]
                      ++ Engine.maybe (orNull (CreateData.notes data))) = None
  /\ date_in rt (CreateData.application_date data)
     = Accepted (CreateData.application_date data).

(** The table after a create under [u]: as before, or with one more row,
    owned by [u]. *)
Definition grownFor (u : User.t) (before after : list Application.t) : Prop :=
  after = before \/
  exists row, after = before ++ [row] /\ Application.user_id row = User.id u.

(** What an update of [old] with [data] at time [t] may leave in its place:
    supplied fields take the supplied value, a supplied date as the DATE
    column reads it, the others keep theirs, and [updated_at] is the time of
    the update. *)
Definition updatedFrom (rt : Runtime) (data : UpdateData.t) (t : N)
  (old new : Application.t) : Prop :=
  Application.id new = Application.id old
  /\ Application.user_id new = Application.user_id old
  /\ Application.created_at new = Application.created_at old
  /\ Application.updated_at new = t
  /\ Application.company_name new =
       match UpdateData.company_name data with
       | Some v => v | None => Application.company_name old end
  /\ Application.position_title new =
       match UpdateData.position_title data with
       | Some v => v | None => Application.position_title old end
  /\ match UpdateData.application_date data with
     | Some v => date_in rt v = Accepted (Application.application_date new)
     | None => Application.application_date new = Application.application_date old
     end
  /\ Application.status new =
       match UpdateData.status data with
       | Some v => v | None => Application.status old end
  /\ Application.notes new =
       match UpdateData.notes data with
       | undefined => Application.notes old
       | null => None
       | value s => Some s
       end.

(** The rows of the table after an update, against those before. *)
Definition framed (rt : Runtime) (u : User.t) (id : jsstring) (data : UpdateData.t)
  (t0 : N) (old new : Application.t) : Prop :=
  new = old \/
  (Application.user_id old = User.id u
   /\ Engine.eq_id (trim id) old = true
   /\ updatedFrom rt data t0 old new).

(** A string with nothing to trim at its start. *)
Definition clean (s : jsstring) : Prop :=
  match s with
  | [] => True
  | c :: _ => isWhiteSpace c = false
  end.

(** The messages the layer substitutes for an engine error. *)
Definition opaqueMessages : list jsstring :=
  [ lit "Network error. Please check your internet connection.";
    lit "Request timed out. Please try again.";
    lit "Invalid data. Please check your input.";
    lit "Unable to load applications. Please try again.";
    lit "Unable to create application. Please try again.";
    lit "Unable to update application. Please try again.";
    lit "Unable to delete application. Please try again." ].

(** ** Fixtures for the concrete checks *)

Module Fixture.

Definition alice : User.t := {| User.id := lit "11111111-1111-4111-8111-111111111111" |}.
Definition bob : User.t := {| User.id := lit "22222222-2222-4222-8222-222222222222" |}.

(** A call under the session of [u], answered by the engine at time [clock]. *)
Definition callBy (u : User.t) (clock : N) : Env :=
  {| getUser := Returns {| user := Some u; authError := None |};
     fault := Returns None;
     gen_random_uuid := lit "bbbbbbbb-bbbb-4bbb-8bbb-bbbbbbbbbbbb";
     now := clock |}.

(** A call whose session has expired. *)
Definition expired : Env :=
  {| getUser := Returns {| user := None;
                           authError := Some (lit "Auth session missing!") |};
     fault := Returns None;
     gen_random_uuid := lit "bbbbbbbb-bbbb-4bbb-8bbb-bbbbbbbbbbbb";
     now := 20 |}.

(** A call under the session of [u] whose query the engine fails with
    [message]. *)
Definition failing (u : User.t) (message : string) : Env :=
  {| getUser := Returns {| user := Some u; authError := None |};
     fault := Returns (Some {| Engine.message := lit message;
                               Engine.code := lit "08006" |});
     gen_random_uuid := lit "bbbbbbbb-bbbb-4bbb-8bbb-bbbbbbbbbbbb";
     now := 20 |}.

Definition acmeId : jsstring := lit "aaaaaaaa-aaaa-4aaa-8aaa-aaaaaaaaaaaa".
Definition missingId : jsstring := lit "cccccccc-cccc-4ccc-8ccc-cccccccccccc".

(** Alice's application at Acme, created at time 10. *)
Definition acme : Application.t :=
  {| Application.id := acmeId;
     Application.user_id := User.id alice;
     Application.company_name := lit "Acme";
     Application.position_title := lit "Engineer";
     Application.status := applied;
     Application.application_date := lit "2026-01-10";
     Application.notes := None;
     Application.created_at := 10;
     Application.updated_at := 10 |}.

(** The same application once its status is set to offer at time 20. *)
Definition acmeOffer : Application.t :=
  {| Application.id := acmeId;
     Application.user_id := User.id alice;
     Application.company_name := lit "Acme";
     Application.position_title := lit "Engineer";
     Application.status := offer;
     Application.application_date := lit "2026-01-10";
     Application.notes := None;
     Application.created_at := 10;
     Application.updated_at := 20 |}.

(** An update that supplies a status and nothing else. *)
Definition toInterviewing : UpdateData.t :=
  {| UpdateData.company_name := None;
     UpdateData.position_title := None;
     UpdateData.application_date := None;
     UpdateData.status := Some interviewing;
     UpdateData.notes := undefined |}.

Definition nothing : World := {| table := []; requests := []; console := [] |}.
Definition withAcme : World := {| table := [acme]; requests := []; console := [] |}.

Definition object (members : list (string * json)) : Api.NextRequest.t :=
  {| Api.NextRequest.json :=
       Some (JObject (map (fun m => (lit (fst m), snd m)) members)) |}.

Definition text (s : string) : json := JString (lit s).

End Fixture.

(** ** The insights layer (src/lib/db/insights.ts) *)

Module Insights.

(** The queries of the insights layer. *)
Inductive Query : Type :=
| CountExact
| SelectStatus
| SelectApplicationDate.

(** The world of an insights call: the world of the data-access layer and
    the insight queries sent so far. *)
Record State := { world : World; sent : list Query }.

Definition M (A : Type) : Type := State -> Outcome A * State.

Definition ret {A} (a : A) : M A := fun s => (Returns a, s).

Definition bind {A B} (c : M A) (k : A -> M B) : M B :=
  fun s =>
    match c s with
    | (Returns a, s') => k a s'
    | (Throws e, s') => (Throws e, s')
    end.

(** [try { c } catch (error) { handler }] *)
Definition try_catch {A} (c : M A) (handler : jsstring -> M A) : M A :=
  fun s =>
    match c s with
    | (Returns a, s') => (Returns a, s')
    | (Throws e, s') => handler e s'
    end.

Declare Scope insights_scope.
Notation "x <- c ;; k" := (bind c (fun x => k))
  (at level 61, c at next level, right associativity) : insights_scope.
Notation "c ;;; k" := (bind c (fun _ => k))
  (at level 61, right associativity) : insights_scope.
#[local] Open Scope insights_scope.

(** A step of the data-access layer's kind, run on the world inside. *)
Definition inWorld {A} (c : World -> Outcome A * World) : M A :=
  fun s =>
    let (o, w') := c (world s) in
    (o, {| world := w'; sent := sent s |}).

(** Sending a read: it is recorded, then the engine answers from the table
    unless the call is faulted. The table is not written. *)
Definition send {A} (env : Env) (q : Query)
  (answer : list Application.t -> A) (failed : Engine.PostgrestError -> A) : M A :=
  fun s =>
    let s' := {| world := world s; sent := sent s ++ [q] |} in
    match fault env with
    | Throws e => (Throws e, s')
    | Returns (Some e) => (Returns (failed e), s')
    | Returns None => (Returns (answer (table (world s))), s')
    end.

(** The [{ count, error }] pair of a head request. *)
Record CountResponse := { count : option nat; countError : option Engine.PostgrestError }.

(** [.select('*', { count: 'exact', head: true })] *)
Definition countExact (env : Env) : M CountResponse :=
  send env CountExact
    (fun t => {| count := Some (List.length (Engine.select (auth_uid env) (fun _ => true) t));
                 countError := None |})
    (fun e => {| count := None; countError := Some e |}).

(** [.select('status')] *)
Definition selectStatus (env : Env) : M (Engine.Response (list ApplicationStatus)) :=
  send env SelectStatus
    (fun t => Engine.ok (map Application.status
                           (Engine.select (auth_uid env) (fun _ => true) t)))
    Engine.failed.

(** [.select('application_date')] *)
Definition selectApplicationDate (env : Env) : M (Engine.Response (list jsstring)) :=
  send env SelectApplicationDate
    (fun t => Engine.ok (map Application.application_date
                           (Engine.select (auth_uid env) (fun _ => true) t)))
    Engine.failed.

Record TotalCount := { total : nat }.

Module StatusCount.
Record t := { status : ApplicationStatus; count : nat }.
End StatusCount.

Module DateCount.
Record t := { date : jsstring; count : nat }.
End DateCount.

Definition ApplicationStatus_eqb (a b : ApplicationStatus) : bool :=
  match a, b with
  | applied, applied | interviewing, interviewing | offer, offer
  | rejected, rejected | withdrawn, withdrawn => true
  | _, _ => false
  end.

(** [acc[key] = (acc[key] ?? 0) + 1] on an object whose properties are kept
    in the order they were created. *)
Fixpoint increment {K} (eqb : K -> K -> bool) (key : K) (acc : list (K * nat))
  : list (K * nat) :=
  match acc with
  | [] => [(key, 1%nat)]
  | (k, n) :: rest =>
      if eqb key k then (k, (n + 1)%nat) :: rest
      else (k, n) :: increment eqb key rest
  end.

(** [keys.reduce((acc, key) => { acc[key] = (acc[key] ?? 0) + 1; return acc }, {})] *)
Definition countBy {K} (eqb : K -> K -> bool) (keys : list K) : list (K * nat) :=
  fold_left (fun acc key => increment eqb key acc) keys [].

(** A property name that is an array index: the canonical decimal form of an
    integer below 2^32 - 1. *)
Definition indexValue (s : jsstring) : N :=
  fold_left (fun acc c => acc * 10 + (c - 48)) s 0.

Definition isArrayIndex (s : jsstring) : bool :=
  match s with
  | [] => false
  | [c] => digit c
  | c :: _ => negb (c =? 48) && forallb digit s && (indexValue s <=? 4294967294)
  end.

Fixpoint insertIndex {A} (e : jsstring * A) (l : list (jsstring * A))
  : list (jsstring * A) :=
  match l with
  | [] => [e]
  | x :: l' =>
      if indexValue (fst e) <=? indexValue (fst x) then e :: l
      else x :: insertIndex e l'
  end.

(** [Object.entries(obj)]: the array-index names in ascending numeric order,
    then the other names in the order they were created. *)
Definition Object_entries {A} (obj : list (jsstring * A)) : list (jsstring * A) :=
  fold_right insertIndex [] (filter (fun e => isArrayIndex (fst e)) obj)
  ++ filter (fun e => negb (isArrayIndex (fst e))) obj.

(** [array.sort(compare)]: the sort is stable; [x] goes before the first
    element it does not follow. For a comparison that orders the elements
    consistently every stable sort gives this array. *)
Fixpoint insertSorted {A} (compare : A -> A -> comparison) (x : A) (l : list A)
  : list A :=
  match l with
  | [] => [x]
  | y :: l' =>
      match compare x y with
      | Gt => y :: insertSorted compare x l'
      | _ => x :: l
      end
  end.

Definition sort {A} (compare : A -> A -> comparison) (l : list A) : list A :=
  fold_right (insertSorted compare) [] l.

Definition unauthenticated {A} : M (DataResult A) :=
  ret (Failure (lit "User not authenticated")).

Definition getTotalApplicationCount (env : Env) : M (DataResult TotalCount) :=
  try_catch
    (auth <- inWorld (lift (getUser env)) ;;
     match authError auth, user auth with
     | None, Some _ =>
         r <- countExact env ;;
         match countError r with
         | Some error =>
             inWorld (console_error "Error counting applications:"
                        (Engine.message error)) ;;;
             ret (Failure (lit "Failed to count applications: "
                           ++ Engine.message error))
         | None =>
             ret (Success {| total := match count r with
                                      | Some n => n
                                      | None => 0%nat
                                      end |})
         end
     | _, _ => unauthenticated
     end)
    (fun error =>
       inWorld (console_error "Unexpected error in getTotalApplicationCount:" error) ;;;
       ret (Failure (lit "An unexpected error occurred while counting applications"))).

(** None of the five status names is an array index, so [Object.entries]
    lists the counts in the order the statuses were first met. *)
Definition getApplicationCountsByStatus (env : Env)
  : M (DataResult (list StatusCount.t)) :=
  try_catch
    (auth <- inWorld (lift (getUser env)) ;;
     match authError auth, user auth with
     | None, Some _ =>
         r <- selectStatus env ;;
         match Engine.error r with
         | Some error =>
             inWorld (console_error "Error fetching applications for status count:"
                        (Engine.message error)) ;;;
             ret (Failure (lit "Failed to fetch applications: "
                           ++ Engine.message error))
         | None =>
             let applications :=
               match Engine.data r with Some l => l | None => [] end in
             let statusCounts := countBy ApplicationStatus_eqb applications in
             let result :=
               map (fun e => {| StatusCount.status := fst e;
                                StatusCount.count := snd e |}) statusCounts in
             ret (Success result)
         end
     | _, _ => unauthenticated
     end)
    (fun error =>
       inWorld (console_error "Unexpected error in getApplicationCountsByStatus:" error) ;;;
       ret (Failure (lit "An unexpected error occurred while fetching status counts"))).

(** [localeCompare] is the comparison of the runtime's collator. *)
Definition getApplicationCountsByDate
  (localeCompare : jsstring -> jsstring -> comparison) (env : Env)
  : M (DataResult (list DateCount.t)) :=
  try_catch
    (auth <- inWorld (lift (getUser env)) ;;
     match authError auth, user auth with
     | None, Some _ =>
         r <- selectApplicationDate env ;;
         match Engine.error r with
         | Some error =>
             inWorld (console_error "Error fetching applications for date count:"
                        (Engine.message error)) ;;;
             ret (Failure (lit "Failed to fetch applications: "
                           ++ Engine.message error))
         | None =>
             let applications :=
               match Engine.data r with Some l => l | None => [] end in
             let dateCounts := countBy streq applications in
             let result :=
               sort (fun a b => localeCompare (DateCount.date a) (DateCount.date b))
                    (map (fun e => {| DateCount.date := fst e;
                                      DateCount.count := snd e |})
                         (Object_entries dateCounts)) in
             ret (Success result)
         end
     | _, _ => unauthenticated
     end)
    (fun error =>
       inWorld (console_error "Unexpected error in getApplicationCountsByDate:" error) ;;;
       ret (Failure (lit "An unexpected error occurred while fetching date counts"))).

End Insights.

(** ** The middleware (src/middleware.ts) *)

Module Middleware.

(** [request.nextUrl]: the path and the query parameters, in order. *)
Record NextUrl := { pathname : jsstring; searchParams : list (jsstring * jsstring) }.

(** What the middleware returns: the response [updateSession] prepared, or a
    redirect. *)
Inductive Result (R : Type) : Type :=
| Continue : R -> Result R
| RedirectTo : NextUrl -> Result R.
Arguments Continue {R} _.
Arguments RedirectTo {R} _.

Definition protectedPaths : list jsstring :=
  [lit "/dashboard"; lit "/applications"; lit "/insights"].

(** [protectedPaths.some(path => pathname.startsWith(path))] *)
Definition isProtectedPath (path : jsstring) : bool :=
  existsb (fun p => startsWith path p) protectedPaths.

(** [searchParams.get(name)]: the first value under the name. *)
Fixpoint get (params : list (jsstring * jsstring)) (name : jsstring) : option jsstring :=
  match params with
  | [] => None
  | (k, v) :: rest => if streq k name then Some v else get rest name
  end.

(** [searchParams.set(name, value)]: the first parameter of that name takes
    the value and the others of that name are deleted; without one the
    parameter is appended. *)
Fixpoint set (params : list (jsstring * jsstring)) (name value : jsstring)
  : list (jsstring * jsstring) :=
  match params with
  | [] => [(name, value)]
  | (k, v) :: rest =>
      if streq k name
      then (k, value) :: filter (fun kv => negb (streq (fst kv) name)) rest
      else (k, v) :: set rest name value
  end.

(** [middleware(request)], given what [updateSession(request)] resolved to. *)
Definition middleware {R} (nextUrl : NextUrl) (response : R) (user : option User.t)
  : Result R :=
  if isProtectedPath (pathname nextUrl)
     && match user with None => true | Some _ => false end
  then RedirectTo {| pathname := lit "/login";
                     searchParams := set (searchParams nextUrl) (lit "redirectTo")
                                         (pathname nextUrl) |}
  else Continue response.

End Middleware.

(** ** The application form (src/components/applications/ApplicationForm.tsx) *)

Module ApplicationForm.

(** The text of a status, as the form holds it. *)
Definition statusValue (s : ApplicationStatus) : jsstring :=
  match s with
  | applied => lit "applied"
  | interviewing => lit "interviewing"
  | offer => lit "offer"
  | rejected => lit "rejected"
  | withdrawn => lit "withdrawn"
  end.

(** [if (data.notes)]: a non-empty string. *)
Definition hasNotes (n : Nullish jsstring) : bool :=
  match n with
  | value s => truthy s
  | _ => false
  end.

(** The form data [onSubmit] builds from the values of the form. *)
Definition toFormData (data : CreateData.t) : Api.FormData :=
  [ (lit "company_name", Api.FString (CreateData.company_name data));
    (lit "position_title", Api.FString (CreateData.position_title data));
    (lit "application_date", Api.FString (CreateData.application_date data));
    (lit "status", Api.FString (statusValue (CreateData.status data))) ]
  ++ match CreateData.notes data with
     | value s => if truthy s then [(lit "notes", Api.FString s)] else []
     | _ => []
     end.

(** [result.error.toLowerCase().includes(word)] *)
Definition saysIn (rt : Runtime) (error : jsstring) (word : string) : bool :=
  includes (toLowerCase rt error) (lit word).

Definition userFriendlyError (rt : Runtime) (error : jsstring) : jsstring :=
  if saysIn rt error "authentication" || saysIn rt error "not authenticated"
  then lit "Your session has expired. Please refresh the page and sign in again."
  else if saysIn rt error "validation"
  then lit "Please check all fields and try again."
  else if saysIn rt error "network" || saysIn rt error "connection"
  then lit "Unable to save. Please check your internet connection and try again."
  else lit "Unable to save application. Please try again or contact support if the problem persists.".

(** [onSubmit(data)]: the value of [serverError] when it returns, next to the
    world the server action leaves. The action redirects on success; a call
    that throws is caught, and what the catch clause writes goes to the
    console of the browser, which the world does not hold. *)
Definition onSubmit (rt : Runtime) (env : Env) (data : CreateData.t) (w : World)
  : option jsstring * World :=
  match Api.createApplicationAction rt env (toFormData data) w with
  | (Returns (Api.ActionFailure error), w') => (Some (userFriendlyError rt error), w')
  | (Returns (Api.Redirect _), w') => (None, w')
  | (Throws _, w') =>
      (Some (lit "Unable to connect. Please check your internet connection and try again."),
       w')
  end.

End ApplicationForm.

(** ** Vocabulary of the further properties *)

(** The rows of the table that are not [u]'s. *)
Definition rowsOfOthers (u : User.t) (t : list Application.t) : list Application.t :=
  filter (fun r => negb (owns (Some (User.id u)) r)) t.

(** The rows of the table that are [u]'s. *)
Definition rowsOf (u : User.t) (t : list Application.t) : list Application.t :=
  filter (owns (Some (User.id u))) t.

(** The change an update makes to a row it reaches, once the columns have
    taken its values. *)
Definition changed (rt : Runtime) (env : Env) (data : UpdateData.t) (r : Application.t)
  : Application.t :=
  match Engine.patch_in rt (Dal.updateColumns data) with
  | inr p => Engine.update_updated_at_column (now env) (Engine.Patch.apply p r)
  | inl _ => r
  end.

(** The columns take the values of an update as they were sent: the texts
    can be stored and the date, if there is one, is printed back as it was
    written. *)
Definition updatesAsSent (rt : Runtime) (data : UpdateData.t) : Prop :=
  Engine.patch_in rt (Dal.updateColumns data) = inr (Dal.updateColumns data).

(** An id as the engine prints it: the UUID pattern accepts it and its
    letters are lower case. *)
Definition printedUuid (v : jsstring) : Prop :=
  matchClasses Dal.UUID_RE v = true /\ asciiLower v = v.

(** Newest first. *)
Definition newerFirst (a b : Application.t) : Prop :=
  Application.created_at b <= Application.created_at a.

(** The number of elements of [l] equal to [k]. *)
Definition occurrences {K} (eqb : K -> K -> bool) (k : K) (l : list K) : nat :=
  List.length (filter (eqb k) l).

(** The count an object of counts holds under [k], 0 without one. *)
Fixpoint tallyOf {K} (eqb : K -> K -> bool) (k : K) (acc : list (K * nat)) : nat :=
  match acc with
  | [] => 0%nat
  | (k', n) :: rest => if eqb k k' then n else tallyOf eqb k rest
  end.

(** Comparison of strings by code units. *)
Fixpoint compareCodeUnits (a b : jsstring) : comparison :=
  match a, b with
  | [], [] => Eq
  | [], _ :: _ => Lt
  | _ :: _, [] => Gt
  | x :: a', y :: b' =>
      match N.compare x y with
      | Eq => compareCodeUnits a' b'
      | c => c
      end
  end.

Module Sample.

Definition initech : Application.t :=
  {| Application.id := lit "dddddddd-dddd-4ddd-8ddd-dddddddddddd";
     Application.user_id := User.id Fixture.bob;
     Application.company_name := lit "Initech";
     Application.position_title := lit "Analyst";
     Application.status := offer;
     Application.application_date := lit "2026-02-01";
     Application.notes := Some (lit "second round");
     Application.created_at := 15;
     Application.updated_at := 15 |}.

Definition globex : Application.t :=
  {| Application.id := lit "eeeeeeee-eeee-4eee-8eee-eeeeeeeeeeee";
     Application.user_id := User.id Fixture.alice;
     Application.company_name := lit "Globex";
     Application.position_title := lit "Designer";
     Application.status := applied;
     Application.application_date := lit "2026-01-05";
     Application.notes := None;
     Application.created_at := 12;
     Application.updated_at := 12 |}.

Definition shared : World :=
  {| table := [Fixture.acme; initech; globex]; requests := []; console := [] |}.

Definition newApplication : CreateData.t :=
  {| CreateData.company_name := lit "Hooli";
     CreateData.position_title := lit "Engineer";
     CreateData.application_date := lit "2026-03-01";
     CreateData.status := applied;
     CreateData.notes := null |}.

Definition insights (w : World) : Insights.State :=
  {| Insights.world := w; Insights.sent := [] |}.

End Sample.

(** ** Strings *)

Lemma streq_refl (a : jsstring) : streq a a = true.
Proof.
  induction a as [|x a IH]; simpl; [reflexivity|].
  now rewrite N.eqb_refl.
Qed.

Lemma streq_eq (a b : jsstring) : streq a b = true <-> a = b.
Proof.
  split.
  - revert b; induction a as [|x a IH]; intros [|y b] H; simpl in H;
      try discriminate; [reflexivity|].
    apply andb_true_iff in H as [Hx Hr].
    apply N.eqb_eq in Hx. subst. f_equal. now apply IH.
  - intros ->. apply streq_refl.
Qed.

Lemma trimStart_suffix (s : jsstring) : exists pre, s = pre ++ trimStart s.
Proof.
  induction s as [|c s [pre IH]]; simpl.
  - now exists [].
  - destruct (isWhiteSpace c).
    + exists (c :: pre). simpl. now f_equal.
    + now exists [].
Qed.

Lemma trimStart_clean (s : jsstring) : clean (trimStart s).
Proof.
  induction s as [|c s IH]; simpl; [exact I|].
  destruct (isWhiteSpace c) eqn:E; [exact IH | exact E].
Qed.

Lemma clean_trimStart (s : jsstring) : clean s -> trimStart s = s.
Proof.
  destruct s as [|c s]; simpl; [reflexivity|]. now intros ->.
Qed.

Lemma trimEnd_prefix (s : jsstring) : exists suf, s = trimEnd s ++ suf.
Proof.
  unfold trimEnd. destruct (trimStart_suffix (rev s)) as [pre H].
  exists (rev pre). rewrite <- rev_app_distr, <- H. now rewrite rev_involutive.
Qed.

Lemma trimEnd_clean (s : jsstring) : clean s -> clean (trimEnd s).
Proof.
  intros Hs. destruct (trimEnd_prefix s) as [suf H].
  destruct (trimEnd s) as [|c r]; [exact I|].
  rewrite H in Hs. exact Hs.
Qed.

Lemma trimEnd_idem (s : jsstring) : trimEnd (trimEnd s) = trimEnd s.
Proof.
  unfold trimEnd. rewrite rev_involutive.
  now rewrite (clean_trimStart _ (trimStart_clean (rev s))).
Qed.

Lemma trim_idem (s : jsstring) : trim (trim s) = trim s.
Proof.
  unfold trim.
  rewrite (clean_trimStart (trimEnd (trimStart s))).
  - apply trimEnd_idem.
  - apply trimEnd_clean, trimStart_clean.
Qed.

Lemma trimStart_padded (pre s : jsstring) :
  Forall (fun c => isWhiteSpace c = true) pre -> clean s ->
  trimStart (pre ++ s) = s.
Proof.
  induction 1 as [|c pre Hc _ IH]; intros Hs; simpl.
  - now apply clean_trimStart.
  - rewrite Hc. now apply IH.
Qed.

Lemma matchClasses_Forall2 (cs : list (N -> bool)) (s : jsstring) :
  matchClasses cs s = true -> Forall2 (fun k c => k c = true) cs s.
Proof.
  revert s; induction cs as [|k cs IH]; intros [|c s] H; simpl in H;
    try discriminate; constructor.
  - now apply andb_true_iff in H.
  - apply IH. now apply andb_true_iff in H.
Qed.

Lemma hex_not_space c : hex c = true -> isWhiteSpace c = false.
Proof.
  unfold hex, digit, isWhiteSpace. intros H.
  repeat (apply orb_true_iff in H as [H|H]);
    apply andb_true_iff in H as [H1 H2];
    apply N.leb_le in H1; apply N.leb_le in H2;
    repeat (apply orb_false_iff; split);
    try (apply andb_false_iff);
    try (apply N.eqb_neq; lia);
    try (left; apply N.leb_gt; lia); try (right; apply N.leb_gt; lia).
Qed.

Lemma matchClasses_app (cs1 cs2 : list (N -> bool)) (s : jsstring) :
  matchClasses (cs1 ++ cs2) s = true ->
  exists s1 s2, s = s1 ++ s2 /\ matchClasses cs1 s1 = true
                /\ matchClasses cs2 s2 = true.
Proof.
  revert s; induction cs1 as [|k cs1 IH]; intros s H.
  - exists [], s. now repeat split.
  - destruct s as [|c s]; simpl in H; [discriminate|].
    apply andb_true_iff in H as [Hk H].
    destruct (IH _ H) as (s1 & s2 & -> & H1 & H2).
    exists (c :: s1), s2. repeat split; simpl; auto.
    now rewrite Hk.
Qed.

(** A string the UUID pattern accepts begins and ends with a hexadecimal
    digit. *)
Lemma uuid_ends (v : jsstring) :
  matchClasses Dal.UUID_RE v = true -> clean v /\ clean (rev v).
Proof.
  intros H. split.
  - destruct v as [|c v]; [exact I|]. simpl in H.
    apply andb_true_iff in H as [H _]. now apply hex_not_space.
  - change Dal.UUID_RE with (removelast Dal.UUID_RE ++ [hex]) in H.
    apply matchClasses_app in H as (s1 & s2 & -> & _ & H2).
    destruct s2 as [|c [|? ?]]; simpl in H2; try discriminate;
      [|rewrite andb_false_r in H2; discriminate].
    rewrite rev_app_distr. simpl.
    apply hex_not_space. now apply andb_true_iff in H2.
Qed.

Lemma trim_padded (pre v post : jsstring) :
  Forall (fun c => isWhiteSpace c = true) pre ->
  Forall (fun c => isWhiteSpace c = true) post ->
  matchClasses Dal.UUID_RE v = true ->
  trim (pre ++ v ++ post) = v.
Proof.
  intros Hpre Hpost Hv. destruct (uuid_ends v Hv) as [Hhead Hlast].
  unfold trim. rewrite trimStart_padded; auto.
  - unfold trimEnd. rewrite rev_app_distr, trimStart_padded; auto.
    + apply rev_involutive.
    + now apply Forall_rev.
  - destruct v; [discriminate|exact Hhead].
Qed.

Lemma trim_uuid (v : jsstring) :
  matchClasses Dal.UUID_RE v = true -> trim v = v.
Proof.
  intros Hv. rewrite <- (trim_padded [] v [] (Forall_nil _) (Forall_nil _) Hv) at 2.
  now rewrite app_nil_r.
Qed.

(** ** The runtime *)

Lemma codePoints_ascii (s : jsstring) :
  Forall (fun c => c < 128) s -> Unicode.codePoints s = s.
Proof.
  induction 1 as [|h tl Hh Htl IH]; [reflexivity|].
  cbn [Unicode.codePoints]. destruct tl as [|l rest]; [reflexivity|].
  assert (E : isHighSurrogate h = false)
    by (unfold isHighSurrogate; apply andb_false_iff; left; apply N.leb_gt; lia).
  rewrite E. cbn [andb]. now rewrite IH.
Qed.

Lemma mapped_ascii (c : N) :
  c < 128 ->
  Unicode.mapped c Unicode.lowerCaseMappings
  = if (65 <=? c) && (c <=? 90) then c + 32 else c.
Proof.
  intros Hc. unfold Unicode.lowerCaseMappings. cbn [Unicode.mapped].
  destruct (c <? 65) eqn:E1.
  - apply N.ltb_lt in E1.
    assert ((65 <=? c) = false) as -> by (apply N.leb_gt; lia). reflexivity.
  - apply N.ltb_ge in E1.
    assert ((65 <=? c) = true) as -> by (apply N.leb_le; lia).
    rewrite N.mod_1_r. cbn [N.eqb andb].
    destruct (c <=? 90) eqn:E2; cbn [andb].
    + lia.
    + assert ((c <? 192) = true) as -> by (apply N.ltb_lt; lia). reflexivity.
Qed.

(** On ASCII text [toLowerCase] lowers the letters A to Z and keeps the
    rest. *)
Lemma toLowerCase_ascii (s : jsstring) :
  Forall (fun c => c < 128) s -> Unicode.toLowerCase s = asciiLower s.
Proof.
  intros Hs. unfold Unicode.toLowerCase. rewrite (codePoints_ascii s Hs).
  generalize false. induction Hs as [|c s Hc Hs IH]; intros b; [reflexivity|].
  cbn [Unicode.lowerFrom asciiLower map].
  assert ((c =? 931) = false) as -> by (apply N.eqb_neq; lia).
  assert ((c =? 304) = false) as -> by (apply N.eqb_neq; lia).
  rewrite (mapped_ascii c Hc), IH.
  unfold Unicode.codeUnits.
  destruct ((65 <=? c) && (c <=? 90)).
  - assert ((c + 32 <? 65536) = true) as -> by (apply N.ltb_lt; lia). reflexivity.
  - assert ((c <? 65536) = true) as -> by (apply N.ltb_lt; lia). reflexivity.
Qed.

(** Beyond ASCII: the Kelvin sign lowers to k, the dotted capital I to i and a
    combining dot, a capital sigma at the end of a word to the final sigma,
    and a letter beyond U+FFFF within its pair of surrogates. *)
Lemma toLowerCase_beyond_ascii :
  Unicode.toLowerCase [78; 69; 84; 87; 79; 82; 8490] = lit "network"
  /\ Unicode.toLowerCase [304] = [105; 775]
  /\ Unicode.toLowerCase [927; 916; 927; 931] = [959; 948; 959; 962]
  /\ Unicode.toLowerCase [931; 913] = [963; 945]
  /\ Unicode.toLowerCase [55297; 56320] = [55297; 56360]
  /\ Unicode.toLowerCase [56320; 65] = [56320; 97].
Proof. repeat split. Qed.

(** What V8 reads as a date. A string off the pattern of the schemas can be
    one, and so can a string on the pattern that names no day of the
    calendar. *)
Lemma v8_date_parses_examples :
  v8_date_parses (lit "2026-01-10") = true
  /\ v8_date_parses (lit "2026-1-1") = true
  /\ v8_date_parses (lit "Jan 10, 2026") = true
  /\ v8_date_parses (lit "2026-01-10T09:30:00Z") = true
  /\ v8_date_parses (lit "2026-02-31") = true
  /\ v8_date_parses (lit "2026-02-32") = false
  /\ v8_date_parses (lit "2026-13-01") = false
  /\ v8_date_parses (lit "0005-13-10") = true
  /\ v8_date_parses (lit "not a date") = false
  /\ v8_date_parses [] = false.
Proof. repeat split. Qed.

(** A date off the pattern that V8 reads raises the issue of the pattern
    alone; one that V8 does not read raises both. *)
Lemma date_issues_off_the_pattern :
  Zod.date node (VString (lit "2026-1-1"))
  = inl [lit "Date must be in YYYY-MM-DD format"]
  /\ Zod.date node (VString (lit "soon"))
     = inl [lit "Date must be in YYYY-MM-DD format"; lit "Invalid date"]
  /\ Zod.date node (VString (lit "2026-13-01")) = inl [lit "Invalid date"]
  /\ Zod.date node (VString (lit "2026-02-31")) = inr (lit "2026-02-31").
Proof. repeat split. Qed.

(** What the DATE column takes of YYYY-MM-DD text: the days of the
    calendar. *)
Lemma postgres_date_in_examples :
  postgres_date_in (lit "2024-02-29") = Accepted (lit "2024-02-29")
  /\ postgres_date_in (lit "2026-02-29")
     = Refused (lit "22008")
               (lit "date/time field value out of range: "
                ++ Engine.quote ++ lit "2026-02-29" ++ Engine.quote)
  /\ postgres_date_in (lit "1900-02-29")
     = Refused (lit "22008")
               (lit "date/time field value out of range: "
                ++ Engine.quote ++ lit "1900-02-29" ++ Engine.quote)
  /\ postgres_date_in (lit "2026-04-31")
     = Refused (lit "22008")
               (lit "date/time field value out of range: "
                ++ Engine.quote ++ lit "2026-04-31" ++ Engine.quote)
  /\ postgres_date_in (lit "0000-01-01")
     = Refused (lit "22008")
               (lit "date/time field value out of range: "
                ++ Engine.quote ++ lit "0000-01-01" ++ Engine.quote).
Proof. repeat split. Qed.

(** A date the DATE column of [node] takes is printed back as it was
    written. *)
Lemma postgres_date_in_prints_back (s d : jsstring) :
  postgres_date_in s = Accepted d -> d = s /\ matchClasses Zod.DATE_RE s = true.
Proof.
  unfold postgres_date_in.
  destruct s as [|y1 [|y2 [|y3 [|y4 [|h1 [|m1 [|m2 [|h2 [|d1 [|d2 [|x s]]]]]]]]]]];
    try discriminate.
  destruct (matchClasses Zod.DATE_RE _) eqn:E; [|discriminate].
  destruct (_ && _); [|discriminate].
  intros [= <-]. now split.
Qed.

(** What the TEXT columns take: not the code unit 0, and surrogates in pairs
    only. *)
Lemma text_fault_examples :
  Engine.text_fault false (lit "Acme") = None
  /\ Engine.text_fault false [65; 55357; 56832] = None
  /\ Engine.text_fault false [65; 0; 66] = Some Engine.untranslatableCharacter
  /\ Engine.text_fault false [65; 55357] = Some Engine.invalidJsonText
  /\ Engine.text_fault false [56832; 65] = Some Engine.invalidJsonText.
Proof. repeat split. Qed.

(** ** The row-level policy *)

Lemma holds_owner (caller : option jsstring) (r : Application.t) :
  Rls.holds caller r (Rls.Eq Rls.auth_uid Rls.user_id) = owns caller r.
Proof.
  destruct caller as [c|]; simpl; [|reflexivity].
  unfold Rls.holds; simpl. now destruct (streq c (Application.user_id r)).
Qed.

Lemma usingOk_owns (cmd : Rls.Command) (caller : option jsstring) (r : Application.t) :
  cmd <> Rls.INSERT -> Rls.usingOk cmd caller r = owns caller r.
Proof.
  intros Hcmd. unfold Rls.usingOk. simpl. rewrite holds_owner.
  destruct cmd; simpl; try congruence; now destruct (owns caller r).
Qed.

Lemma checkOk_owns (cmd : Rls.Command) (caller : option jsstring) (r : Application.t) :
  Rls.checkOk cmd caller r = owns caller r.
Proof.
  unfold Rls.checkOk. simpl. rewrite holds_owner.
  destruct cmd; simpl; now destruct (owns caller r).
Qed.

Lemma owns_iff (caller : option jsstring) (r : Application.t) :
  owns caller r = true <-> caller = Some (Application.user_id r).
Proof.
  destruct caller as [c|]; simpl.
  - rewrite streq_eq. split; [now intros -> | now intros [= ->]].
  - split; discriminate.
Qed.

Lemma targets_owns (cmd : Rls.Command) caller f r :
  cmd <> Rls.INSERT ->
  Engine.targets cmd caller f r = f r && owns caller r.
Proof.
  intros H. unfold Engine.targets.
  rewrite (usingOk_owns cmd), (usingOk_owns Rls.SELECT) by congruence.
  destruct (f r), (owns caller r); reflexivity.
Qed.

Lemma Forall2_same {A} (P : A -> A -> Prop) (l : list A) :
  (forall a, P a a) -> Forall2 P l l.
Proof. intros H; induction l; constructor; auto. Qed.

Lemma Forall2_map_r {A} (P : A -> A -> Prop) (g : A -> A) (l : list A) :
  (forall a, In a l -> P a (g a)) -> Forall2 P l (map g l).
Proof.
  induction l as [|a l IH]; intros H; simpl; constructor.
  - apply H. now left.
  - apply IH. intros b Hb. apply H. now right.
Qed.

(** The rows an update writes are rows of the caller, before and after. *)
Lemma update_writes_owned caller f p t0 t :
  Forall2 (fun old new =>
             new = old \/
             (f old = true /\ owns caller old = true /\ owns caller new = true
              /\ new = Engine.update_updated_at_column t0 (Engine.Patch.apply p old)))
          t (snd (Engine.update caller f p t0 t)).
Proof.
  unfold Engine.update. destruct (Engine.Patch.isEmpty p).
  { apply Forall2_same. now left. }
  match goal with |- context [forallb ?g ?l] => destruct (forallb g l) eqn:Hall end;
    simpl; [|apply Forall2_same; now left].
  apply Forall2_map_r. intros r Hr.
  destruct (Engine.targets Rls.UPDATE caller f r) eqn:Ht; [right|now left].
  rewrite targets_owns in Ht by discriminate.
  apply andb_true_iff in Ht as [Hf Ho]. repeat split; auto.
  rewrite forallb_forall in Hall.
  assert (Hin : In (Engine.update_updated_at_column t0 (Engine.Patch.apply p r))
                   (map (fun r => Engine.update_updated_at_column t0 (Engine.Patch.apply p r))
                        (filter (Engine.targets Rls.UPDATE caller f) t))).
  { apply (in_map (fun r => Engine.update_updated_at_column t0 (Engine.Patch.apply p r))).
    apply filter_In. split; [exact Hr|].
    rewrite targets_owns by discriminate. now rewrite Hf, Ho. }
  apply Hall in Hin. rewrite checkOk_owns in Hin.
  now apply andb_true_iff in Hin.
Qed.

(** An update that leaves the owner column alone reaches every row of the
    caller that the filter keeps. *)
Lemma update_reaches_owned caller f p t0 t :
  Engine.Patch.user_id p = None -> Engine.Patch.isEmpty p = false ->
  Engine.update caller f p t0 t =
    (inr (map (fun r => Engine.update_updated_at_column t0 (Engine.Patch.apply p r))
              (filter (fun r => f r && owns caller r) t)),
     map (fun r => if f r && owns caller r
                   then Engine.update_updated_at_column t0 (Engine.Patch.apply p r)
                   else r) t).
Proof.
  intros Hu Hp. unfold Engine.update. rewrite Hp.
  rewrite (filter_ext _ (fun r => f r && owns caller r))
    by (intros r; apply targets_owns; discriminate).
  match goal with |- context [forallb ?g ?l] => assert (Hall : forallb g l = true) end.
  { apply forallb_forall. intros r' Hr'.
    apply in_map_iff in Hr' as (r & <- & Hr). apply filter_In in Hr as [_ Hr].
    apply andb_true_iff in Hr as [_ Ho].
    rewrite checkOk_owns, usingOk_owns by discriminate.
    assert (owns caller (Engine.update_updated_at_column t0 (Engine.Patch.apply p r))
            = owns caller r) as ->.
    { unfold owns. simpl. now rewrite Hu. }
    now rewrite Ho. }
  rewrite Hall. f_equal. apply map_ext. intros r.
  now rewrite targets_owns by discriminate.
Qed.

(** C3: with row-level security enabled, the policies of the applications
    table admit a row for SELECT, for INSERT, for UPDATE (to reach it and to
    commit its new version) and for DELETE exactly when the row's user_id is
    the caller's verified identity (a caller without identity is admitted
    nowhere). Hence, whatever filter the application supplies, a SELECT
    returns exactly the caller's rows that the filter keeps, an INSERT stores
    a row only when the caller owns it, an UPDATE changes only rows the caller
    owns before and after and reaches all of them, and a DELETE removes
    exactly the caller's rows that the filter keeps. *)
Theorem row_policy_is_ownership (caller : option jsstring) :
  (forall r, Rls.usingOk Rls.SELECT caller r = true
             <-> caller = Some (Application.user_id r))
  /\ (forall r, Rls.checkOk Rls.INSERT caller r = true
                <-> caller = Some (Application.user_id r))
  /\ (forall r, Rls.usingOk Rls.UPDATE caller r = true
                <-> caller = Some (Application.user_id r))
  /\ (forall r, Rls.checkOk Rls.UPDATE caller r = true
                <-> caller = Some (Application.user_id r))
  /\ (forall r, Rls.usingOk Rls.DELETE caller r = true
                <-> caller = Some (Application.user_id r))
  /\ (forall f t, Engine.select caller f t
                  = filter (fun r => f r && owns caller r) t)
  /\ (forall row t,
        snd (Engine.insert caller row t) =
          if owns caller row
             && negb (existsb (fun r => streq (Application.id r) (Application.id row)) t)
          then t ++ [row] else t)
  /\ (forall f p t0 t,
        Forall2 (fun old new =>
                   new = old \/
                   (f old = true /\ owns caller old = true /\ owns caller new = true
                    /\ new = Engine.update_updated_at_column t0 (Engine.Patch.apply p old)))
                t (snd (Engine.update caller f p t0 t)))
  /\ (forall f p t0 t,
        Engine.Patch.user_id p = None -> Engine.Patch.isEmpty p = false ->
        snd (Engine.update caller f p t0 t) =
          map (fun r => if f r && owns caller r
                        then Engine.update_updated_at_column t0 (Engine.Patch.apply p r)
                        else r) t)
  /\ (forall f t,
        Engine.delete caller f t =
          (filter (fun r => f r && owns caller r) t,
           filter (fun r => negb (f r && owns caller r)) t)).
Proof.
  repeat split; intros.
  1-10: try (rewrite ?usingOk_owns, ?checkOk_owns in * by discriminate;
             now apply owns_iff).
  - unfold Engine.select. apply filter_ext. intros r.
    now rewrite usingOk_owns by discriminate.
  - unfold Engine.insert.
    rewrite checkOk_owns, usingOk_owns by discriminate.
    destruct (owns caller row); simpl; [|reflexivity].
    now destruct (existsb _ t).
  - apply update_writes_owned.
  - now rewrite update_reaches_owned.
  - unfold Engine.delete. f_equal; apply filter_ext; intros r;
      now rewrite targets_owns by discriminate.
Qed.

(** ** The data-access layer *)

Ltac enter :=
  unfold Dal.getApplications, Dal.getApplicationById, Dal.createApplication,
    Dal.updateApplication, Dal.deleteApplication, DalReadOnly.getApplications,
    Dal.unauthenticated, try_catch, bind, lift, ret.

Ltac signed_out H :=
  let a := fresh "a" in
  let Hget := fresh "Hget" in
  let Hno := fresh "Hno" in
  destruct H as (a & Hget & Hno); enter; rewrite Hget;
  destruct (authError a), (user a); try reflexivity;
  destruct Hno; congruence.

(** C4: when the session resolves to no identity (getUser reports an error or
    no user), each of getApplications, getApplicationById, createApplication,
    updateApplication and deleteApplication returns the failure
    'User not authenticated' and leaves the world as it was: no query is
    sent, the table is unchanged and nothing is logged. *)
Theorem unauthenticated_calls_touch_nothing (rt : Runtime) (env : Env) (w : World) :
  signedOut env ->
  Dal.getApplications rt env w
    = (Returns (Failure (lit "User not authenticated")), w)
  /\ (forall id, Dal.getApplicationById rt env id w
                 = (Returns (Failure (lit "User not authenticated")), w))
  /\ (forall data, Dal.createApplication rt env data w
                   = (Returns (Failure (lit "User not authenticated")), w))
  /\ (forall id data, Dal.updateApplication rt env id data w
                      = (Returns (Failure (lit "User not authenticated")), w))
  /\ (forall id, Dal.deleteApplication rt env id w
                 = (Returns (Failure (lit "User not authenticated")), w))
  /\ DalReadOnly.getApplications rt env w
     = (Returns (Failure (lit "User not authenticated")), w).
Proof.
  intros H. repeat split; intros; signed_out H.
Qed.

Lemma unauthenticated_calls_touch_nothing_witness :
  Dal.deleteApplication node Fixture.expired Fixture.acmeId Fixture.withAcme
  = (Returns (Failure (lit "User not authenticated")), Fixture.withAcme).
Proof.
  apply (unauthenticated_calls_touch_nothing node Fixture.expired Fixture.withAcme).
  exists {| user := None; authError := Some (lit "Auth session missing!") |}.
  split; [reflexivity | left; discriminate].
Defined.

(** When creating the client or resolving the session throws, the catch
    clause answers with the function's own message; again no query is sent
    and the table is unchanged. *)
Lemma thrown_session_sends_no_query (rt : Runtime) (env : Env) (w : World) e :
  getUser env = Throws e ->
  (forall id,
     fst (Dal.getApplicationById rt env id w)
     = Returns (Failure (lit "An unexpected error occurred while fetching the application"))
     /\ table (snd (Dal.getApplicationById rt env id w)) = table w
     /\ requests (snd (Dal.getApplicationById rt env id w)) = requests w)
  /\ (forall data,
        fst (Dal.createApplication rt env data w)
        = Returns (Failure (lit "An unexpected error occurred while creating the application"))
        /\ table (snd (Dal.createApplication rt env data w)) = table w
        /\ requests (snd (Dal.createApplication rt env data w)) = requests w)
  /\ (forall id data,
        fst (Dal.updateApplication rt env id data w)
        = Returns (Failure (lit "An unexpected error occurred while updating the application"))
        /\ table (snd (Dal.updateApplication rt env id data w)) = table w
        /\ requests (snd (Dal.updateApplication rt env id data w)) = requests w)
  /\ (forall id,
        fst (Dal.deleteApplication rt env id w)
        = Returns (Failure (lit "An unexpected error occurred while deleting the application"))
        /\ table (snd (Dal.deleteApplication rt env id w)) = table w
        /\ requests (snd (Dal.deleteApplication rt env id w)) = requests w).
Proof.
  intros H. repeat split; enter; rewrite H; reflexivity.
Qed.

Ltac signed_in H :=
  enter; rewrite H; cbn [authError user].

(** C10: under a session, an id whose trimmed form the UUID pattern rejects
    makes getApplicationById, updateApplication and deleteApplication return
    'Invalid application ID' with the world unchanged, so that no query is
    sent; each of the three treats an id exactly as its trimmed form, and a
    valid id surrounded by whitespace exactly as the valid id. *)
Theorem malformed_id_sends_no_query (rt : Runtime) (env : Env) (u : User.t) (w : World) :
  signedIn env u ->
  (forall id, matchClasses Dal.UUID_RE (trim id) = false ->
     Dal.getApplicationById rt env id w
       = (Returns (Failure (lit "Invalid application ID")), w)
     /\ (forall data, Dal.updateApplication rt env id data w
                      = (Returns (Failure (lit "Invalid application ID")), w))
     /\ Dal.deleteApplication rt env id w
        = (Returns (Failure (lit "Invalid application ID")), w))
  /\ (forall id,
        Dal.getApplicationById rt env id w = Dal.getApplicationById rt env (trim id) w
        /\ (forall data, Dal.updateApplication rt env id data w
                         = Dal.updateApplication rt env (trim id) data w)
        /\ Dal.deleteApplication rt env id w = Dal.deleteApplication rt env (trim id) w)
  /\ (forall pre v post,
        Forall (fun c => isWhiteSpace c = true) pre ->
        Forall (fun c => isWhiteSpace c = true) post ->
        matchClasses Dal.UUID_RE v = true ->
        Dal.getApplicationById rt env (pre ++ v ++ post) w
          = Dal.getApplicationById rt env v w
        /\ (forall data, Dal.updateApplication rt env (pre ++ v ++ post) data w
                         = Dal.updateApplication rt env v data w)
        /\ Dal.deleteApplication rt env (pre ++ v ++ post) w
           = Dal.deleteApplication rt env v w).
Proof.
  intros H. split; [|split].
  - intros id Hbad.
    assert (Hinv : Dal.invalidId (trim id) = true).
    { unfold Dal.invalidId. rewrite Hbad. apply orb_true_r. }
    repeat split; intros; signed_in H; now rewrite Hinv.
  - intros id. repeat split; intros; enter; now rewrite trim_idem.
  - intros pre v post Hpre Hpost Hv.
    repeat split; intros; enter;
      now rewrite (trim_padded pre v post Hpre Hpost Hv), (trim_uuid v Hv).
Qed.

Lemma malformed_id_sends_no_query_witness :
  Dal.deleteApplication node (Fixture.callBy Fixture.alice 20)
    (lit " aaaaaaaa-aaaa-4aaa-8aaa-aaaaaaaaaaa ") Fixture.withAcme
  = (Returns (Failure (lit "Invalid application ID")), Fixture.withAcme).
Proof.
  apply (malformed_id_sends_no_query node (Fixture.callBy Fixture.alice 20)
           Fixture.alice Fixture.withAcme); reflexivity.
Defined.

Lemma auth_uid_signedIn env u : signedIn env u -> auth_uid env = Some (User.id u).
Proof. unfold signedIn, auth_uid. now intros ->. Qed.

Lemma grownFor_same u t : grownFor u t t.
Proof. now left. Qed.

(** What the columns change in a record they take: the date, to the way the
    engine prints it. *)
Lemma record_in_taken rt v v' :
  Engine.record_in rt v = inr v' ->
  Engine.first_fault ([Engine.NewRow.company_name v; Engine.NewRow.position_title v;
                       Engine.NewRow.application_date v]
                      ++ Engine.maybe (Engine.NewRow.notes v)) = None
  /\ date_in rt (Engine.NewRow.application_date v)
     = Accepted (Engine.NewRow.application_date v')
  /\ Engine.NewRow.user_id v' = Engine.NewRow.user_id v
  /\ Engine.NewRow.company_name v' = Engine.NewRow.company_name v
  /\ Engine.NewRow.position_title v' = Engine.NewRow.position_title v
  /\ Engine.NewRow.status v' = Engine.NewRow.status v
  /\ Engine.NewRow.notes v' = Engine.NewRow.notes v.
Proof.
  unfold Engine.record_in.
  destruct (Engine.first_fault _); [discriminate|].
  destruct (date_in rt _); [|discriminate].
  intros [= <-]. repeat split.
Qed.

Lemma record_in_asSent rt u data :
  storedAsSent rt data ->
  Engine.record_in rt (insertedValues u data) = inr (insertedValues u data).
Proof.
  intros [Htext Hdate]. unfold Engine.record_in, insertedValues.
  cbn [Engine.NewRow.company_name Engine.NewRow.position_title
       Engine.NewRow.application_date Engine.NewRow.notes
       Engine.NewRow.user_id Engine.NewRow.status].
  now rewrite Htext, Hdate.
Qed.

(** The patch of an UPDATE the columns take sets the columns that were sent,
    with the values that were sent but for the date. *)
Lemma patch_in_taken rt p p' :
  Engine.patch_in rt p = inr p' ->
  Engine.Patch.user_id p' = Engine.Patch.user_id p
  /\ Engine.Patch.company_name p' = Engine.Patch.company_name p
  /\ Engine.Patch.position_title p' = Engine.Patch.position_title p
  /\ Engine.Patch.status p' = Engine.Patch.status p
  /\ Engine.Patch.notes p' = Engine.Patch.notes p
  /\ match Engine.Patch.application_date p with
     | Some text => exists d, date_in rt text = Accepted d
                              /\ Engine.Patch.application_date p' = Some d
     | None => Engine.Patch.application_date p' = None
     end.
Proof.
  unfold Engine.patch_in.
  destruct (Engine.first_fault _); [discriminate|].
  destruct (Engine.Patch.application_date p) as [text|] eqn:E.
  - destruct (date_in rt text) as [d|c m] eqn:Ed; [|discriminate].
    intros [= <-]. repeat split. now exists d.
  - intros [= <-]. now repeat split.
Qed.

Lemma patch_in_isEmpty rt p p' :
  Engine.patch_in rt p = inr p' ->
  Engine.Patch.isEmpty p' = Engine.Patch.isEmpty p.
Proof.
  intros H. apply patch_in_taken in H as (Hu & Hc & Hp & Hs & Hn & Hd).
  unfold Engine.Patch.isEmpty. rewrite Hu, Hc, Hp, Hs, Hn.
  destruct (Engine.Patch.application_date p) as [text|].
  - destruct Hd as (d & _ & ->).
    now destruct (Engine.Patch.user_id p), (Engine.Patch.company_name p),
      (Engine.Patch.position_title p).
  - now rewrite Hd.
Qed.

(** An update that sets no column has nothing for the columns to refuse. *)
Lemma patch_in_empty rt p :
  Engine.Patch.isEmpty p = true -> Engine.patch_in rt p = inr p.
Proof.
  unfold Engine.Patch.isEmpty, Engine.patch_in.
  destruct (Engine.Patch.user_id p), (Engine.Patch.company_name p),
    (Engine.Patch.position_title p), (Engine.Patch.application_date p),
    (Engine.Patch.status p), (Engine.Patch.notes p); try discriminate.
  reflexivity.
Qed.

(** Every create under [u] leaves the table as it was or adds one row of
    [u]; a create that succeeds has added the row it returns, and never
    returns null. *)
Lemma createApplication_grows rt env u w data res w' :
  signedIn env u ->
  Dal.createApplication rt env data w = (res, w') ->
  grownFor u (table w) (table w')
  /\ (forall created, res = Returns (Success created) ->
        exists row, created = Some row
                    /\ Application.user_id row = User.id u
                    /\ table w' = table w ++ [row]).
Proof.
  intros H. signed_in H.
  unfold Client.insertSelectSingle, send.
  rewrite (auth_uid_signedIn env u H).
  destruct (fault env) as [[e|]|e]; cbn.
  1,3: intros [= <- <-]; split; [apply grownFor_same | discriminate].
  destruct (Engine.record_in rt _) as [e|v'] eqn:Ev; cbn.
  { intros [= <- <-]; split; [apply grownFor_same | discriminate]. }
  apply record_in_taken in Ev as (_ & _ & Hu & _).
  cbn [Engine.NewRow.user_id] in Hu.
  unfold Engine.insert.
  rewrite checkOk_owns, usingOk_owns by discriminate.
  cbn [owns Engine.newRow Application.user_id].
  rewrite Hu, streq_refl. cbn [negb].
  destruct (existsb _ (table w)); cbn.
  - intros [= <- <-]; split; [apply grownFor_same | discriminate].
  - intros [= <- <-]; split.
    + right. eexists. split; [reflexivity|exact Hu].
    + intros created [= <-]. eexists. split; [reflexivity|].
      split; [exact Hu|reflexivity].
Qed.

Arguments Dal.createApplication : simpl never.
Arguments Dal.updateApplication : simpl never.
Arguments Dal.deleteApplication : simpl never.

Lemma existsb_id_absent (v : jsstring) (t : list Application.t) :
  ~ In v (map Application.id t) ->
  existsb (fun r => streq (Application.id r) v) t = false.
Proof.
  intros H. destruct (existsb _ t) eqn:E; [|reflexivity].
  apply existsb_exists in E as (r & Hr & Hs). apply streq_eq in Hs.
  exfalso. apply H. rewrite <- Hs. now apply in_map.
Qed.

Lemma owns_self (u : User.t) (r : Application.t) :
  Application.user_id r = User.id u -> owns (Some (User.id u)) r = true.
Proof. intros H. simpl. rewrite H. apply streq_refl. Qed.

(** A create under [u] that the engine answers, with an id it has not used
    and values the columns take as sent, stores the row built from the
    input and returns it. *)
Lemma createApplication_stores rt env u w data :
  signedIn env u -> fault env = Returns None ->
  ~ In (gen_random_uuid env) (map Application.id (table w)) ->
  storedAsSent rt data ->
  Dal.createApplication rt env data w
  = (Returns (Success (Some (createdRow env u data))),
     {| table := table w ++ [createdRow env u data];
        requests := requests w ++ [Insert (insertedValues u data)];
        console := console w |}).
Proof.
  intros H Hf Hfresh Hsent. signed_in H.
  unfold Client.insertSelectSingle, send.
  rewrite (auth_uid_signedIn env u H), Hf.
  fold (insertedValues u data). rewrite (record_in_asSent rt u data Hsent).
  unfold Engine.insert.
  rewrite checkOk_owns, usingOk_owns by discriminate.
  rewrite (owns_self u) by reflexivity.
  cbn [Engine.newRow Application.id].
  rewrite (existsb_id_absent _ _ Hfresh).
  reflexivity.
Qed.

Lemma orNull_coalesced (n : Nullish jsstring) :
  orNull (match orNull n with Some s => value s | None => null end) = orNull n.
Proof. now destruct n. Qed.

(** The data the POST route hands to createApplication: the validated data
    with [notes ?? null]. *)
Lemma POST_data (P : CreateData.t -> Prop) (validatedData : CreateData.t) :
  (forall d, CreateData.company_name d = CreateData.company_name validatedData ->
             CreateData.position_title d = CreateData.position_title validatedData ->
             CreateData.application_date d = CreateData.application_date validatedData ->
             CreateData.status d = CreateData.status validatedData ->
             orNull (CreateData.notes d) = orNull (CreateData.notes validatedData) ->
             P d) ->
  P {| CreateData.company_name := CreateData.company_name validatedData;
       CreateData.position_title := CreateData.position_title validatedData;
       CreateData.application_date := CreateData.application_date validatedData;
       CreateData.status := CreateData.status validatedData;
       CreateData.notes :=
         match orNull (CreateData.notes validatedData) with
         | Some s => value s
         | None => null
         end |}.
Proof. intros HP. apply HP; try reflexivity. apply orNull_coalesced. Qed.

Lemma createdRow_same env u d d' :
  CreateData.company_name d = CreateData.company_name d' ->
  CreateData.position_title d = CreateData.position_title d' ->
  CreateData.application_date d = CreateData.application_date d' ->
  CreateData.status d = CreateData.status d' ->
  orNull (CreateData.notes d) = orNull (CreateData.notes d') ->
  createdRow env u d = createdRow env u d'.
Proof.
  intros Hc Hp Hd Hs Hn. unfold createdRow, insertedValues.
  now rewrite Hc, Hp, Hd, Hs, Hn.
Qed.

Lemma storedAsSent_same rt d d' :
  CreateData.company_name d = CreateData.company_name d' ->
  CreateData.position_title d = CreateData.position_title d' ->
  CreateData.application_date d = CreateData.application_date d' ->
  orNull (CreateData.notes d) = orNull (CreateData.notes d') ->
  storedAsSent rt d' -> storedAsSent rt d.
Proof.
  intros Hc Hp Hd Hn. unfold storedAsSent. now rewrite Hc, Hp, Hd, Hn.
Qed.

(** What the POST route does with a create that comes back. *)
Lemma POST_run rt env u w request :
  signedIn env u ->
  Api.POST rt env request w
  = match Api.NextRequest.json request with
    | None => (Returns {| Api.body := Api.ErrorBody (lit "Invalid JSON");
                          Api.status := 400 |}, w)
    | Some body =>
        match Zod.parseBody (Zod.createApplicationSchema rt) body with
        | Zod.ZodError details =>
            (Returns {| Api.body := Api.ValidationBody (lit "Validation failed") details;
                        Api.status := 400 |}, w)
        | Zod.ParseOk validatedData =>
            let data :=
              {| CreateData.company_name := CreateData.company_name validatedData;
                 CreateData.position_title := CreateData.position_title validatedData;
                 CreateData.application_date := CreateData.application_date validatedData;
                 CreateData.status := CreateData.status validatedData;
                 CreateData.notes :=
                   match orNull (CreateData.notes validatedData) with
                   | Some s => value s
                   | None => null
                   end |} in
            match Dal.createApplication rt env data w with
            | (Returns (Success created), w') =>
                (Returns {| Api.body := Api.DataBody created; Api.status := 201 |}, w')
            | (Returns (Failure error), w') =>
                (Returns {| Api.body := Api.ErrorBody error; Api.status := 500 |}, w')
            | (Throws error, w') =>
                (Returns {| Api.body := Api.ErrorBody (lit "Internal server error");
                            Api.status := 500 |},
                 {| table := table w'; requests := requests w';
                    console := console w'
                               ++ [(lit "Unexpected error in POST /api/applications:",
                                    error)] |})
            end
        end
    end.
Proof.
  intros H. unfold Api.POST, Api.invalidJson, Api.validationFailed, Api.respond,
    try_catch, bind, lift, ret, console_error.
  rewrite H. cbn [authError user].
  destruct (Api.NextRequest.json request) as [body|]; [|reflexivity].
  destruct (Zod.parseBody _ body) as [validatedData|details]; [|reflexivity].
  cbv zeta.
  now destruct (Dal.createApplication rt env _ w) as [[[created|error]|error] w'].
Qed.

Lemma POST_grows rt env u w request :
  signedIn env u ->
  grownFor u (table w) (table (snd (Api.POST rt env request w)))
  /\ (forall response,
        fst (Api.POST rt env request w) = Returns response ->
        Api.status response = 201 ->
        exists row, Api.body response = Api.DataBody (Some row)
                    /\ Application.user_id row = User.id u
                    /\ table (snd (Api.POST rt env request w)) = table w ++ [row]).
Proof.
  intros H. rewrite (POST_run rt env u w request H).
  destruct (Api.NextRequest.json request) as [body|];
    [|split; [apply grownFor_same | intros response [= <-]; discriminate]].
  destruct (Zod.parseBody _ body) as [validatedData|details];
    [|split; [apply grownFor_same | intros response [= <-]; discriminate]].
  cbv zeta.
  match goal with |- context [Dal.createApplication rt env ?d w] =>
    destruct (Dal.createApplication rt env d w) as [o w1] eqn:E end.
  apply (createApplication_grows _ _ u) in E as [Hg Hs]; [|exact H].
  destruct o as [[created|error]|error]; cbn [fst snd table].
  - split; [exact Hg|]. intros response [= <-] _.
    destruct (Hs created eq_refl) as (row & -> & Hu & Ht). now exists row.
  - split; [exact Hg|]. intros response [= <-]; discriminate.
  - split; [exact Hg|]. intros response [= <-]; discriminate.
Qed.

Lemma POST_stores rt env u w body validatedData :
  signedIn env u -> fault env = Returns None ->
  ~ In (gen_random_uuid env) (map Application.id (table w)) ->
  Zod.parseBody (Zod.createApplicationSchema rt) body = Zod.ParseOk validatedData ->
  storedAsSent rt validatedData ->
  Api.POST rt env {| Api.NextRequest.json := Some body |} w
  = (Returns {| Api.body := Api.DataBody (Some (createdRow env u validatedData));
                Api.status := 201 |},
     {| table := table w ++ [createdRow env u validatedData];
        requests := requests w ++ [Insert (insertedValues u validatedData)];
        console := console w |}).
Proof.
  intros H Hf Hfresh Hparse Hsent. rewrite (POST_run rt env u w _ H).
  cbn [Api.NextRequest.json]. rewrite Hparse. cbv zeta.
  apply (POST_data (fun d =>
    match Dal.createApplication rt env d w with
    | (Returns (Success created), w') =>
        (Returns {| Api.body := Api.DataBody created; Api.status := 201 |}, w')
    | (Returns (Failure error), w') =>
        (Returns {| Api.body := Api.ErrorBody error; Api.status := 500 |}, w')
    | (Throws error, w') =>
        (Returns {| Api.body := Api.ErrorBody (lit "Internal server error");
                    Api.status := 500 |},
         {| table := table w'; requests := requests w';
            console := console w'
                       ++ [(lit "Unexpected error in POST /api/applications:", error)] |})
    end = _)).
  intros d Hc Hp Hd Hs Hn.
  rewrite (createApplication_stores rt env u w d H Hf Hfresh
             (storedAsSent_same rt d validatedData Hc Hp Hd Hn Hsent)).
  rewrite (createdRow_same env u d validatedData Hc Hp Hd Hs Hn).
  unfold insertedValues. now rewrite Hc, Hp, Hd, Hs, Hn.
Qed.

Lemma createApplicationAction_run rt env u w formData :
  signedIn env u ->
  Api.createApplicationAction rt env formData w
  = match Zod.createApplicationSchema rt (Api.rawData formData) with
    | Zod.ZodError issues =>
        (Returns (Api.ActionFailure
                    match issues with
                    | i :: _ => if truthy (Zod.message i) then Zod.message i
                                else lit "Validation failed"
                    | [] => lit "Validation failed"
                    end), w)
    | Zod.ParseOk data =>
        match Dal.createApplication rt env data w with
        | (Returns (Success _), w') => (Returns (Api.Redirect (lit "/dashboard")), w')
        | (Returns (Failure error), w') => (Returns (Api.ActionFailure error), w')
        | (Throws error, w') => (Throws error, w')
        end
    end.
Proof.
  intros H. unfold Api.createApplicationAction, bind, lift, ret.
  rewrite H. cbn [authError user].
  destruct (Zod.createApplicationSchema rt _) as [data|issues]; [|reflexivity].
  now destruct (Dal.createApplication rt env data w) as [[[created|error]|error] w'].
Qed.

Lemma createApplicationAction_grows rt env u w formData :
  signedIn env u ->
  grownFor u (table w) (table (snd (Api.createApplicationAction rt env formData w)))
  /\ (forall path,
        fst (Api.createApplicationAction rt env formData w)
        = Returns (Api.Redirect path) ->
        exists row, Application.user_id row = User.id u
                    /\ table (snd (Api.createApplicationAction rt env formData w))
                       = table w ++ [row]).
Proof.
  intros H. rewrite (createApplicationAction_run rt env u w formData H).
  destruct (Zod.createApplicationSchema rt _) as [data|issues];
    [|split; [apply grownFor_same | discriminate]].
  destruct (Dal.createApplication rt env data w) as [o w1] eqn:E.
  apply (createApplication_grows _ _ u) in E as [Hg Hs]; [|exact H].
  destruct o as [[created|error]|error]; cbn [fst snd table];
    (split; [exact Hg|]); try discriminate.
  intros path _. destruct (Hs created eq_refl) as (row & _ & Hu & Ht).
  now exists row.
Qed.

Lemma createApplicationSchema_sameFields rt get1 get2 :
  sameFields get1 get2 ->
  Zod.createApplicationSchema rt get1 = Zod.createApplicationSchema rt get2.
Proof.
  unfold sameFields, schemaKeys, Zod.createApplicationSchema. intros H.
  repeat (apply Forall_cons_iff in H as [E H]; rewrite E; clear E).
  reflexivity.
Qed.

Lemma updateApplicationSchema_sameFields rt get1 get2 :
  sameFields get1 get2 ->
  Zod.updateApplicationSchema rt get1 = Zod.updateApplicationSchema rt get2.
Proof.
  unfold sameFields, schemaKeys, Zod.updateApplicationSchema. intros H.
  repeat (apply Forall_cons_iff in H as [E H]; rewrite E; clear E).
  reflexivity.
Qed.

(** A member under a key the schemas do not name changes none of the
    properties they read. *)
Lemma extra_member_sameFields k v members :
  existsb (streq k) schemaKeys = false ->
  sameFields (prop ((k, v) :: members)) (prop members).
Proof.
  intros Hk. unfold sameFields. apply Forall_forall. intros key Hkey.
  unfold prop. simpl.
  destruct (streq key k) eqn:E; [|reflexivity].
  apply streq_eq in E. subst key.
  assert (existsb (streq k) schemaKeys = true); [|congruence].
  apply existsb_exists. exists k. split; [exact Hkey | apply streq_refl].
Qed.

Lemma rawData_sameFields formData1 formData2 :
  sameFields (Api.get formData1) (Api.get formData2) ->
  sameFields (Api.rawData formData1) (Api.rawData formData2).
Proof.
  unfold sameFields, schemaKeys. intros H.
  repeat (apply Forall_cons_iff in H as [? H]).
  repeat constructor; unfold Api.rawData; cbn; assumption.
Qed.

(** C1: under a session that resolves to user u, every call of
    createApplication, of the POST route and of the server action leaves the
    table as it was or adds exactly one row, whose user_id is u's id; a call
    that reports success (a successful result, status 201, the redirect) has
    added such a row, and createApplication and the route return that row,
    never null. When the engine answers with an id it has not used and the
    columns take the values as sent, the call does succeed: the record built
    from the input, with u as owner, is stored and returned. The input of
    createApplication has no owner field, and two bodies or forms that agree
    on the five fields the schema names, whatever other members (user_id,
    owner, id, ...) they carry, get the same response and leave the same
    world behind, through the POST route and through the action. *)
Theorem stored_owner_is_session_user (rt : Runtime) (env : Env) (u : User.t) (w : World) :
  signedIn env u ->
  (forall data,
     grownFor u (table w) (table (snd (Dal.createApplication rt env data w)))
     /\ forall created,
          fst (Dal.createApplication rt env data w) = Returns (Success created) ->
          exists row, created = Some row
                      /\ Application.user_id row = User.id u
                      /\ table (snd (Dal.createApplication rt env data w))
                         = table w ++ [row])
  /\ (forall request,
        grownFor u (table w) (table (snd (Api.POST rt env request w)))
        /\ forall response,
             fst (Api.POST rt env request w) = Returns response ->
             Api.status response = 201 ->
             exists row, Api.body response = Api.DataBody (Some row)
                         /\ Application.user_id row = User.id u
                         /\ table (snd (Api.POST rt env request w)) = table w ++ [row])
  /\ (forall formData,
        grownFor u (table w)
                 (table (snd (Api.createApplicationAction rt env formData w)))
        /\ forall path,
             fst (Api.createApplicationAction rt env formData w)
             = Returns (Api.Redirect path) ->
             exists row, Application.user_id row = User.id u
                         /\ table (snd (Api.createApplicationAction rt env formData w))
                            = table w ++ [row])
  /\ (fault env = Returns None ->
      ~ In (gen_random_uuid env) (map Application.id (table w)) ->
      (forall data,
         storedAsSent rt data ->
         fst (Dal.createApplication rt env data w)
         = Returns (Success (Some (createdRow env u data)))
         /\ table (snd (Dal.createApplication rt env data w))
            = table w ++ [createdRow env u data]
         /\ Application.user_id (createdRow env u data) = User.id u)
      /\ (forall members validatedData,
            Zod.createApplicationSchema rt (prop members) = Zod.ParseOk validatedData ->
            storedAsSent rt validatedData ->
            fst (Api.POST rt env {| Api.NextRequest.json := Some (JObject members) |} w)
            = Returns {| Api.body := Api.DataBody (Some (createdRow env u validatedData));
                         Api.status := 201 |}
            /\ table (snd (Api.POST rt env
                             {| Api.NextRequest.json := Some (JObject members) |} w))
               = table w ++ [createdRow env u validatedData])
      /\ (forall formData validatedData,
            Zod.createApplicationSchema rt (Api.rawData formData)
            = Zod.ParseOk validatedData ->
            storedAsSent rt validatedData ->
            fst (Api.createApplicationAction rt env formData w)
            = Returns (Api.Redirect (lit "/dashboard"))
            /\ table (snd (Api.createApplicationAction rt env formData w))
               = table w ++ [createdRow env u validatedData]))
  /\ (forall members1 members2,
        sameFields (prop members1) (prop members2) ->
        Api.POST rt env {| Api.NextRequest.json := Some (JObject members1) |} w
        = Api.POST rt env {| Api.NextRequest.json := Some (JObject members2) |} w)
  /\ (forall formData1 formData2,
        sameFields (Api.get formData1) (Api.get formData2) ->
        Api.createApplicationAction rt env formData1 w
        = Api.createApplicationAction rt env formData2 w).
Proof.
  intros H. split; [|split; [|split; [|split; [|split]]]].
  - intros data.
    destruct (Dal.createApplication rt env data w) as [res w'] eqn:E.
    now apply (createApplication_grows _ _ u) in E.
  - intros request. now apply POST_grows.
  - intros formData. now apply createApplicationAction_grows.
  - intros Hf Hfresh. split; [|split].
    + intros data Hsent.
      rewrite (createApplication_stores rt env u w data H Hf Hfresh Hsent).
      repeat split.
    + intros members validatedData Hparse Hsent.
      rewrite (POST_stores rt env u w (JObject members) validatedData
                 H Hf Hfresh Hparse Hsent).
      split; reflexivity.
    + intros formData validatedData Hparse Hsent.
      rewrite (createApplicationAction_run rt env u w formData H), Hparse.
      rewrite (createApplication_stores rt env u w validatedData H Hf Hfresh Hsent).
      split; reflexivity.
  - intros members1 members2 Hsame. unfold Api.POST.
    cbn [Api.NextRequest.json Zod.parseBody].
    now rewrite (createApplicationSchema_sameFields rt _ _ Hsame).
  - intros formData1 formData2 Hsame. unfold Api.createApplicationAction.
    now rewrite (createApplicationSchema_sameFields rt _ _
                   (rawData_sameFields formData1 formData2 Hsame)).
Qed.

(** A POST by Alice whose body names Bob as owner stores Alice's record and
    returns it. *)
Lemma stored_owner_is_session_user_witness :
  fst (Api.POST node (Fixture.callBy Fixture.alice 20)
         (Fixture.object [("user_id", JString (User.id Fixture.bob));
                          ("company_name", Fixture.text "Initech");
                          ("position_title", Fixture.text "Analyst");
                          ("application_date", Fixture.text "2026-02-01");
                          ("status", Fixture.text "applied")]%string) Fixture.withAcme)
  = Returns {| Api.body :=
                 Api.DataBody
                   (Some {| Application.id := lit "bbbbbbbb-bbbb-4bbb-8bbb-bbbbbbbbbbbb";
                            Application.user_id := User.id Fixture.alice;
                            Application.company_name := lit "Initech";
                            Application.position_title := lit "Analyst";
                            Application.status := applied;
                            Application.application_date := lit "2026-02-01";
                            Application.notes := None;
                            Application.created_at := 20;
                            Application.updated_at := 20 |});
               Api.status := 201 |}.
Proof.
  destruct (stored_owner_is_session_user node (Fixture.callBy Fixture.alice 20)
              Fixture.alice Fixture.withAcme eq_refl) as (_ & _ & _ & Hstore & _).
  destruct Hstore as (_ & Hpost & _).
  - reflexivity.
  - intros Hin. vm_compute in Hin.
    repeat (destruct Hin as [Hin|Hin]; [discriminate Hin|]). exact Hin.
  - apply (Hpost _ {| CreateData.company_name := lit "Initech";
                      CreateData.position_title := lit "Analyst";
                      CreateData.application_date := lit "2026-02-01";
                      CreateData.status := applied;
                      CreateData.notes := undefined |}).
    + reflexivity.
    + split; reflexivity.
Defined.

(** C8: under a session, a PATCH whose parsed body has no keys is answered
    with 'No fields to update' and status 400, and the world is as it was:
    the body was not validated (bodies the schema would refuse get the same
    answer) and no query was sent. *)
Theorem patch_without_fields_is_refused
  (rt : Runtime) (env : Env) (u : User.t) (w : World) (id : jsstring) (rawBody : json) :
  signedIn env u ->
  id <> [] ->
  Object_keys_length rawBody = Some 0%nat ->
  Api.PATCH rt env {| Api.NextRequest.json := Some rawBody |} id w
  = (Returns {| Api.body := Api.ErrorBody (lit "No fields to update");
                Api.status := 400 |}, w).
Proof.
  intros H Hid Hkeys. unfold Api.PATCH, try_catch, bind, lift, ret, Api.respond.
  rewrite H. cbn [authError user Api.NextRequest.json].
  destruct id as [|c id]; [congruence|]. cbn [truthy negb].
  now rewrite Hkeys.
Qed.

Lemma patch_without_fields_is_refused_witness :
  Api.PATCH node (Fixture.callBy Fixture.alice 20) (Fixture.object [])
    Fixture.acmeId Fixture.withAcme
  = (Returns {| Api.body := Api.ErrorBody (lit "No fields to update");
                Api.status := 400 |}, Fixture.withAcme).
Proof.
  apply (patch_without_fields_is_refused node (Fixture.callBy Fixture.alice 20)
           Fixture.alice Fixture.withAcme Fixture.acmeId (JObject []));
    [reflexivity | discriminate | reflexivity].
Defined.

(** A body that is JSON null has no keys to count: [Object.keys] throws, the
    catch clause logs it and answers 500, still without a query. An empty id
    is refused before the body is read. *)
Lemma patch_null_body_or_empty_id (rt : Runtime) (env : Env) (u : User.t) (w : World) :
  signedIn env u ->
  (forall c id,
     Api.PATCH rt env {| Api.NextRequest.json := Some JNull |} (c :: id) w
     = (Returns {| Api.body := Api.ErrorBody (lit "Internal server error");
                   Api.status := 500 |},
        {| table := table w; requests := requests w;
           console := console w
                      ++ [(lit "Unexpected error in PATCH /api/applications/[id]:",
                           lit "TypeError: Cannot convert undefined or null to object")] |}))
  /\ (forall request,
        Api.PATCH rt env request [] w
        = (Returns {| Api.body := Api.ErrorBody (lit "Application ID is required");
                      Api.status := 400 |}, w)).
Proof.
  intros H. split; intros;
    unfold Api.PATCH, try_catch, bind, lift, ret, throw, Api.respond, console_error;
    rewrite H; reflexivity.
Qed.

Lemma updatedFrom_change rt data t0 old p :
  Engine.patch_in rt (Dal.updateColumns data) = inr p ->
  updatedFrom rt data t0 old
    (Engine.update_updated_at_column t0 (Engine.Patch.apply p old)).
Proof.
  intros Hp. apply patch_in_taken in Hp as (Hu & Hc & Hpt & Hs & Hn & Hd).
  unfold updatedFrom, Engine.Patch.apply, Engine.update_updated_at_column.
  cbn [Application.id Application.user_id Application.created_at
       Application.updated_at Application.company_name Application.position_title
       Application.application_date Application.status Application.notes].
  rewrite Hu, Hc, Hpt, Hs, Hn.
  destruct data as [c pt d st n].
  cbn [Dal.updateColumns Engine.Patch.user_id Engine.Patch.company_name
       Engine.Patch.position_title Engine.Patch.application_date
       Engine.Patch.status Engine.Patch.notes UpdateData.company_name
       UpdateData.position_title UpdateData.application_date UpdateData.status
       UpdateData.notes Engine.Patch.or] in *.
  repeat split.
  - destruct d as [text|].
    + destruct Hd as (d' & Hin & ->). exact Hin.
    + now rewrite Hd.
  - now destruct n.
Qed.

Lemma updateApplication_frame rt env u w id data res w' :
  signedIn env u ->
  Dal.updateApplication rt env id data w = (res, w') ->
  Forall2 (framed rt u id data (now env)) (table w) (table w').
Proof.
  intros H. signed_in H.
  assert (Hsame : Forall2 (framed rt u id data (now env)) (table w) (table w))
    by (apply Forall2_same; now left).
  destruct (Dal.invalidId (trim id)); [now intros [= <- <-]|].
  unfold Client.updateByIdSelectSingle, send.
  rewrite (auth_uid_signedIn env u H).
  destruct (fault env) as [[e|]|e]; cbn; try (now intros [= <- <-]).
  destruct (Engine.patch_in rt (Dal.updateColumns data)) as [e|p] eqn:Ep; cbn;
    [now intros [= <- <-]|].
  pose proof (update_writes_owned (Some (User.id u)) (Engine.eq_id (trim id))
                p (now env) (table w)) as HF.
  destruct (Engine.update _ _ _ _ (table w)) as [[e|rows] t'];
    cbn in HF |- *; [now intros [= <- <-]|].
  destruct rows as [|r [|r' rows]]; cbn; try (now intros [= <- <-]).
  intros [= <- <-]. cbn.
  eapply Forall2_impl; [|exact HF].
  intros old new [->|(Hf & Ho & _ & ->)]; [now left|right].
  split; [|split].
  - cbn in Ho. apply streq_eq in Ho. now symmetry.
  - exact Hf.
  - now apply updatedFrom_change.
Qed.

(** What the PATCH route does with an update that comes back. *)
Lemma PATCH_run rt env u w id m members :
  signedIn env u -> id <> [] ->
  Api.PATCH rt env {| Api.NextRequest.json := Some (JObject (m :: members)) |} id w
  = match Zod.updateApplicationSchema rt (prop (m :: members)) with
    | Zod.ZodError details =>
        (Returns {| Api.body := Api.ValidationBody (lit "Validation failed") details;
                    Api.status := 400 |}, w)
    | Zod.ParseOk validatedData =>
        match Dal.updateApplication rt env id validatedData w with
        | (Returns (Success data), w') =>
            (Returns {| Api.body := Api.DataBody (Some data); Api.status := 200 |}, w')
        | (Returns (Failure error), w') =>
            (Returns (if Api.isNotFound error
                      then {| Api.body := Api.ErrorBody (lit "Application not found");
                              Api.status := 404 |}
                      else {| Api.body := Api.ErrorBody error; Api.status := 500 |}), w')
        | (Throws error, w') =>
            (Returns {| Api.body := Api.ErrorBody (lit "Internal server error");
                        Api.status := 500 |},
             {| table := table w'; requests := requests w';
                console := console w'
                           ++ [(lit "Unexpected error in PATCH /api/applications/[id]:",
                                error)] |})
        end
    end.
Proof.
  intros H Hid. unfold Api.PATCH, Api.validationFailed, Api.respond,
    try_catch, bind, lift, ret, console_error.
  rewrite H. cbn [authError user Api.NextRequest.json].
  destruct id as [|c id]; [congruence|].
  cbn [truthy negb Object_keys_length List.length Zod.parseBody].
  destruct (Zod.updateApplicationSchema rt _) as [validatedData|details];
    [|reflexivity].
  replace (Api.definedFields validatedData) with validatedData
    by (now destruct validatedData).
  destruct (Dal.updateApplication rt env (c :: id) validatedData w)
    as [[[data|error]|error] w']; try reflexivity.
  now destruct (Api.isNotFound error).
Qed.

(** A PATCH that the route does not hand to updateApplication leaves the
    world as it was or, when the body is JSON null, logs the error it
    throws. *)
Lemma PATCH_without_update rt env u w request id :
  signedIn env u ->
  (forall m members, Api.NextRequest.json request = Some (JObject (m :: members)) ->
                     id = []) ->
  table (snd (Api.PATCH rt env request id w)) = table w
  /\ requests (snd (Api.PATCH rt env request id w)) = requests w.
Proof.
  intros H Hbody. unfold Api.PATCH, Api.invalidJson, Api.validationFailed, Api.respond,
    try_catch, bind, lift, ret, throw, console_error.
  rewrite H. cbn [authError user].
  destruct id as [|c id]; [now split|]. cbn [truthy negb].
  destruct (Api.NextRequest.json request) as [rawBody|]; [|now split].
  destruct rawBody as [| | | | |[|m members]]; cbn; try (now split).
  - now destruct s.
  - now destruct items.
  - specialize (Hbody m members eq_refl). discriminate.
Qed.

Lemma PATCH_frame rt env u w id m members validatedData :
  signedIn env u ->
  Zod.updateApplicationSchema rt (prop (m :: members)) = Zod.ParseOk validatedData ->
  Forall2 (framed rt u id validatedData (now env)) (table w)
          (table (snd (Api.PATCH rt env
                         {| Api.NextRequest.json := Some (JObject (m :: members)) |}
                         id w))).
Proof.
  intros H Hparse.
  destruct id as [|c id].
  { rewrite (proj1 (PATCH_without_update rt env u w _ [] H (fun _ _ _ => eq_refl))).
    apply Forall2_same. now left. }
  rewrite (PATCH_run rt env u w (c :: id) m members H) by discriminate.
  rewrite Hparse.
  destruct (Dal.updateApplication rt env (c :: id) validatedData w) as [o w1] eqn:E.
  apply (updateApplication_frame _ _ u) in E; [|exact H].
  now destruct o as [[data|error]|error].
Qed.

(** A body whose members all lie outside the schema validates to an update
    without fields. *)
Lemma updateApplicationSchema_unnamed rt get :
  Forall (fun k => get k = VUndefined) schemaKeys ->
  Zod.updateApplicationSchema rt get
  = Zod.ParseOk {| UpdateData.company_name := None;
                   UpdateData.position_title := None;
                   UpdateData.application_date := None;
                   UpdateData.status := None;
                   UpdateData.notes := undefined |}.
Proof.
  unfold schemaKeys, Zod.updateApplicationSchema. intros Hk.
  repeat (apply Forall_cons_iff in Hk as [E Hk]; rewrite E; clear E).
  reflexivity.
Qed.


(** An update that sets no column changes nothing and fails, and the failure
    is not the not-found one, whatever the id and whatever the engine
    does. *)
Lemma update_without_columns rt env u w id data :
  signedIn env u ->
  Engine.Patch.isEmpty (Dal.updateColumns data) = true ->
  exists m,
    fst (Dal.updateApplication rt env id data w) = Returns (Failure m)
    /\ Api.isNotFound m = false
    /\ table (snd (Dal.updateApplication rt env id data w)) = table w.
Proof.
  intros H Hempty. signed_in H.
  destruct (Dal.invalidId (trim id)).
  { eexists. repeat split. }
  unfold Client.updateByIdSelectSingle, send.
  rewrite (patch_in_empty rt _ Hempty).
  unfold Engine.update. rewrite Hempty.
  assert (Hmsg : forall e : Engine.PostgrestError,
            Api.isNotFound
              (if Dal.mentions rt e "network" || Dal.mentions rt e "fetch"
               then lit "Network error. Please check your internet connection."
               else if Dal.mentions rt e "timeout"
               then lit "Request timed out. Please try again."
               else if Dal.mentions rt e "violates"
               then lit "Invalid data. Please check your input."
               else lit "Unable to update application. Please try again.") = false).
  { intros e. destruct (_ || _); [|destruct (Dal.mentions rt e "timeout");
                                   [|destruct (Dal.mentions rt e "violates")]];
      reflexivity. }
  destruct (fault env) as [[e|]|e]; cbn.
  - eexists. split; [reflexivity|]. split; [apply Hmsg|reflexivity].
  - eexists. split; [reflexivity|]. split; [apply Hmsg|reflexivity].
  - eexists. repeat split.
Qed.

(** ** Where the layer departs from its contract *)

(** An engine error in getApplications, createApplication, updateApplication
    or deleteApplication reaches the caller as one of a fixed list of
    messages, and its text goes to the log. *)
Lemma engine_errors_are_replaced rt env u w e :
  signedIn env u -> fault env = Returns (Some e) ->
  (exists m, fst (Dal.getApplications rt env w) = Returns (Failure m)
             /\ In m opaqueMessages
             /\ In (Engine.message e)
                   (map snd (console (snd (Dal.getApplications rt env w)))))
  /\ (forall data, exists m,
        fst (Dal.createApplication rt env data w) = Returns (Failure m)
        /\ In m opaqueMessages)
  /\ (forall id data,
        Dal.invalidId (trim id) = false -> exists m,
        fst (Dal.updateApplication rt env id data w) = Returns (Failure m)
        /\ In m opaqueMessages)
  /\ (forall id,
        Dal.invalidId (trim id) = false -> exists m,
        fst (Dal.deleteApplication rt env id w) = Returns (Failure m)
        /\ In m opaqueMessages).
Proof.
  intros H He. repeat split; intros.
  - signed_in H. unfold Client.selectOrdered, send. rewrite He. cbn.
    eexists. split; [reflexivity|]. split.
    + destruct (_ || _); [|destruct (Dal.mentions rt e "timeout")];
        unfold opaqueMessages; simpl; tauto.
    + rewrite map_app. apply in_or_app. right. now left.
  - signed_in H. unfold Client.insertSelectSingle, send. rewrite He. cbn.
    eexists. split; [reflexivity|].
    destruct (_ || _); [|destruct (Dal.mentions rt e "timeout");
                         [|destruct (Dal.mentions rt e "violates")]];
      unfold opaqueMessages; simpl; tauto.
  - signed_in H. rewrite H0.
    unfold Client.updateByIdSelectSingle, send. rewrite He. cbn.
    eexists. split; [reflexivity|].
    destruct (_ || _); [|destruct (Dal.mentions rt e "timeout");
                         [|destruct (Dal.mentions rt e "violates")]];
      unfold opaqueMessages; simpl; tauto.
  - signed_in H. rewrite H0.
    unfold Client.deleteByIdSelect, send. rewrite He. cbn.
    eexists. split; [reflexivity|].
    destruct (_ || _); [|destruct (Dal.mentions rt e "timeout")];
      unfold opaqueMessages; simpl; tauto.
Qed.

(** getApplicationById, and the getApplications of the read-only copy, hand
    the engine's message to the caller. *)
Lemma engine_errors_are_relayed rt env u w e :
  signedIn env u -> fault env = Returns (Some e) ->
  (forall id, Dal.invalidId (trim id) = false ->
     fst (Dal.getApplicationById rt env id w)
     = Returns (Failure (lit "Failed to fetch application: " ++ Engine.message e)))
  /\ fst (DalReadOnly.getApplications rt env w)
     = Returns (Failure (lit "Failed to fetch applications: " ++ Engine.message e)).
Proof.
  intros H He. split; intros.
  - signed_in H. rewrite H0.
    unfold Client.selectByIdMaybeSingle, send. rewrite He. reflexivity.
  - signed_in H. unfold Client.selectOrdered, send. rewrite He. reflexivity.
Qed.

(** C9 fails on getApplicationById: when the engine fails the query with
    'connection to server at 10.0.0.5 failed', the caller receives
    'Failed to fetch application: connection to server at 10.0.0.5 failed',
    which contains the engine's text, next to the log entry. *)
Theorem getApplicationById_relays_engine_text :
  Dal.getApplicationById node
    (Fixture.failing Fixture.alice "connection to server at 10.0.0.5 failed")
    Fixture.acmeId Fixture.withAcme
  = (Returns (Failure (lit "Failed to fetch application: connection to server at 10.0.0.5 failed")),
     {| table := [Fixture.acme];
        requests := [SelectById Fixture.acmeId];
        console := [(lit "Error fetching application:",
                     lit "connection to server at 10.0.0.5 failed")] |})
  /\ includes (lit "Failed to fetch application: connection to server at 10.0.0.5 failed")
              (lit "connection to server at 10.0.0.5 failed") = true
  /\ ~ In (lit "Failed to fetch application: connection to server at 10.0.0.5 failed")
          opaqueMessages.
Proof.
  repeat split.
  intros Hin. unfold opaqueMessages in Hin. simpl in Hin.
  repeat (destruct Hin as [Hin|Hin]; [discriminate Hin|]). exact Hin.
Qed.

(** The empty string passes the notes transform unchanged. *)
Lemma notesTransform_empty : Zod.notesTransform (Some []) = value [].
Proof. reflexivity. Qed.

(** Blank but non-empty notes do become null. *)
Lemma notesTransform_blank s :
  s <> [] -> trim s = [] -> Zod.notesTransform (Some s) = null.
Proof.
  intros Hs Ht. unfold Zod.notesTransform. rewrite Ht.
  destruct s; [congruence|reflexivity].
Qed.

(** C7 fails: a create whose notes are the empty string stores the empty
    string, not NULL, through the POST route and through the server action;
    an update whose notes are the empty string does the same. *)
Theorem empty_notes_are_stored_as_empty_string :
  map Application.notes
      (table (snd (Api.POST node (Fixture.callBy Fixture.alice 20)
                     (Fixture.object [("company_name", Fixture.text "Initech");
                                      ("position_title", Fixture.text "Analyst");
                                      ("application_date", Fixture.text "2026-02-01");
                                      ("status", Fixture.text "applied");
                                      ("notes", Fixture.text "")]%string)
                     Fixture.nothing)))
  = [Some []]
  /\ map Application.notes
       (table (snd (Api.createApplicationAction node (Fixture.callBy Fixture.alice 20)
                      [(lit "company_name", Api.FString (lit "Initech"));
                       (lit "position_title", Api.FString (lit "Analyst"));
                       (lit "application_date", Api.FString (lit "2026-02-01"));
                       (lit "status", Api.FString (lit "applied"));
                       (lit "notes", Api.FString (lit ""))]
                      Fixture.nothing)))
     = [Some []]
  /\ map Application.notes
       (table (snd (Api.PATCH node (Fixture.callBy Fixture.alice 20)
                      (Fixture.object [("notes", Fixture.text "")]%string)
                      Fixture.acmeId Fixture.withAcme)))
     = [Some []].
Proof. repeat split. Qed.

Lemma filter_and {A} (f g : A -> bool) (l : list A) :
  filter (fun a => f a && g a) l = filter f (filter g l).
Proof.
  induction l as [|a l IH]; simpl; [reflexivity|].
  destruct (g a), (f a) eqn:Ef; simpl; rewrite ?Ef, ?IH; reflexivity.
Qed.

Lemma filter_none {A} (f : A -> bool) (l : list A) :
  (forall a, In a l -> f a = false) -> filter f l = [].
Proof.
  induction l as [|a l IH]; intros H; simpl; [reflexivity|].
  rewrite (H a) by now left. apply IH. intros b Hb. apply H. now right.
Qed.

(** What an UPDATE answers depends on the caller's rows only. *)
Lemma update_answer caller f p t0 t :
  fst (Engine.update caller f p t0 t) =
    if Engine.Patch.isEmpty p then inr []
    else
      let changed :=
        map (fun r => Engine.update_updated_at_column t0 (Engine.Patch.apply p r))
            (filter f (filter (owns caller) t)) in
      if forallb (fun r' => Rls.checkOk Rls.UPDATE caller r'
                            && Rls.usingOk Rls.SELECT caller r') changed
      then inr changed else inl Engine.rlsViolation.
Proof.
  unfold Engine.update. destruct (Engine.Patch.isEmpty p); [reflexivity|].
  rewrite (filter_ext _ (fun r => f r && owns caller r))
    by (intros r; apply targets_owns; discriminate).
  rewrite filter_and. cbn zeta.
  now destruct (forallb _ _).
Qed.

Lemma delete_answer caller f t :
  fst (Engine.delete caller f t) = filter f (filter (owns caller) t).
Proof.
  unfold Engine.delete. cbn [fst]. rewrite <- filter_and.
  apply filter_ext. intros r. apply targets_owns. discriminate.
Qed.

(** The outcome of the four operations that take no new data from the caller
    is a function of the caller's own rows: two tables that hold the same
    rows of the caller, whatever rows of others they hold, give the same
    results. *)
Lemma foreign_rows_do_not_show rt env u w1 w2 :
  signedIn env u ->
  filter (owns (Some (User.id u))) (table w1)
  = filter (owns (Some (User.id u))) (table w2) ->
  fst (Dal.getApplications rt env w1) = fst (Dal.getApplications rt env w2)
  /\ (forall id, fst (Dal.getApplicationById rt env id w1)
                 = fst (Dal.getApplicationById rt env id w2))
  /\ (forall id data, fst (Dal.updateApplication rt env id data w1)
                      = fst (Dal.updateApplication rt env id data w2))
  /\ (forall id, fst (Dal.deleteApplication rt env id w1)
                 = fst (Dal.deleteApplication rt env id w2)).
Proof.
  intros H Hvis. pose proof (auth_uid_signedIn env u H) as Hc.
  assert (Hsel : forall f t, Engine.select (Some (User.id u)) f t
                 = filter (fun r => f r && owns (Some (User.id u)) r) t).
  { intros f t. unfold Engine.select. apply filter_ext. intros r.
    now rewrite usingOk_owns by discriminate. }
  repeat split; intros.
  - signed_in H. unfold Client.selectOrdered, send. rewrite Hc.
    destruct (fault env) as [[e|]|e]; cbn; try reflexivity.
    now rewrite !Hsel, !filter_and, Hvis.
  - signed_in H. destruct (Dal.invalidId (trim id)); [reflexivity|].
    unfold Client.selectByIdMaybeSingle, send. rewrite Hc. cbv beta.
    rewrite !Hsel, !filter_and, Hvis.
    destruct (fault env) as [[e|]|e]; try reflexivity.
    cbn. now destruct (Engine.maybeSingle _ _) as [d [e|]].
  - signed_in H. destruct (Dal.invalidId (trim id)); [reflexivity|].
    unfold Client.updateByIdSelectSingle, send. rewrite Hc.
    destruct (fault env) as [[e|]|e]; cbn; try reflexivity.
    destruct (Engine.patch_in rt (Dal.updateColumns data)) as [e|p]; [reflexivity|].
    pose proof (update_answer (Some (User.id u)) (Engine.eq_id (trim id))
                  p (now env) (table w1)) as E1.
    pose proof (update_answer (Some (User.id u)) (Engine.eq_id (trim id))
                  p (now env) (table w2)) as E2.
    rewrite Hvis, <- E2 in E1.
    destruct (Engine.update _ _ _ _ (table w1)) as [s1 t1].
    destruct (Engine.update _ _ _ _ (table w2)) as [s2 t2].
    cbn in E1. subst s2.
    destruct s1 as [e|[|r [|r' rows]]]; reflexivity.
  - signed_in H. destruct (Dal.invalidId (trim id)); [reflexivity|].
    unfold Client.deleteByIdSelect, send. rewrite Hc.
    destruct (fault env) as [[e|]|e]; try reflexivity.
    pose proof (delete_answer (Some (User.id u)) (Engine.eq_id (trim id)) (table w1)) as E1.
    pose proof (delete_answer (Some (User.id u)) (Engine.eq_id (trim id)) (table w2)) as E2.
    rewrite Hvis, <- E2 in E1.
    destruct (Engine.delete _ _ (table w1)) as [d1 t1].
    destruct (Engine.delete _ _ (table w2)) as [d2 t2].
    cbn in E1. subst d2. now destruct d1.
Qed.

(** An update that reaches no row of the caller, because the id is unknown or
    the row is another user's, takes the engine-error branch of
    updateApplication: [.single()] reports an error for zero rows, so the
    branch for a missing record is never taken. The caller gets one of the
    generic messages, which the PATCH route does not read as not-found. *)
Lemma update_of_unreachable_row rt env u w id data :
  signedIn env u -> fault env = Returns None ->
  Dal.invalidId (trim id) = false ->
  (forall r, In r (table w) -> Engine.eq_id (trim id) r = true ->
             Application.user_id r <> User.id u) ->
  exists m,
    fst (Dal.updateApplication rt env id data w) = Returns (Failure m)
    /\ In m opaqueMessages
    /\ Api.isNotFound m = false
    /\ table (snd (Dal.updateApplication rt env id data w)) = table w.
Proof.
  intros H Hf Hid Hnone. signed_in H. rewrite Hid.
  unfold Client.updateByIdSelectSingle, send.
  rewrite (auth_uid_signedIn env u H), Hf.
  assert (Hmsg : forall e : Engine.PostgrestError,
            In (if Dal.mentions rt e "network" || Dal.mentions rt e "fetch"
                then lit "Network error. Please check your internet connection."
                else if Dal.mentions rt e "timeout"
                then lit "Request timed out. Please try again."
                else if Dal.mentions rt e "violates"
                then lit "Invalid data. Please check your input."
                else lit "Unable to update application. Please try again.")
               [lit "Network error. Please check your internet connection.";
                lit "Request timed out. Please try again.";
                lit "Invalid data. Please check your input.";
                lit "Unable to update application. Please try again."]).
  { intros e. destruct (_ || _); [|destruct (Dal.mentions rt e "timeout");
                                   [|destruct (Dal.mentions rt e "violates")]];
      simpl; tauto. }
  destruct (Engine.patch_in rt (Dal.updateColumns data)) as [e|p] eqn:Ep.
  { specialize (Hmsg e). cbn.
    eexists. split; [reflexivity|].
    simpl in Hmsg. unfold opaqueMessages.
    repeat (destruct Hmsg as [<-|Hmsg]; [repeat split; simpl; tauto|]).
    contradiction. }
  assert (E : fst (Engine.update (Some (User.id u)) (Engine.eq_id (trim id))
                     p (now env) (table w)) = inr []).
  { rewrite update_answer.
    destruct (Engine.Patch.isEmpty p); [reflexivity|].
    rewrite (filter_none (Engine.eq_id (trim id))); [reflexivity|].
    intros r Hr. apply filter_In in Hr as [Hr Ho].
    destruct (Engine.eq_id (trim id) r) eqn:Eid; [|reflexivity].
    exfalso. apply (Hnone r Hr Eid).
    cbn in Ho. apply streq_eq in Ho. now symmetry. }
  destruct (Engine.update _ _ _ _ (table w)) as [s t'].
  cbn in E. subst s. cbn.
  specialize (Hmsg (Engine.notSingle rt)).
  eexists. split; [reflexivity|].
  simpl in Hmsg. unfold opaqueMessages.
  repeat (destruct Hmsg as [<-|Hmsg]; [repeat split; simpl; tauto|]).
  contradiction.
Qed.

(** The wording of the error of [.single()] reaches the log and nothing else:
    behind a query server of version 12 the two updates below get the same
    results. *)
Lemma wording_of_single_is_only_logged :
  fst (Dal.updateApplication node_postgrest12 (Fixture.callBy Fixture.alice 20)
         Fixture.missingId Fixture.toInterviewing Fixture.withAcme)
  = Returns (Failure (lit "Unable to update application. Please try again."))
  /\ fst (Api.PATCH node_postgrest12 (Fixture.callBy Fixture.alice 20)
            (Fixture.object [("status", Fixture.text "interviewing")]%string)
            Fixture.missingId Fixture.withAcme)
     = Returns {| Api.body := Api.ErrorBody
                                (lit "Unable to update application. Please try again.");
                  Api.status := 500 |}
  /\ fst (Api.PATCH node_postgrest12 (Fixture.callBy Fixture.bob 20)
            (Fixture.object [("status", Fixture.text "interviewing")]%string)
            Fixture.acmeId Fixture.withAcme)
     = Returns {| Api.body := Api.ErrorBody
                                (lit "Unable to update application. Please try again.");
                  Api.status := 500 |}
  /\ console (snd (Dal.updateApplication node_postgrest12
                     (Fixture.callBy Fixture.alice 20)
                     Fixture.missingId Fixture.toInterviewing Fixture.withAcme))
     = [(lit "Error updating application:",
         lit "Cannot coerce the result to a single JSON object")].
Proof. repeat split. Qed.

(** C5 fails: Alice updates an application that does not exist, under a
    well-formed id. The layer answers 'Unable to update application. Please
    try again.', the generic storage failure, and the PATCH route answers
    500 with that message instead of 404 'Application not found'. *)
Theorem update_of_missing_record_is_a_storage_failure :
  Dal.updateApplication node (Fixture.callBy Fixture.alice 20) Fixture.missingId
    Fixture.toInterviewing Fixture.withAcme
  = (Returns (Failure (lit "Unable to update application. Please try again.")),
     {| table := [Fixture.acme];
        requests := [UpdateById (Dal.updateColumns Fixture.toInterviewing)
                                Fixture.missingId];
        console := [(lit "Error updating application:",
                     lit "JSON object requested, multiple (or no) rows returned")] |})
  /\ fst (Api.PATCH node (Fixture.callBy Fixture.alice 20)
            (Fixture.object [("status", Fixture.text "interviewing")]%string)
            Fixture.missingId Fixture.withAcme)
     = Returns {| Api.body := Api.ErrorBody
                                (lit "Unable to update application. Please try again.");
                  Api.status := 500 |}.
Proof. split; reflexivity. Qed.

(** C2 fails on updateApplication: Bob updates Alice's application by its id.
    Nothing of Alice's is changed or shown, and the outcome is the one Bob
    gets for an id that does not exist; but that outcome is the generic
    storage failure, which the PATCH route answers with 500, not a not-found
    result. getApplicationById and deleteApplication under Bob do answer with
    their not-found results. *)
Theorem update_of_foreign_record_is_a_storage_failure :
  Dal.updateApplication node (Fixture.callBy Fixture.bob 20) Fixture.acmeId
    Fixture.toInterviewing Fixture.withAcme
  = (Returns (Failure (lit "Unable to update application. Please try again.")),
     {| table := [Fixture.acme];
        requests := [UpdateById (Dal.updateColumns Fixture.toInterviewing)
                                Fixture.acmeId];
        console := [(lit "Error updating application:",
                     lit "JSON object requested, multiple (or no) rows returned")] |})
  /\ fst (Dal.updateApplication node (Fixture.callBy Fixture.bob 20) Fixture.missingId
            Fixture.toInterviewing Fixture.withAcme)
     = Returns (Failure (lit "Unable to update application. Please try again."))
  /\ Api.isNotFound (lit "Unable to update application. Please try again.") = false
  /\ fst (Api.PATCH node (Fixture.callBy Fixture.bob 20)
            (Fixture.object [("status", Fixture.text "interviewing")]%string)
            Fixture.acmeId Fixture.withAcme)
     = Returns {| Api.body := Api.ErrorBody
                                (lit "Unable to update application. Please try again.");
                  Api.status := 500 |}
  /\ fst (Dal.getApplications node (Fixture.callBy Fixture.bob 20) Fixture.withAcme)
     = Returns (Success (Some []))
  /\ fst (Dal.getApplicationById node (Fixture.callBy Fixture.bob 20) Fixture.acmeId
            Fixture.withAcme)
     = Returns (Success None)
  /\ fst (Api.DELETE node (Fixture.callBy Fixture.bob 20) Fixture.acmeId Fixture.withAcme)
     = Returns {| Api.body := Api.ErrorBody (lit "Application not found");
                  Api.status := 404 |}.
Proof. repeat split. Qed.

(** ** Further properties of the data-access layer *)

(** The rows a lookup by id reaches under [u]. *)
Lemma select_by_id (u : User.t) (v : jsstring) (t : list Application.t) :
  Engine.select (Some (User.id u)) (Engine.eq_id v) t
  = filter (Engine.eq_id v) (rowsOf u t).
Proof.
  unfold Engine.select, rowsOf. rewrite <- filter_and.
  apply filter_ext. intros r. now rewrite usingOk_owns by discriminate.
Qed.

Lemma eq_id_printed (v : jsstring) (r : Application.t) :
  asciiLower v = v -> Engine.eq_id v r = true <-> Application.id r = v.
Proof.
  intros Hv. unfold Engine.eq_id, Engine.uuid_in. rewrite Hv, streq_eq.
  split; congruence.
Qed.

Lemma getApplicationById_answer rt env u w id :
  signedIn env u -> fault env = Returns None ->
  Dal.invalidId (trim id) = false ->
  fst (Dal.getApplicationById rt env id w)
  = match filter (Engine.eq_id (trim id)) (rowsOf u (table w)) with
    | [] => Returns (Success None)
    | [r] => Returns (Success (Some r))
    | _ => Returns (Failure (lit "Failed to fetch application: "
                             ++ single_row_message rt))
    end.
Proof.
  intros H Hf Hid. signed_in H. rewrite Hid.
  unfold Client.selectByIdMaybeSingle, send.
  rewrite (auth_uid_signedIn env u H), Hf, select_by_id.
  now destruct (filter _ _) as [|r [|r' l]].
Qed.

Lemma invalidId_uuid (v : jsstring) :
  matchClasses Dal.UUID_RE v = true -> Dal.invalidId (trim v) = false.
Proof.
  intros Hv. rewrite (trim_uuid v Hv). unfold Dal.invalidId. rewrite Hv.
  destruct v; [discriminate|reflexivity].
Qed.

(** X1: a create under a session, answered by the engine with an id it has
    not used yet, for values the columns take as sent (texts that can be
    stored, a date the engine prints back as it was written), returns the
    record built from the input with the session's user as owner and both
    timestamps equal, appends it to the table, and a later getApplicationById
    with the returned id under the same user returns that record. *)
Theorem created_application_is_fetched_back
  (rt : Runtime) (env env' : Env) (u : User.t) (w : World) (data : CreateData.t) :
  signedIn env u -> fault env = Returns None ->
  printedUuid (gen_random_uuid env) ->
  ~ In (gen_random_uuid env) (map Application.id (table w)) ->
  storedAsSent rt data ->
  signedIn env' u -> fault env' = Returns None ->
  fst (Dal.createApplication rt env data w)
  = Returns (Success (Some (createdRow env u data)))
  /\ table (snd (Dal.createApplication rt env data w))
     = table w ++ [createdRow env u data]
  /\ Application.created_at (createdRow env u data)
     = Application.updated_at (createdRow env u data)
  /\ fst (Dal.getApplicationById rt env' (gen_random_uuid env)
            (snd (Dal.createApplication rt env data w)))
     = Returns (Success (Some (createdRow env u data))).
Proof.
  intros H Hf [Huuid Hlower] Hfresh Hsent H' Hf'.
  rewrite (createApplication_stores rt env u w data H Hf Hfresh Hsent).
  repeat split.
  rewrite (getApplicationById_answer rt env' u _ _ H' Hf' (invalidId_uuid _ Huuid)).
  cbn [table snd]. unfold rowsOf. rewrite (trim_uuid _ Huuid), <- filter_and, filter_app.
  rewrite filter_none.
  - cbn. rewrite (proj2 (eq_id_printed _ _ Hlower)) by reflexivity.
    now rewrite streq_refl.
  - intros r Hr. destruct (Engine.eq_id _ r) eqn:E; [|reflexivity].
    apply eq_id_printed in E; [|exact Hlower].
    exfalso. apply Hfresh. rewrite <- E. now apply in_map.
Qed.

Ltac not_in_concrete :=
  let H := fresh "H" in
  intros H; vm_compute in H;
  repeat (destruct H as [H|H]; [discriminate H|]); exact H.

Lemma created_application_is_fetched_back_witness :
  fst (Dal.getApplicationById node (Fixture.callBy Fixture.alice 30)
         (lit "bbbbbbbb-bbbb-4bbb-8bbb-bbbbbbbbbbbb")
         (snd (Dal.createApplication node (Fixture.callBy Fixture.alice 20)
                 Sample.newApplication Sample.shared)))
  = Returns (Success (Some (createdRow (Fixture.callBy Fixture.alice 20)
                                       Fixture.alice Sample.newApplication))).
Proof.
  apply (created_application_is_fetched_back node (Fixture.callBy Fixture.alice 20)
           (Fixture.callBy Fixture.alice 30) Fixture.alice Sample.shared
           Sample.newApplication); try reflexivity.
  - split; reflexivity.
  - not_in_concrete.
  - split; reflexivity.
Defined.

Lemma filter_all {A} (f : A -> bool) (l : list A) :
  (forall a, In a l -> f a = true) -> filter f l = l.
Proof.
  induction l as [|a l IH]; intros H; simpl; [reflexivity|].
  rewrite (H a) by now left. f_equal. apply IH. intros b Hb. apply H. now right.
Qed.

(** What deleteApplication does under a session when the engine answers. *)
Lemma deleteApplication_answer rt env u w id :
  signedIn env u -> fault env = Returns None ->
  Dal.invalidId (trim id) = false ->
  Dal.deleteApplication rt env id w
  = (match filter (Engine.eq_id (trim id)) (rowsOf u (table w)) with
     | [] => Returns (Failure (lit "Application not found or access denied: "
                               ++ trim id))
     | _ :: _ => Returns (Success (trim id))
     end,
     {| table := filter (fun r => negb (Engine.eq_id (trim id) r
                                        && owns (Some (User.id u)) r)) (table w);
        requests := requests w ++ [DeleteById (trim id)];
        console := console w |}).
Proof.
  intros H Hf Hid. signed_in H. rewrite Hid.
  unfold Client.deleteByIdSelect, send.
  rewrite (auth_uid_signedIn env u H), Hf.
  unfold Engine.delete.
  rewrite (filter_ext (Engine.targets Rls.DELETE (Some (User.id u)) (Engine.eq_id (trim id)))
             (fun r => Engine.eq_id (trim id) r && owns (Some (User.id u)) r))
    by (intros r; apply targets_owns; discriminate).
  rewrite (filter_ext (fun r => negb (Engine.targets Rls.DELETE (Some (User.id u))
                                        (Engine.eq_id (trim id)) r))
             (fun r => negb (Engine.eq_id (trim id) r && owns (Some (User.id u)) r)))
    by (intros r; now rewrite targets_owns by discriminate).
  rewrite filter_and. fold (rowsOf u (table w)).
  now destruct (filter (Engine.eq_id (trim id)) (rowsOf u (table w))).
Qed.

(** A successful delete was answered by the engine for a well-formed id. *)
Lemma deleteApplication_success rt env u w id deleted :
  signedIn env u ->
  fst (Dal.deleteApplication rt env id w) = Returns (Success deleted) ->
  fault env = Returns None /\ Dal.invalidId (trim id) = false.
Proof.
  intros H. signed_in H.
  destruct (Dal.invalidId (trim id)); [discriminate|].
  unfold Client.deleteByIdSelect, send.
  destruct (fault env) as [[e|]|e]; [discriminate| |discriminate].
  now intros _.
Qed.

(** X2: when deleteApplication succeeds it returns the trimmed id, the table
    loses exactly the caller's rows with that id, and afterwards, under the
    same user, getApplicationById for that id returns null and a second
    delete is answered 'Application not found or access denied'. *)
Theorem deleted_application_is_gone
  (rt : Runtime) (env env' : Env) (u : User.t) (w : World) (id deleted : jsstring) :
  signedIn env u -> signedIn env' u -> fault env' = Returns None ->
  fst (Dal.deleteApplication rt env id w) = Returns (Success deleted) ->
  deleted = trim id
  /\ table (snd (Dal.deleteApplication rt env id w))
     = filter (fun r => negb (Engine.eq_id (trim id) r && owns (Some (User.id u)) r))
              (table w)
  /\ fst (Dal.getApplicationById rt env' id (snd (Dal.deleteApplication rt env id w)))
     = Returns (Success None)
  /\ fst (Dal.deleteApplication rt env' id (snd (Dal.deleteApplication rt env id w)))
     = Returns (Failure (lit "Application not found or access denied: " ++ trim id)).
Proof.
  intros H H' Hf' Hok.
  destruct (deleteApplication_success rt env u w id deleted H Hok) as [Hf Hid].
  revert Hok. rewrite (deleteApplication_answer rt env u w id H Hf Hid).
  cbn [fst snd].
  assert (Hgone : filter (Engine.eq_id (trim id))
                    (rowsOf u (filter (fun r => negb (Engine.eq_id (trim id) r
                                                      && owns (Some (User.id u)) r))
                                      (table w))) = []).
  { unfold rowsOf. rewrite <- !filter_and. apply filter_none.
    intros r _. now destruct (Engine.eq_id (trim id) r), (owns (Some (User.id u)) r). }
  intros Hok. repeat split.
  - destruct (filter _ (rowsOf u (table w))); congruence.
  - rewrite (getApplicationById_answer rt env' u _ id H' Hf' Hid).
    cbn [table]. now rewrite Hgone.
  - rewrite (deleteApplication_answer rt env' u _ id H' Hf' Hid).
    cbn [fst table]. now rewrite Hgone.
Qed.

Lemma deleted_application_is_gone_witness :
  fst (Dal.getApplicationById node (Fixture.callBy Fixture.alice 30) Fixture.acmeId
         (snd (Dal.deleteApplication node (Fixture.callBy Fixture.alice 20)
                 Fixture.acmeId Sample.shared)))
  = Returns (Success None).
Proof.
  apply (deleted_application_is_gone node (Fixture.callBy Fixture.alice 20)
           (Fixture.callBy Fixture.alice 30) Fixture.alice Sample.shared
           Fixture.acmeId Fixture.acmeId); reflexivity.
Defined.


Lemma changed_taken rt env data p r :
  Engine.patch_in rt (Dal.updateColumns data) = inr p ->
  changed rt env data r
  = Engine.update_updated_at_column (now env) (Engine.Patch.apply p r).
Proof. intros Hp. unfold changed. now rewrite Hp. Qed.


(** What updateApplication does under a session when the engine answers and
    the update sets a column, with values the columns take. *)
Lemma updateApplication_answer rt env u w id data p :
  signedIn env u -> fault env = Returns None ->
  Dal.invalidId (trim id) = false ->
  Engine.Patch.isEmpty (Dal.updateColumns data) = false ->
  Engine.patch_in rt (Dal.updateColumns data) = inr p ->
  Dal.updateApplication rt env id data w
  = match map (changed rt env data)
              (filter (fun r => Engine.eq_id (trim id) r && owns (Some (User.id u)) r)
                      (table w)) with
    | [r] =>
        (Returns (Success r),
         {| table := map (fun r => if Engine.eq_id (trim id) r
                                      && owns (Some (User.id u)) r
                                   then changed rt env data r else r) (table w);
            requests := requests w ++ [UpdateById (Dal.updateColumns data) (trim id)];
            console := console w |})
    | _ =>
        (Returns (Failure
           (if Dal.mentions rt (Engine.notSingle rt) "network"
               || Dal.mentions rt (Engine.notSingle rt) "fetch"
            then lit "Network error. Please check your internet connection."
            else if Dal.mentions rt (Engine.notSingle rt) "timeout"
            then lit "Request timed out. Please try again."
            else if Dal.mentions rt (Engine.notSingle rt) "violates"
            then lit "Invalid data. Please check your input."
            else lit "Unable to update application. Please try again.")),
         {| table := table w;
            requests := requests w ++ [UpdateById (Dal.updateColumns data) (trim id)];
            console := console w ++ [(lit "Error updating application:",
                                      single_row_message rt)] |})
    end.
Proof.
  intros H Hf Hid Hne Hp. signed_in H. rewrite Hid.
  unfold Client.updateByIdSelectSingle, send.
  rewrite (auth_uid_signedIn env u H), Hf, Hp.
  rewrite update_reaches_owned.
  - rewrite (map_ext (changed rt env data) _ (fun r => changed_taken rt env data p r Hp)).
    rewrite (map_ext (fun r => if Engine.eq_id (trim id) r && owns (Some (User.id u)) r
                               then changed rt env data r else r)
                     (fun r => if Engine.eq_id (trim id) r && owns (Some (User.id u)) r
                               then Engine.update_updated_at_column (now env)
                                      (Engine.Patch.apply p r)
                               else r))
      by (intros r; now rewrite (changed_taken rt env data p r Hp)).
    now destruct (map _ (filter _ (table w))) as [|r [|r' l]].
  - now apply patch_in_taken in Hp as (Hu & _).
  - now rewrite (patch_in_isEmpty rt _ p Hp).
Qed.




Lemma insertDesc_perm (r : Application.t) (l : list Application.t) :
  Permutation (Engine.insertDesc r l) (r :: l).
Proof.
  induction l as [|x l IH]; simpl; [reflexivity|].
  destruct (Application.created_at x <? Application.created_at r); [reflexivity|].
  rewrite IH. apply perm_swap.
Qed.

Lemma orderByCreatedAtDesc_perm (l : list Application.t) :
  Permutation (Engine.orderByCreatedAtDesc l) l.
Proof.
  induction l as [|x l IH]; simpl; [reflexivity|].
  unfold Engine.orderByCreatedAtDesc in *. simpl.
  rewrite insertDesc_perm. now constructor.
Qed.

Lemma insertDesc_sorted (r : Application.t) (l : list Application.t) :
  Sorted newerFirst l -> Sorted newerFirst (Engine.insertDesc r l).
Proof.
  induction l as [|x l IH]; intros Hs; simpl.
  - repeat constructor.
  - destruct (Application.created_at x <? Application.created_at r) eqn:E.
    + constructor; [exact Hs|]. constructor. unfold newerFirst.
      apply N.ltb_lt in E. lia.
    + apply N.ltb_ge in E. inversion Hs as [|? ? Hs' Hhd]; subst.
      constructor; [now apply IH|].
      destruct l as [|y l]; simpl.
      * constructor. exact E.
      * destruct (Application.created_at y <? Application.created_at r);
          constructor; [exact E|].
        now inversion Hhd.
Qed.

Lemma orderByCreatedAtDesc_sorted (l : list Application.t) :
  Sorted newerFirst (Engine.orderByCreatedAtDesc l).
Proof.
  induction l as [|x l IH]; [constructor|].
  unfold Engine.orderByCreatedAtDesc in *. simpl. now apply insertDesc_sorted.
Qed.

(** X4: under a session, when the engine answers, getApplications sends one
    query, leaves the table as it is and returns a list that holds exactly the
    rows of the caller (a permutation of them, so the empty list when there
    are none) with no record created later than the one before it. *)
Theorem getApplications_lists_own_rows_newest_first
  (rt : Runtime) (env : Env) (u : User.t) (w : World) :
  signedIn env u -> fault env = Returns None ->
  exists l,
    Dal.getApplications rt env w
    = (Returns (Success (Some l)),
       {| table := table w; requests := requests w ++ [SelectOrdered];
          console := console w |})
    /\ Permutation l (rowsOf u (table w))
    /\ Sorted newerFirst l.
Proof.
  intros H Hf.
  exists (Engine.orderByCreatedAtDesc (rowsOf u (table w))). split; [|split].
  - signed_in H. unfold Client.selectOrdered, send.
    rewrite (auth_uid_signedIn env u H), Hf. cbn.
    unfold Engine.select, rowsOf.
    rewrite (filter_ext _ (owns (Some (User.id u))));
      [reflexivity|].
    intros r. now rewrite usingOk_owns by discriminate.
  - apply orderByCreatedAtDesc_perm.
  - apply orderByCreatedAtDesc_sorted.
Qed.

Lemma getApplications_lists_own_rows_newest_first_witness :
  exists l,
    Dal.getApplications node (Fixture.callBy Fixture.alice 20) Sample.shared
    = (Returns (Success (Some l)),
       {| table := table Sample.shared;
          requests := requests Sample.shared ++ [SelectOrdered];
          console := console Sample.shared |})
    /\ Permutation l (rowsOf Fixture.alice (table Sample.shared))
    /\ Sorted newerFirst l.
Proof.
  apply (getApplications_lists_own_rows_newest_first node
           (Fixture.callBy Fixture.alice 20) Fixture.alice Sample.shared);
    reflexivity.
Defined.

Lemma rowsOfOthers_framed rt u id data t0 t t' :
  Forall2 (framed rt u id data t0) t t' -> rowsOfOthers u t' = rowsOfOthers u t.
Proof.
  induction 1 as [|old new t t' Hf _ IH]; [reflexivity|].
  unfold rowsOfOthers in *. cbn [filter].
  destruct Hf as [->|(Ho & _ & Hu)]; [now rewrite IH|].
  destruct Hu as (_ & Hsame & _).
  rewrite (owns_self u old Ho), (owns_self u new) by congruence.
  exact IH.
Qed.

Lemma rowsOfOthers_grown u t t' :
  grownFor u t t' -> rowsOfOthers u t' = rowsOfOthers u t.
Proof.
  intros [->|(row & -> & Ho)]; [reflexivity|].
  unfold rowsOfOthers. rewrite filter_app. cbn [filter].
  rewrite (owns_self u row Ho). apply app_nil_r.
Qed.

Lemma rowsOfOthers_deleted u f t :
  rowsOfOthers u (filter (fun r => negb (f r && owns (Some (User.id u)) r)) t)
  = rowsOfOthers u t.
Proof.
  unfold rowsOfOthers. rewrite <- filter_and. apply filter_ext.
  intros r. now destruct (f r), (owns (Some (User.id u)) r).
Qed.

(** The table after deleteApplication, whatever the engine does. *)
Lemma deleteApplication_table rt env u w id :
  signedIn env u ->
  table (snd (Dal.deleteApplication rt env id w)) = table w
  \/ table (snd (Dal.deleteApplication rt env id w))
     = filter (fun r => negb (Engine.eq_id (trim id) r && owns (Some (User.id u)) r))
              (table w).
Proof.
  intros H.
  destruct (Dal.invalidId (trim id)) eqn:Hid.
  { left. signed_in H. now rewrite Hid. }
  destruct (fault env) as [[e|]|e] eqn:Hf.
  - left. signed_in H. rewrite Hid.
    unfold Client.deleteByIdSelect, send. now rewrite Hf.
  - right. now rewrite (deleteApplication_answer rt env u w id H Hf Hid).
  - left. signed_in H. rewrite Hid.
    unfold Client.deleteByIdSelect, send. now rewrite Hf.
Qed.

(** The two reads write nothing, whatever the session and the engine. *)
Lemma reads_keep_table rt env w :
  table (snd (Dal.getApplications rt env w)) = table w
  /\ forall id, table (snd (Dal.getApplicationById rt env id w)) = table w.
Proof.
  split; [|intros id]; enter;
    destruct (getUser env) as [[[u|] [e|]]|e]; try reflexivity.
  - unfold Client.selectOrdered, send.
    now destruct (fault env) as [[e|]|e].
  - destruct (Dal.invalidId (trim id)); [reflexivity|].
    unfold Client.selectByIdMaybeSingle, send.
    destruct (fault env) as [[e|]|e]; try reflexivity.
    cbn. now destruct (Engine.maybeSingle _ _) as [d [e|]].
Qed.

(** X5: under a session of user u, no operation of the layer writes a row
    that is not u's: after getApplications, getApplicationById,
    createApplication, updateApplication or deleteApplication, with any
    input and whatever the engine does, the rows of the other users are the
    same rows in the same order. *)
Theorem rows_of_others_are_never_written
  (rt : Runtime) (env : Env) (u : User.t) (w : World) :
  signedIn env u ->
  rowsOfOthers u (table (snd (Dal.getApplications rt env w))) = rowsOfOthers u (table w)
  /\ (forall id, rowsOfOthers u (table (snd (Dal.getApplicationById rt env id w)))
                 = rowsOfOthers u (table w))
  /\ (forall data, rowsOfOthers u (table (snd (Dal.createApplication rt env data w)))
                   = rowsOfOthers u (table w))
  /\ (forall id data, rowsOfOthers u (table (snd (Dal.updateApplication rt env id data w)))
                      = rowsOfOthers u (table w))
  /\ (forall id, rowsOfOthers u (table (snd (Dal.deleteApplication rt env id w)))
                 = rowsOfOthers u (table w)).
Proof.
  intros H. destruct (reads_keep_table rt env w) as [Hall Hone].
  repeat split; intros.
  - now rewrite Hall.
  - now rewrite Hone.
  - destruct (Dal.createApplication rt env data w) as [res w'] eqn:E.
    apply (createApplication_grows _ _ u) in E as [E _]; [|exact H].
    now apply rowsOfOthers_grown.
  - destruct (Dal.updateApplication rt env id data w) as [res w'] eqn:E.
    apply (updateApplication_frame _ _ u) in E; [|exact H].
    eapply rowsOfOthers_framed. exact E.
  - destruct (deleteApplication_table rt env u w id H) as [->| ->];
      [reflexivity | apply rowsOfOthers_deleted].
Qed.

Lemma rows_of_others_are_never_written_witness :
  rowsOfOthers Fixture.bob
    (table (snd (Dal.deleteApplication node (Fixture.callBy Fixture.bob 20)
                   Fixture.acmeId Sample.shared)))
  = rowsOfOthers Fixture.bob (table Sample.shared).
Proof.
  apply (rows_of_others_are_never_written node (Fixture.callBy Fixture.bob 20)
           Fixture.bob Sample.shared). reflexivity.
Defined.

Lemma id_absent_existsb (v : jsstring) (t : list Application.t) :
  existsb (fun r => streq (Application.id r) v) t = false ->
  ~ In v (map Application.id t).
Proof.
  intros E Hin. apply in_map_iff in Hin as (r & <- & Hr).
  assert (existsb (fun r0 => streq (Application.id r0) (Application.id r)) t = true);
    [|congruence].
  apply existsb_exists. exists r. split; [exact Hr | apply streq_refl].
Qed.

(** The table after createApplication, whatever the engine does. *)
Lemma createApplication_table rt env u w data res w' :
  signedIn env u ->
  Dal.createApplication rt env data w = (res, w') ->
  table w' = table w
  \/ exists row,
       table w' = table w ++ [row]
       /\ Application.id row = gen_random_uuid env
       /\ ~ In (gen_random_uuid env) (map Application.id (table w)).
Proof.
  intros H. signed_in H.
  unfold Client.insertSelectSingle, send.
  rewrite (auth_uid_signedIn env u H).
  destruct (fault env) as [[e|]|e]; cbn; try (now intros [= <- <-]; left).
  destruct (Engine.record_in rt _) as [e|v'] eqn:Ev; cbn;
    [now intros [= <- <-]; left|].
  apply record_in_taken in Ev as (_ & _ & Hu & _).
  cbn [Engine.NewRow.user_id] in Hu.
  unfold Engine.insert.
  rewrite checkOk_owns, usingOk_owns by discriminate.
  rewrite (owns_self u) by exact Hu.
  cbn [Engine.newRow Application.id negb].
  destruct (existsb _ (table w)) eqn:E; cbn; intros [= <- <-]; [now left|].
  right. eexists. split; [reflexivity|]. split; [reflexivity|].
  now apply id_absent_existsb.
Qed.

Lemma ids_framed rt u id data t0 t t' :
  Forall2 (framed rt u id data t0) t t' -> map Application.id t' = map Application.id t.
Proof.
  induction 1 as [|old new t t' Hf _ IH]; [reflexivity|].
  simpl. rewrite IH. f_equal.
  destruct Hf as [->|(_ & _ & Hu)]; [reflexivity|]. apply Hu.
Qed.

Lemma NoDup_map_filter {A B} (g : A -> B) (p : A -> bool) (l : list A) :
  NoDup (map g l) -> NoDup (map g (filter p l)).
Proof.
  induction l as [|a l IH]; simpl; intros Hn; [constructor|].
  inversion Hn as [|? ? Hnot Hrest]; subst.
  destruct (p a); simpl; [constructor|]; auto.
  intros Hin. apply Hnot. apply in_map_iff in Hin as (b & Hb & Hin).
  apply filter_In in Hin as [Hin _]. rewrite <- Hb. now apply in_map.
Qed.

(** X6: the ids of the table stay distinct: from a table without repeated
    ids, createApplication (the engine refuses a generated id that is taken),
    updateApplication and deleteApplication lead to a table without repeated
    ids. *)
Theorem ids_stay_distinct (rt : Runtime) (env : Env) (u : User.t) (w : World) :
  signedIn env u ->
  NoDup (map Application.id (table w)) ->
  (forall data, NoDup (map Application.id
                         (table (snd (Dal.createApplication rt env data w)))))
  /\ (forall id data, NoDup (map Application.id
                               (table (snd (Dal.updateApplication rt env id data w)))))
  /\ (forall id, NoDup (map Application.id
                          (table (snd (Dal.deleteApplication rt env id w))))).
Proof.
  intros H Hn. repeat split; intros.
  - destruct (Dal.createApplication rt env data w) as [res w'] eqn:E.
    destruct (createApplication_table rt env u w data res w' H E)
      as [Ht|(row & Ht & Hrow & Hfresh)]; cbn [snd]; rewrite Ht; [exact Hn|].
    rewrite map_app. simpl. rewrite Hrow.
    apply NoDup_app; [exact Hn | repeat constructor; auto |].
    intros v Hv [<-|[]]. now apply Hfresh.
  - destruct (Dal.updateApplication rt env id data w) as [res w'] eqn:E.
    apply (updateApplication_frame _ _ u) in E; [|exact H].
    cbn [snd]. now rewrite (ids_framed _ _ _ _ _ _ _ E).
  - destruct (deleteApplication_table rt env u w id H) as [->| ->];
      [exact Hn | now apply NoDup_map_filter].
Qed.

Lemma ids_stay_distinct_witness :
  NoDup (map Application.id
           (table (snd (Dal.createApplication node (Fixture.callBy Fixture.alice 20)
                          Sample.newApplication Sample.shared)))).
Proof.
  apply (ids_stay_distinct node (Fixture.callBy Fixture.alice 20) Fixture.alice
           Sample.shared); [reflexivity|].
  repeat constructor; not_in_concrete.
Defined.

(** ** Further properties of the routes *)

Lemma startsWith_nil (s : jsstring) : startsWith s [] = true.
Proof. now destruct s. Qed.

Lemma startsWith_app (s x p : jsstring) :
  startsWith s p = true -> startsWith (s ++ x) p = true.
Proof.
  revert s; induction p as [|c p IH]; intros s H.
  - apply startsWith_nil.
  - destruct s as [|d s]; simpl in *; [discriminate|].
    apply andb_true_iff in H as [Hc Hs]. rewrite Hc. now apply IH.
Qed.

Lemma includes_app (s x p : jsstring) :
  includes s p = true -> includes (s ++ x) p = true.
Proof.
  induction s as [|d s IH]; intros H.
  - simpl in H. rewrite orb_false_r in H.
    destruct p; [|discriminate]. now destruct x.
  - cbn [includes] in H. apply orb_true_iff in H as [H|H].
    + change ((d :: s) ++ x) with (d :: (s ++ x)). cbn [includes].
      change (d :: (s ++ x)) with ((d :: s) ++ x).
      now rewrite (startsWith_app _ x _ H).
    + change ((d :: s) ++ x) with (d :: (s ++ x)). cbn [includes].
      rewrite (IH H). apply orb_true_r.
Qed.

Lemma isNotFound_delete (id : jsstring) :
  Api.isNotFound (lit "Application not found or access denied: " ++ id) = true.
Proof.
  unfold Api.isNotFound. rewrite includes_app; reflexivity.
Qed.

(** X7: under a session, when the engine answers and the id is well formed,
    the DELETE route answers 200 with the trimmed id when the caller owns a
    row with that id, and answers 404 'Application not found', with the table
    unchanged, when no row with that id is the caller's. *)
Theorem DELETE_answers_200_or_404
  (rt : Runtime) (env : Env) (u : User.t) (w : World) (id : jsstring) :
  signedIn env u -> fault env = Returns None -> id <> [] ->
  Dal.invalidId (trim id) = false ->
  ((exists r, In r (table w) /\ Engine.eq_id (trim id) r = true
              /\ Application.user_id r = User.id u) ->
   fst (Api.DELETE rt env id w)
   = Returns {| Api.body := Api.DeletedBody (lit "Application deleted successfully")
                                            (trim id);
                Api.status := 200 |})
  /\ ((forall r, In r (table w) -> Engine.eq_id (trim id) r = true ->
                 Application.user_id r <> User.id u) ->
      Api.DELETE rt env id w
      = (Returns {| Api.body := Api.ErrorBody (lit "Application not found");
                    Api.status := 404 |},
         {| table := table w; requests := requests w ++ [DeleteById (trim id)];
            console := console w |})).
Proof.
  intros H Hf Hne Hid.
  assert (Hrun : Api.DELETE rt env id w
                 = let (o, w') := Dal.deleteApplication rt env id w in
                   match o with
                   | Returns (Success data) =>
                       (Returns {| Api.body := Api.DeletedBody
                                     (lit "Application deleted successfully") data;
                                   Api.status := 200 |}, w')
                   | Returns (Failure error) =>
                       if Api.isNotFound error
                       then (Returns {| Api.body := Api.ErrorBody (lit "Application not found");
                                        Api.status := 404 |}, w')
                       else (Returns {| Api.body := Api.ErrorBody error;
                                        Api.status := 500 |}, w')
                   | Throws e =>
                       (Returns {| Api.body := Api.ErrorBody (lit "Internal server error");
                                   Api.status := 500 |},
                        {| table := table w'; requests := requests w';
                           console := console w'
                             ++ [(lit "Unexpected error in DELETE /api/applications/[id]:", e)] |})
                   end).
  { unfold Api.DELETE, try_catch, bind, lift, ret, Api.respond, console_error.
    rewrite H. cbn [authError user].
    destruct id as [|c id]; [congruence|]. cbn [truthy negb].
    destruct (Dal.deleteApplication rt env (c :: id) w) as [[[data|error]|e] w'];
      try reflexivity.
    now destruct (Api.isNotFound error). }
  rewrite Hrun, (deleteApplication_answer rt env u w id H Hf Hid).
  split.
  - intros (r & Hr & Heq & Ho).
    assert (Hin : In r (filter (Engine.eq_id (trim id)) (rowsOf u (table w)))).
    { apply filter_In. split; [|exact Heq].
      apply filter_In. split; [exact Hr | now apply owns_self]. }
    now destruct (filter _ (rowsOf u (table w))).
  - intros Hnone.
    assert (Hno : forall r, In r (table w) ->
              Engine.eq_id (trim id) r && owns (Some (User.id u)) r = false).
    { intros r Hr. destruct (Engine.eq_id (trim id) r) eqn:E; [|reflexivity].
      destruct (owns (Some (User.id u)) r) eqn:Ho; [|reflexivity].
      exfalso. apply (Hnone r Hr E). cbn in Ho. apply streq_eq in Ho. now symmetry. }
    unfold rowsOf. rewrite <- filter_and, (filter_none _ _ Hno).
    rewrite isNotFound_delete.
    rewrite filter_all; [reflexivity|].
    intros r Hr. now rewrite (Hno r Hr).
Qed.

Lemma DELETE_answers_200_or_404_witness :
  Api.DELETE node (Fixture.callBy Fixture.bob 20) Fixture.acmeId Sample.shared
  = (Returns {| Api.body := Api.ErrorBody (lit "Application not found");
                Api.status := 404 |},
     {| table := table Sample.shared;
        requests := requests Sample.shared ++ [DeleteById (trim Fixture.acmeId)];
        console := console Sample.shared |}).
Proof.
  apply (DELETE_answers_200_or_404 node (Fixture.callBy Fixture.bob 20) Fixture.bob
           Sample.shared Fixture.acmeId);
    [reflexivity | reflexivity | discriminate | reflexivity |].
  intros r Hr Heq Ho. vm_compute in Hr.
  destruct Hr as [<-|[<-|[<-|[]]]]; vm_compute in Heq, Ho; discriminate.
Defined.

(** X8: an id that is not a UUID after trimming is answered with status 500
    and 'Invalid application ID' by the DELETE route and, for a body the
    schema accepts, by the PATCH route; nothing is sent to the engine. *)
Theorem malformed_id_is_answered_500
  (rt : Runtime) (env : Env) (u : User.t) (w : World) (id : jsstring) :
  signedIn env u -> id <> [] ->
  matchClasses Dal.UUID_RE (trim id) = false ->
  Api.DELETE rt env id w
  = (Returns {| Api.body := Api.ErrorBody (lit "Invalid application ID");
                Api.status := 500 |}, w)
  /\ (forall request validatedData n,
        Api.NextRequest.json request = Some (JObject n) -> n <> [] ->
        Zod.updateApplicationSchema rt (prop n) = Zod.ParseOk validatedData ->
        Api.PATCH rt env request id w
        = (Returns {| Api.body := Api.ErrorBody (lit "Invalid application ID");
                      Api.status := 500 |}, w)).
Proof.
  intros H Hne Hbad.
  assert (Hinv : Dal.invalidId (trim id) = true).
  { unfold Dal.invalidId. rewrite Hbad. apply orb_true_r. }
  assert (Hdel : Dal.deleteApplication rt env id w
                 = (Returns (Failure (lit "Invalid application ID")), w)).
  { signed_in H. now rewrite Hinv. }
  assert (Hupd : forall data, Dal.updateApplication rt env id data w
                 = (Returns (Failure (lit "Invalid application ID")), w)).
  { intros data. signed_in H. now rewrite Hinv. }
  destruct id as [|c id]; [congruence|].
  split.
  - unfold Api.DELETE, try_catch, bind, lift, ret, Api.respond.
    rewrite H. cbn [authError user truthy negb]. now rewrite Hdel.
  - intros request validatedData [|m n] Hjson Hn Hparse; [congruence|].
    unfold Api.PATCH, try_catch, bind, lift, ret, Api.respond.
    rewrite H. cbn [authError user truthy negb]. rewrite Hjson.
    cbn [Object_keys_length List.length Zod.parseBody]. rewrite Hparse.
    now rewrite Hupd.
Qed.

Lemma malformed_id_is_answered_500_witness :
  Api.DELETE node (Fixture.callBy Fixture.alice 20) (lit "42") Sample.shared
  = (Returns {| Api.body := Api.ErrorBody (lit "Invalid application ID");
                Api.status := 500 |}, Sample.shared).
Proof.
  apply (malformed_id_is_answered_500 node (Fixture.callBy Fixture.alice 20)
           Fixture.alice Sample.shared (lit "42"));
    [reflexivity | discriminate | reflexivity].
Defined.

Ltac route :=
  unfold Api.POST, Api.PATCH, Api.DELETE, Api.createApplicationAction,
    Api.invalidJson, Api.validationFailed, Api.respond,
    try_catch, bind, lift, ret, throw, console_error.

(** X9: without a session (getUser reports an error or no user) the POST,
    PATCH and DELETE routes answer 401 'Unauthorized' whatever the body and
    the id, the server action answers 'User not authenticated', and the world
    is as it was: nothing is validated, sent or logged. *)
Theorem routes_refuse_without_session (rt : Runtime) (env : Env) (w : World) :
  signedOut env ->
  (forall request,
     Api.POST rt env request w
     = (Returns {| Api.body := Api.ErrorBody (lit "Unauthorized"); Api.status := 401 |}, w))
  /\ (forall request id,
        Api.PATCH rt env request id w
        = (Returns {| Api.body := Api.ErrorBody (lit "Unauthorized"); Api.status := 401 |}, w))
  /\ (forall id,
        Api.DELETE rt env id w
        = (Returns {| Api.body := Api.ErrorBody (lit "Unauthorized"); Api.status := 401 |}, w))
  /\ (forall formData,
        Api.createApplicationAction rt env formData w
        = (Returns (Api.ActionFailure (lit "User not authenticated")), w)).
Proof.
  intros (a & Hget & Hno).
  repeat split; intros; route; rewrite Hget;
    destruct (authError a), (user a); try reflexivity;
    destruct Hno; congruence.
Qed.

Lemma routes_refuse_without_session_witness :
  Api.DELETE node Fixture.expired Fixture.acmeId Sample.shared
  = (Returns {| Api.body := Api.ErrorBody (lit "Unauthorized"); Api.status := 401 |},
     Sample.shared).
Proof.
  apply (routes_refuse_without_session node Fixture.expired Sample.shared).
  exists {| user := None; authError := Some (lit "Auth session missing!") |}.
  split; [reflexivity | left; discriminate].
Defined.

(** X10: under a session, input the schema refuses never reaches storage:
    the POST and PATCH routes answer 400 'Validation failed' with the
    schema's issues, the server action returns the message of the first
    issue, a body that is not JSON is answered 400 'Invalid JSON', and in
    every case the world is as it was. *)
Theorem invalid_input_never_reaches_storage
  (rt : Runtime) (env : Env) (u : User.t) (w : World) :
  signedIn env u ->
  (forall body details,
     Zod.parseBody (Zod.createApplicationSchema rt) body = Zod.ZodError details ->
     Api.POST rt env {| Api.NextRequest.json := Some body |} w
     = (Returns {| Api.body := Api.ValidationBody (lit "Validation failed") details;
                   Api.status := 400 |}, w))
  /\ (forall id m members details,
        id <> [] ->
        Zod.updateApplicationSchema rt (prop (m :: members)) = Zod.ZodError details ->
        Api.PATCH rt env {| Api.NextRequest.json := Some (JObject (m :: members)) |} id w
        = (Returns {| Api.body := Api.ValidationBody (lit "Validation failed") details;
                      Api.status := 400 |}, w))
  /\ (forall formData issue issues,
        Zod.createApplicationSchema rt (Api.rawData formData)
        = Zod.ZodError (issue :: issues) ->
        Zod.message issue <> [] ->
        Api.createApplicationAction rt env formData w
        = (Returns (Api.ActionFailure (Zod.message issue)), w))
  /\ Api.POST rt env {| Api.NextRequest.json := None |} w
     = (Returns {| Api.body := Api.ErrorBody (lit "Invalid JSON"); Api.status := 400 |}, w)
  /\ (forall id, id <> [] ->
        Api.PATCH rt env {| Api.NextRequest.json := None |} id w
        = (Returns {| Api.body := Api.ErrorBody (lit "Invalid JSON"); Api.status := 400 |}, w)).
Proof.
  intros H. repeat split; intros.
  - route. rewrite H. cbn [authError user Api.NextRequest.json]. now rewrite H0.
  - route. rewrite H. cbn [authError user Api.NextRequest.json].
    destruct id; [congruence|].
    cbn [truthy negb Object_keys_length List.length Zod.parseBody]. now rewrite H1.
  - route. rewrite H. cbn [authError user]. rewrite H0.
    destruct (Zod.message issue); [congruence|reflexivity].
  - route. now rewrite H.
  - route. rewrite H. cbn [authError user Api.NextRequest.json].
    destruct id; [congruence|reflexivity].
Qed.

Lemma invalid_input_never_reaches_storage_witness :
  Api.POST node (Fixture.callBy Fixture.alice 20) {| Api.NextRequest.json := None |}
    Sample.shared
  = (Returns {| Api.body := Api.ErrorBody (lit "Invalid JSON"); Api.status := 400 |},
     Sample.shared).
Proof.
  apply (invalid_input_never_reaches_storage node (Fixture.callBy Fixture.alice 20)
           Fixture.alice Sample.shared). reflexivity.
Defined.

(** X11: an empty company_name is refused by name: the POST route answers 400
    with an issue at path company_name saying 'Company name is required', the
    server action returns that message, the PATCH route answers 400 with
    'Company name cannot be empty' at that path, and no row is stored or
    changed. *)
Theorem empty_company_name_is_refused
  (rt : Runtime) (env : Env) (u : User.t) (w : World) :
  signedIn env u ->
  (forall members,
     prop members (lit "company_name") = VString [] ->
     exists details,
       Api.POST rt env {| Api.NextRequest.json := Some (JObject members) |} w
       = (Returns {| Api.body := Api.ValidationBody (lit "Validation failed") details;
                     Api.status := 400 |}, w)
       /\ In {| Zod.path := [lit "company_name"];
                Zod.message := lit "Company name is required" |} details)
  /\ (forall formData,
        Api.get formData (lit "company_name") = VString [] ->
        Api.createApplicationAction rt env formData w
        = (Returns (Api.ActionFailure (lit "Company name is required")), w))
  /\ (forall id members,
        id <> [] ->
        prop members (lit "company_name") = VString [] ->
        exists details,
          Api.PATCH rt env {| Api.NextRequest.json := Some (JObject members) |} id w
          = (Returns {| Api.body := Api.ValidationBody (lit "Validation failed") details;
                        Api.status := 400 |}, w)
          /\ In {| Zod.path := [lit "company_name"];
                   Zod.message := lit "Company name cannot be empty" |} details).
Proof.
  intros H. repeat split; intros.
  - route. rewrite H. cbn [authError user Api.NextRequest.json Zod.parseBody].
    unfold Zod.createApplicationSchema. rewrite H0.
    cbn [Zod.text List.length Nat.ltb Nat.leb Zod.check app].
    eexists. split; [reflexivity|]. now left.
  - route. rewrite H. cbn [authError user].
    unfold Zod.createApplicationSchema.
    change (Api.rawData formData (lit "company_name"))
      with (Api.get formData (lit "company_name")).
    rewrite H0. reflexivity.
  - route. rewrite H. cbn [authError user Api.NextRequest.json].
    destruct id; [congruence|]. cbn [truthy negb].
    destruct members as [|m members]; [discriminate|].
    cbn [Object_keys_length List.length Zod.parseBody].
    unfold Zod.updateApplicationSchema. rewrite H1.
    cbn [Zod.optional Zod.text List.length Nat.ltb Nat.leb Zod.check app].
    eexists. split; [reflexivity|]. now left.
Qed.

Lemma empty_company_name_is_refused_witness :
  Api.createApplicationAction node (Fixture.callBy Fixture.alice 20)
    [(lit "company_name", Api.FString []);
     (lit "position_title", Api.FString (lit "Engineer"))] Sample.shared
  = (Returns (Api.ActionFailure (lit "Company name is required")), Sample.shared).
Proof.
  apply (empty_company_name_is_refused node (Fixture.callBy Fixture.alice 20)
           Fixture.alice Sample.shared); reflexivity.
Defined.

(** ** Further properties of the schemas *)

Lemma length_trimStart (s : jsstring) : (List.length (trimStart s) <= List.length s)%nat.
Proof.
  destruct (trimStart_suffix s) as [pre H].
  rewrite H at 2. rewrite length_app. lia.
Qed.

Lemma length_trim (s : jsstring) : (List.length (trim s) <= List.length s)%nat.
Proof.
  unfold trim, trimEnd. rewrite length_rev.
  etransitivity; [apply length_trimStart|].
  rewrite length_rev. apply length_trimStart.
Qed.

Lemma trim_trimmed (s : jsstring) : clean (trim s) /\ clean (rev (trim s)).
Proof.
  split.
  - apply trimEnd_clean, trimStart_clean.
  - unfold trim, trimEnd. rewrite rev_involutive. apply trimStart_clean.
Qed.

Lemma text_accepts min_msg max_msg v c :
  Zod.text min_msg max_msg v = inr c ->
  exists s, v = VString s /\ c = trim s
            /\ (1 <= List.length s)%nat /\ (List.length s <= 200)%nat.
Proof.
  destruct v as [| |s|t]; simpl; try discriminate.
  unfold Zod.check.
  destruct (Nat.ltb (List.length s) 1) eqn:E1; [discriminate|].
  destruct (Nat.ltb 200 (List.length s)) eqn:E2; [discriminate|].
  intros [= <-]. exists s.
  apply Nat.ltb_ge in E1, E2. auto.
Qed.

Lemma date_accepts rt v c :
  Zod.date rt v = inr c ->
  v = VString c /\ matchClasses Zod.DATE_RE c = true /\ date_parses rt c = true.
Proof.
  unfold Zod.date, Zod.check. destruct v as [| |s|t]; try discriminate.
  destruct (matchClasses Zod.DATE_RE s) eqn:E1, (date_parses rt s) eqn:E2;
    cbn [negb app]; try discriminate.
  intros Heq. inversion Heq. subst. auto.
Qed.

Lemma notes_accepts v n :
  Zod.notesField v = inr n ->
  match n with
  | undefined => v = VUndefined
  | null => exists s, v = VString s /\ s <> [] /\ trim s = []
                      /\ (List.length s <= 2000)%nat
  | value s => v = VString s /\ (List.length s <= 2000)%nat
               /\ (s = [] \/ trim s <> [])
  end.
Proof.
  unfold Zod.notesField, Zod.optional.
  destruct v as [| |s|t]; try discriminate.
  - now intros [= <-].
  - unfold Zod.check.
    destruct (Nat.ltb 2000 (List.length s)) eqn:E; [discriminate|].
    apply Nat.ltb_ge in E. unfold Zod.notesTransform.
    destruct s as [|c s]; [intros [= <-]; auto|]. cbn [truthy andb].
    destruct (streq (trim (c :: s)) []) eqn:Et; intros [= <-].
    + apply streq_eq in Et. exists (c :: s). repeat split; auto. discriminate.
    + repeat split; auto. right. intros Ht. rewrite Ht in Et. discriminate.
Qed.

Lemma lookupStatus_names (name : jsstring) (st : ApplicationStatus) :
  Zod.lookupStatus name applicationStatuses = Some st ->
  In (name, st) applicationStatuses.
Proof.
  unfold applicationStatuses. simpl.
  repeat (match goal with
          | |- (if streq ?a ?b then _ else _) = _ -> _ =>
              let E := fresh "E" in
              destruct (streq a b) eqn:E;
              [ apply streq_eq in E; subst; intros [= <-]; simpl; tauto | ]
          end).
  discriminate.
Qed.

(** X12: data the create schema accepts is bounded: company_name and
    position_title are trimmed and at most 200 code units long,
    application_date has the form YYYY-MM-DD and parses as a date, status is
    one of the five names, and notes, when a string, are at most 2000 code
    units long and either empty or not blank. *)
Theorem validated_create_data_is_bounded
  (rt : Runtime) (get : jsstring -> jsvalue) (d : CreateData.t) :
  Zod.createApplicationSchema rt get = Zod.ParseOk d ->
  (List.length (CreateData.company_name d) <= 200)%nat
  /\ trim (CreateData.company_name d) = CreateData.company_name d
  /\ (List.length (CreateData.position_title d) <= 200)%nat
  /\ trim (CreateData.position_title d) = CreateData.position_title d
  /\ matchClasses Zod.DATE_RE (CreateData.application_date d) = true
  /\ date_parses rt (CreateData.application_date d) = true
  /\ (exists name, get (lit "status") = VString name
                   /\ In (name, CreateData.status d) applicationStatuses)
  /\ match CreateData.notes d with
     | value s => (List.length s <= 2000)%nat /\ (s = [] \/ trim s <> [])
     | _ => True
     end.
Proof.
  unfold Zod.createApplicationSchema.
  destruct (Zod.text _ _ (get (lit "company_name"))) as [?|c] eqn:Ec; [discriminate|].
  destruct (Zod.text _ _ (get (lit "position_title"))) as [?|p] eqn:Ep; [discriminate|].
  destruct (Zod.date rt (get (lit "application_date"))) as [?|dt] eqn:Ed; [discriminate|].
  destruct (Zod.statusEnum (get (lit "status"))) as [?|st] eqn:Es; [discriminate|].
  destruct (Zod.notesField (get (lit "notes"))) as [?|n] eqn:En; [discriminate|].
  intros [= <-]. cbn.
  apply text_accepts in Ec as (sc & _ & -> & _ & Hc).
  apply text_accepts in Ep as (sp & _ & -> & _ & Hp).
  apply date_accepts in Ed as (_ & Hre & Hdate).
  apply notes_accepts in En.
  repeat split.
  - pose proof (length_trim sc). lia.
  - apply trim_idem.
  - pose proof (length_trim sp). lia.
  - apply trim_idem.
  - exact Hre.
  - exact Hdate.
  - unfold Zod.statusEnum in Es.
    destruct (get (lit "status")) as [| |name|t]; try discriminate.
    destruct (Zod.lookupStatus name applicationStatuses) as [st'|] eqn:El;
      [|discriminate].
    injection Es as <-. exists name. split; [reflexivity|].
    now apply lookupStatus_names.
  - destruct n as [| |s]; auto. tauto.
Qed.

Lemma validated_create_data_is_bounded_witness :
  (List.length (lit "Acme") <= 200)%nat.
Proof.
  apply (validated_create_data_is_bounded node
           (prop [(lit "company_name", JString (lit "  Acme "));
                  (lit "position_title", JString (lit "Engineer"));
                  (lit "application_date", JString (lit "2026-01-10"));
                  (lit "status", JString (lit "applied"))])
           {| CreateData.company_name := lit "Acme";
              CreateData.position_title := lit "Engineer";
              CreateData.application_date := lit "2026-01-10";
              CreateData.status := applied;
              CreateData.notes := undefined |}).
  reflexivity.
Defined.

Lemma trim_blank (s : jsstring) :
  Forall (fun c => isWhiteSpace c = true) s -> trim s = [].
Proof.
  intros H. unfold trim.
  assert (trimStart s = []) as ->; [|reflexivity].
  rewrite <- (app_nil_r s). now apply trimStart_padded.
Qed.

(** X13: a company_name made of whitespace only (1 to 200 code units) passes
    the length checks, which run before the trim, and comes out as the empty
    string: with the other fields valid the create schema accepts the input
    with company_name '', and the update schema yields company_name ''. *)
Theorem blank_company_name_is_stored_empty
  (rt : Runtime) (get : jsstring -> jsvalue) (s : jsstring) :
  get (lit "company_name") = VString s ->
  s <> [] -> (List.length s <= 200)%nat ->
  Forall (fun c => isWhiteSpace c = true) s ->
  (forall p dt st n,
     Zod.text "Position title is required"
              "Position title must be less than 200 characters"
              (get (lit "position_title")) = inr p ->
     Zod.date rt (get (lit "application_date")) = inr dt ->
     Zod.statusEnum (get (lit "status")) = inr st ->
     Zod.notesField (get (lit "notes")) = inr n ->
     Zod.createApplicationSchema rt get
     = Zod.ParseOk {| CreateData.company_name := [];
                      CreateData.position_title := p;
                      CreateData.application_date := dt;
                      CreateData.status := st;
                      CreateData.notes := n |})
  /\ (forall d, Zod.createApplicationSchema rt get = Zod.ParseOk d ->
                CreateData.company_name d = [])
  /\ (forall d, Zod.updateApplicationSchema rt get = Zod.ParseOk d ->
                UpdateData.company_name d = Some []).
Proof.
  intros Hget Hne Hlen Hblank.
  assert (Htext : forall a b, Zod.text a b (VString s) = inr []).
  { intros a b. simpl. unfold Zod.check.
    destruct s as [|c s']; [congruence|].
    replace (Nat.ltb (List.length (c :: s')) 1) with false by reflexivity.
    replace (Nat.ltb 200 (List.length (c :: s'))) with false
      by (symmetry; apply Nat.ltb_ge; exact Hlen).
    simpl. now rewrite (trim_blank _ Hblank). }
  repeat split.
  - intros p dt st n Hp Hd Hs Hn. unfold Zod.createApplicationSchema.
    now rewrite Hget, Htext, Hp, Hd, Hs, Hn.
  - intros d. unfold Zod.createApplicationSchema. rewrite Hget, Htext.
    destruct (Zod.text _ _ (get (lit "position_title"))); [discriminate|].
    destruct (Zod.date rt _); [discriminate|].
    destruct (Zod.statusEnum _); [discriminate|].
    destruct (Zod.notesField _); [discriminate|].
    now intros [= <-].
  - intros d. unfold Zod.updateApplicationSchema, Zod.optional at 1.
    rewrite Hget, Htext.
    destruct (Zod.optional _ (get (lit "position_title"))); [discriminate|].
    destruct (Zod.optional _ (get (lit "application_date"))); [discriminate|].
    destruct (Zod.optional _ (get (lit "status"))); [discriminate|].
    destruct (Zod.notesField _); [discriminate|].
    now intros [= <-].
Qed.

Lemma blank_company_name_is_stored_empty_witness :
  Zod.createApplicationSchema node
    (prop [(lit "company_name", JString (lit "   "));
           (lit "position_title", JString (lit "Engineer"));
           (lit "application_date", JString (lit "2026-01-10"));
           (lit "status", JString (lit "applied"))])
  = Zod.ParseOk {| CreateData.company_name := [];
                   CreateData.position_title := lit "Engineer";
                   CreateData.application_date := lit "2026-01-10";
                   CreateData.status := applied;
                   CreateData.notes := undefined |}.
Proof.
  apply (blank_company_name_is_stored_empty node
           (prop [(lit "company_name", JString (lit "   "));
                  (lit "position_title", JString (lit "Engineer"));
                  (lit "application_date", JString (lit "2026-01-10"));
                  (lit "status", JString (lit "applied"))])
           (lit "   ")); try reflexivity.
  - discriminate.
  - vm_compute. lia.
  - repeat constructor.
Defined.

(** ** The application form *)

Lemma get_toFormData_notes (data : CreateData.t) :
  ApplicationForm.hasNotes (CreateData.notes data) = false ->
  Api.rawData (ApplicationForm.toFormData data) (lit "notes") = VNull.
Proof.
  unfold ApplicationForm.toFormData, ApplicationForm.hasNotes.
  destruct (CreateData.notes data) as [| |s]; try reflexivity.
  destruct s; [reflexivity|discriminate].
Qed.

(** X14: a submission of the form whose notes are empty or absent never
    saves: onSubmit leaves the notes entry out of the form data, the server
    action reads it as null, the schema refuses null ('Expected string,
    received null' at path notes), so whatever the session and the other
    fields, the table is unchanged, no query is sent and serverError is set. *)
Theorem form_without_notes_never_saves
  (rt : Runtime) (env : Env) (data : CreateData.t) (w : World) :
  ApplicationForm.hasNotes (CreateData.notes data) = false ->
  fst (ApplicationForm.onSubmit rt env data w) <> None
  /\ table (snd (ApplicationForm.onSubmit rt env data w)) = table w
  /\ requests (snd (ApplicationForm.onSubmit rt env data w)) = requests w
  /\ (exists issues,
        Zod.createApplicationSchema rt (Api.rawData (ApplicationForm.toFormData data))
        = Zod.ZodError issues
        /\ In {| Zod.path := [lit "notes"];
                 Zod.message := lit "Expected string, received null" |} issues).
Proof.
  intros Hn.
  assert (Hparse : exists issues,
            Zod.createApplicationSchema rt (Api.rawData (ApplicationForm.toFormData data))
            = Zod.ZodError issues
            /\ In {| Zod.path := [lit "notes"];
                     Zod.message := lit "Expected string, received null" |} issues).
  { unfold Zod.createApplicationSchema.
    rewrite (get_toFormData_notes data Hn).
    change (Zod.notesField VNull)
      with (@inl (list jsstring) (Nullish jsstring) [lit "Expected string, received null"]).
    set (c := Zod.text "Company name is required"
                       "Company name must be less than 200 characters" _).
    set (p := Zod.text "Position title is required"
                       "Position title must be less than 200 characters" _).
    set (d := Zod.date rt _).
    set (s := Zod.statusEnum _).
    exists (Zod.issuesAt "company_name" c ++ Zod.issuesAt "position_title" p
            ++ Zod.issuesAt "application_date" d ++ Zod.issuesAt "status" s
            ++ Zod.issuesAt "notes"
                 (@inl (list jsstring) (Nullish jsstring)
                       [lit "Expected string, received null"])).
    split; [now destruct c, p, d, s|].
    rewrite !in_app_iff. do 4 right. now left. }
  destruct Hparse as (issues & Hparse & Hin).
  assert (Hrun : forall o w', Api.createApplicationAction rt env
                                (ApplicationForm.toFormData data) w = (o, w') ->
            (forall p, o <> Returns (Api.Redirect p))
            /\ table w' = table w /\ requests w' = requests w).
  { unfold Api.createApplicationAction, bind, lift, ret. rewrite Hparse.
    destruct (getUser env) as [[[u|] [e|]]|e]; cbn;
      intros o w' [= <- <-]; repeat split; discriminate. }
  unfold ApplicationForm.onSubmit.
  destruct (Api.createApplicationAction rt env (ApplicationForm.toFormData data) w)
    as [o w'] eqn:E.
  destruct (Hrun o w' eq_refl) as (Hnot & Ht & Hr).
  repeat split.
  - destruct o as [[error|p]|e]; cbn; try discriminate.
    exfalso. now apply (Hnot p).
  - now destruct o as [[error|p]|e].
  - now destruct o as [[error|p]|e].
  - now exists issues.
Qed.

Lemma form_without_notes_never_saves_witness :
  table (snd (ApplicationForm.onSubmit node (Fixture.callBy Fixture.alice 20)
                Sample.newApplication Sample.shared))
  = table Sample.shared.
Proof.
  apply (form_without_notes_never_saves node (Fixture.callBy Fixture.alice 20)
           Sample.newApplication Sample.shared). reflexivity.
Defined.

(** ** The insights layer *)

Section Counting.

Context {K : Type} (eqb : K -> K -> bool).
Hypothesis eqb_eq : forall a b, eqb a b = true <-> a = b.

Lemma eqb_same (a : K) : eqb a a = true.
Proof. now apply eqb_eq. Qed.

Lemma eqb_sym (a b : K) : eqb a b = eqb b a.
Proof.
  destruct (eqb a b) eqn:E1, (eqb b a) eqn:E2; try reflexivity.
  - apply eqb_eq in E1. subst. now rewrite eqb_same in E2.
  - apply eqb_eq in E2. subst. now rewrite eqb_same in E1.
Qed.

Lemma tallyOf_increment (k x : K) (acc : list (K * nat)) :
  tallyOf eqb k (Insights.increment eqb x acc)
  = (tallyOf eqb k acc + if eqb k x then 1 else 0)%nat.
Proof.
  induction acc as [|[k' n] acc IH]; simpl.
  - now destruct (eqb k x).
  - destruct (eqb x k') eqn:Ex; simpl.
    + apply eqb_eq in Ex. subst k'.
      destruct (eqb k x); lia.
    + destruct (eqb k k') eqn:Ek; [|exact IH].
      apply eqb_eq in Ek. subst k'.
      rewrite eqb_sym, Ex. lia.
Qed.

Lemma occurrences_snoc (k x : K) (l : list K) :
  occurrences eqb k (l ++ [x])
  = (occurrences eqb k l + if eqb k x then 1 else 0)%nat.
Proof.
  unfold occurrences. rewrite filter_app, length_app. simpl.
  now destruct (eqb k x).
Qed.

Lemma countBy_snoc (x : K) (l : list K) :
  Insights.countBy eqb (l ++ [x])
  = Insights.increment eqb x (Insights.countBy eqb l).
Proof. unfold Insights.countBy. now rewrite fold_left_app. Qed.

Lemma tallyOf_countBy (k : K) (l : list K) :
  tallyOf eqb k (Insights.countBy eqb l) = occurrences eqb k l.
Proof.
  induction l as [|x l IH] using rev_ind; [reflexivity|].
  now rewrite countBy_snoc, tallyOf_increment, occurrences_snoc, IH.
Qed.

Lemma keys_increment (x : K) (acc : list (K * nat)) :
  map fst (Insights.increment eqb x acc) = map fst acc
  \/ (map fst (Insights.increment eqb x acc) = map fst acc ++ [x]
      /\ ~ In x (map fst acc)).
Proof.
  induction acc as [|[k n] acc IH]; simpl.
  - right. split; [reflexivity | tauto].
  - destruct (eqb x k) eqn:E; simpl; [now left|].
    destruct IH as [->|[-> Hnot]]; [now left|right].
    split; [reflexivity|]. intros [<-|Hin]; [|now apply Hnot].
    now rewrite eqb_same in E.
Qed.

Lemma NoDup_snoc {A} (l : list A) (x : A) :
  NoDup l -> ~ In x l -> NoDup (l ++ [x]).
Proof.
  intros Hn Hx. apply NoDup_app; [exact Hn | repeat constructor; auto |].
  intros a Ha [<-|[]]. now apply Hx.
Qed.

Lemma keys_countBy (l : list K) : NoDup (map fst (Insights.countBy eqb l)).
Proof.
  induction l as [|x l IH] using rev_ind; [constructor|].
  rewrite countBy_snoc.
  destruct (keys_increment x (Insights.countBy eqb l)) as [->|[-> Hnot]];
    [exact IH | now apply NoDup_snoc].
Qed.

Lemma positive_increment (x : K) (acc : list (K * nat)) :
  Forall (fun e => 0 < snd e)%nat acc ->
  Forall (fun e => 0 < snd e)%nat (Insights.increment eqb x acc).
Proof.
  induction 1 as [|[k n] acc Hn Hacc IH]; simpl.
  - repeat constructor.
  - destruct (eqb x k); constructor; auto; simpl in *; lia.
Qed.

Lemma positive_countBy (l : list K) :
  Forall (fun e => 0 < snd e)%nat (Insights.countBy eqb l).
Proof.
  induction l as [|x l IH] using rev_ind; [constructor|].
  rewrite countBy_snoc. now apply positive_increment.
Qed.

Lemma sum_increment (x : K) (acc : list (K * nat)) :
  list_sum (map snd (Insights.increment eqb x acc)) = S (list_sum (map snd acc)).
Proof.
  induction acc as [|[k n] acc IH]; simpl; [reflexivity|].
  destruct (eqb x k); simpl; [lia|]. rewrite IH. lia.
Qed.

Lemma sum_countBy (l : list K) :
  list_sum (map snd (Insights.countBy eqb l)) = List.length l.
Proof.
  induction l as [|x l IH] using rev_ind; [reflexivity|].
  rewrite countBy_snoc, sum_increment, IH, length_app. simpl. lia.
Qed.

Lemma tallyOf_absent (k : K) (acc : list (K * nat)) :
  ~ In k (map fst acc) -> tallyOf eqb k acc = 0%nat.
Proof.
  induction acc as [|[k' n] acc IH]; simpl; intros H; [reflexivity|].
  destruct (eqb k k') eqn:E.
  - apply eqb_eq in E. subst. tauto.
  - apply IH. tauto.
Qed.

Lemma in_tallyOf (k : K) (n : nat) (acc : list (K * nat)) :
  NoDup (map fst acc) -> In (k, n) acc -> tallyOf eqb k acc = n.
Proof.
  induction acc as [|[k' m] acc IH]; simpl; intros Hn Hin; [tauto|].
  inversion Hn as [|? ? Hnot Hrest]; subst.
  destruct Hin as [[= -> ->]|Hin].
  - now rewrite eqb_same.
  - destruct (eqb k k') eqn:E; [|now apply IH].
    apply eqb_eq in E. subst. exfalso. apply Hnot.
    change k' with (fst (k', n)). now apply in_map.
Qed.

Lemma tallyOf_in (k : K) (acc : list (K * nat)) :
  (0 < tallyOf eqb k acc)%nat -> In (k, tallyOf eqb k acc) acc.
Proof.
  induction acc as [|[k' m] acc IH]; simpl; intros H; [lia|].
  destruct (eqb k k') eqn:E.
  - apply eqb_eq in E. subst. now left.
  - right. now apply IH.
Qed.

(** The entries of the counts of a list: one per element that occurs, with
    the number of its occurrences. *)
Lemma countBy_entries (l : list K) (k : K) (n : nat) :
  In (k, n) (Insights.countBy eqb l) <-> n = occurrences eqb k l /\ (0 < n)%nat.
Proof.
  split.
  - intros Hin. split.
    + rewrite <- tallyOf_countBy. symmetry.
      apply in_tallyOf; [apply keys_countBy | exact Hin].
    + pose proof (positive_countBy l) as Hp. rewrite Forall_forall in Hp.
      apply (Hp _ Hin).
  - intros [-> Hpos]. rewrite <- tallyOf_countBy in *. now apply tallyOf_in.
Qed.

End Counting.

Lemma ApplicationStatus_eqb_eq (a b : ApplicationStatus) :
  Insights.ApplicationStatus_eqb a b = true <-> a = b.
Proof. destruct a, b; simpl; split; congruence. Qed.

Lemma select_all_rows (u : User.t) (t : list Application.t) :
  Engine.select (Some (User.id u)) (fun _ => true) t = rowsOf u t.
Proof.
  unfold Engine.select, rowsOf. apply filter_ext. intros r.
  now rewrite usingOk_owns by discriminate.
Qed.

Ltac insight :=
  unfold Insights.getTotalApplicationCount, Insights.getApplicationCountsByStatus,
    Insights.getApplicationCountsByDate, Insights.unauthenticated,
    Insights.try_catch, Insights.bind, Insights.ret, Insights.inWorld, lift.

Lemma getApplications_rows rt env u w :
  signedIn env u -> fault env = Returns None ->
  exists l, fst (Dal.getApplications rt env w) = Returns (Success (Some l))
            /\ Permutation l (rowsOf u (table w)).
Proof.
  intros H Hf. exists (Engine.orderByCreatedAtDesc (rowsOf u (table w))).
  split; [|apply orderByCreatedAtDesc_perm].
  signed_in H. unfold Client.selectOrdered, send.
  now rewrite (auth_uid_signedIn env u H), Hf, select_all_rows.
Qed.

(** X15: under a session, when the engine answers, getTotalApplicationCount
    sends one head request and returns the number of rows the caller owns,
    which is the length of the list getApplications returns on the same
    table. *)
Theorem total_count_is_the_number_of_own_rows
  (rt : Runtime) (env : Env) (u : User.t) (s : Insights.State) :
  signedIn env u -> fault env = Returns None ->
  Insights.getTotalApplicationCount env s
  = (Returns (Success {| Insights.total := List.length (rowsOf u (table (Insights.world s))) |}),
     {| Insights.world := Insights.world s;
        Insights.sent := Insights.sent s ++ [Insights.CountExact] |})
  /\ forall l, fst (Dal.getApplications rt env (Insights.world s)) = Returns (Success (Some l)) ->
               List.length l = List.length (rowsOf u (table (Insights.world s))).
Proof.
  intros H Hf. split.
  - insight. rewrite H. cbn [authError user].
    unfold Insights.countExact, Insights.send.
    rewrite (auth_uid_signedIn env u H), Hf, select_all_rows.
    now destruct s.
  - intros l Hl.
    destruct (getApplications_rows rt env u (Insights.world s) H Hf) as (l' & Hrun & Hperm).
    rewrite Hrun in Hl. injection Hl as <-.
    now apply Permutation_length.
Qed.

Lemma total_count_is_the_number_of_own_rows_witness :
  Insights.getTotalApplicationCount (Fixture.callBy Fixture.alice 20)
    (Sample.insights Sample.shared)
  = (Returns (Success {| Insights.total := 2 |}),
     {| Insights.world := Sample.shared;
        Insights.sent := [Insights.CountExact] |})
  /\ forall l,
       fst (Dal.getApplications node (Fixture.callBy Fixture.alice 20) Sample.shared)
       = Returns (Success (Some l)) ->
       List.length l = 2%nat.
Proof.
  apply (total_count_is_the_number_of_own_rows node (Fixture.callBy Fixture.alice 20)
           Fixture.alice (Sample.insights Sample.shared)); reflexivity.
Defined.

(** X16: under a session, when the engine answers, getApplicationCountsByStatus
    returns one entry per status that occurs among the caller's rows, no
    status twice, each with the number of the caller's rows in that status
    (never zero), and the counts add up to the number of the caller's rows. *)
Theorem status_counts_tally_own_rows (env : Env) (u : User.t) (s : Insights.State) :
  signedIn env u -> fault env = Returns None ->
  exists result,
    Insights.getApplicationCountsByStatus env s
    = (Returns (Success result),
       {| Insights.world := Insights.world s;
          Insights.sent := Insights.sent s ++ [Insights.SelectStatus] |})
    /\ NoDup (map Insights.StatusCount.status result)
    /\ (forall st n,
          In {| Insights.StatusCount.status := st; Insights.StatusCount.count := n |} result
          <-> n = occurrences Insights.ApplicationStatus_eqb st
                    (map Application.status (rowsOf u (table (Insights.world s))))
              /\ (0 < n)%nat)
    /\ list_sum (map Insights.StatusCount.count result)
       = List.length (rowsOf u (table (Insights.world s))).
Proof.
  intros H Hf.
  set (statuses := map Application.status (rowsOf u (table (Insights.world s)))).
  set (counts := Insights.countBy Insights.ApplicationStatus_eqb statuses).
  exists (map (fun e => {| Insights.StatusCount.status := fst e;
                           Insights.StatusCount.count := snd e |}) counts).
  split; [|split; [|split]].
  - insight. rewrite H. cbn [authError user].
    unfold Insights.selectStatus, Insights.send.
    rewrite (auth_uid_signedIn env u H), Hf, select_all_rows.
    now destruct s.
  - rewrite map_map. cbn [Insights.StatusCount.status].
    apply (keys_countBy _ ApplicationStatus_eqb_eq).
  - intros st n.
    rewrite <- (countBy_entries _ ApplicationStatus_eqb_eq statuses st n).
    fold counts. rewrite in_map_iff. split.
    + intros ([k m] & [= <- <-] & Hin). exact Hin.
    + intros Hin. now exists (st, n).
  - rewrite map_map. cbn [Insights.StatusCount.count].
    unfold counts. rewrite (sum_countBy _ statuses).
    unfold statuses. apply length_map.
Qed.

Lemma status_counts_tally_own_rows_witness :
  exists result,
    Insights.getApplicationCountsByStatus (Fixture.callBy Fixture.alice 20)
      (Sample.insights Sample.shared)
    = (Returns (Success result),
       {| Insights.world := Sample.shared;
          Insights.sent := [Insights.SelectStatus] |})
    /\ NoDup (map Insights.StatusCount.status result)
    /\ (forall st n,
          In {| Insights.StatusCount.status := st; Insights.StatusCount.count := n |} result
          <-> n = occurrences Insights.ApplicationStatus_eqb st
                    (map Application.status (rowsOf Fixture.alice (table Sample.shared)))
              /\ (0 < n)%nat)
    /\ list_sum (map Insights.StatusCount.count result)
       = List.length (rowsOf Fixture.alice (table Sample.shared)).
Proof.
  apply (status_counts_tally_own_rows (Fixture.callBy Fixture.alice 20) Fixture.alice
           (Sample.insights Sample.shared)); reflexivity.
Defined.

Lemma insertSorted_perm {A} (cmp : A -> A -> comparison) (x : A) (l : list A) :
  Permutation (Insights.insertSorted cmp x l) (x :: l).
Proof.
  induction l as [|y l IH]; simpl; [reflexivity|].
  destruct (cmp x y); try reflexivity.
  rewrite IH. apply perm_swap.
Qed.

Lemma sort_perm {A} (cmp : A -> A -> comparison) (l : list A) :
  Permutation (Insights.sort cmp l) l.
Proof.
  induction l as [|x l IH]; simpl; [reflexivity|].
  unfold Insights.sort in *. simpl. rewrite insertSorted_perm. now constructor.
Qed.

Lemma insertSorted_sorted {A} (cmp : A -> A -> comparison) (x : A) (l : list A) :
  (forall a b, cmp a b = Gt -> cmp b a <> Gt) ->
  Sorted (fun a b => cmp a b <> Gt) l ->
  Sorted (fun a b => cmp a b <> Gt) (Insights.insertSorted cmp x l).
Proof.
  intros Htot. induction l as [|y l IH]; intros Hs; simpl.
  - repeat constructor.
  - destruct (cmp x y) eqn:E.
    + constructor; [exact Hs|]. constructor. congruence.
    + constructor; [exact Hs|]. constructor. congruence.
    + inversion Hs as [|? ? Hs' Hhd]; subst.
      constructor; [now apply IH|].
      destruct l as [|z l]; simpl.
      * constructor. now apply Htot.
      * destruct (cmp x z); constructor; try (now apply Htot).
        now inversion Hhd.
Qed.

Lemma sort_sorted {A} (cmp : A -> A -> comparison) (l : list A) :
  (forall a b, cmp a b = Gt -> cmp b a <> Gt) ->
  Sorted (fun a b => cmp a b <> Gt) (Insights.sort cmp l).
Proof.
  intros Htot. induction l as [|x l IH]; [constructor|].
  unfold Insights.sort in *. simpl. now apply insertSorted_sorted.
Qed.

Lemma insertIndex_perm {A} (e : jsstring * A) (l : list (jsstring * A)) :
  Permutation (Insights.insertIndex e l) (e :: l).
Proof.
  induction l as [|x l IH]; simpl; [reflexivity|].
  destruct (_ <=? _); [reflexivity|]. rewrite IH. apply perm_swap.
Qed.

Lemma partition_perm {A} (p : A -> bool) (l : list A) :
  Permutation (filter p l ++ filter (fun a => negb (p a)) l) l.
Proof.
  induction l as [|a l IH]; simpl; [reflexivity|].
  destruct (p a); simpl.
  - now constructor.
  - rewrite <- Permutation_middle. now constructor.
Qed.

Lemma Object_entries_perm {A} (obj : list (jsstring * A)) :
  Permutation (Insights.Object_entries obj) obj.
Proof.
  unfold Insights.Object_entries.
  rewrite <- (partition_perm (fun e => Insights.isArrayIndex (fst e)) obj) at 3.
  apply Permutation_app_tail.
  induction (filter _ obj) as [|e l IH]; simpl; [reflexivity|].
  rewrite insertIndex_perm. now constructor.
Qed.

(** X17: under a session, when the engine answers, and for a comparison in
    which two strings are never each after the other, getApplicationCountsByDate
    returns one entry per application_date that occurs among the caller's
    rows, no date twice, each with the number of the caller's rows on that
    date, in ascending order of the comparison, and the counts add up to the
    number of the caller's rows. *)
Theorem date_counts_tally_own_rows_in_order
  (localeCompare : jsstring -> jsstring -> comparison)
  (env : Env) (u : User.t) (s : Insights.State) :
  (forall a b, localeCompare a b = Gt -> localeCompare b a <> Gt) ->
  signedIn env u -> fault env = Returns None ->
  exists result,
    Insights.getApplicationCountsByDate localeCompare env s
    = (Returns (Success result),
       {| Insights.world := Insights.world s;
          Insights.sent := Insights.sent s ++ [Insights.SelectApplicationDate] |})
    /\ Sorted (fun a b => localeCompare (Insights.DateCount.date a)
                                        (Insights.DateCount.date b) <> Gt) result
    /\ NoDup (map Insights.DateCount.date result)
    /\ (forall d n,
          In {| Insights.DateCount.date := d; Insights.DateCount.count := n |} result
          <-> n = occurrences streq d
                    (map Application.application_date
                         (rowsOf u (table (Insights.world s))))
              /\ (0 < n)%nat)
    /\ list_sum (map Insights.DateCount.count result)
       = List.length (rowsOf u (table (Insights.world s))).
Proof.
  intros Htot H Hf.
  set (dates := map Application.application_date (rowsOf u (table (Insights.world s)))).
  set (counts := Insights.countBy streq dates).
  set (mk := fun e : jsstring * nat =>
               {| Insights.DateCount.date := fst e; Insights.DateCount.count := snd e |}).
  set (cmp := fun a b => localeCompare (Insights.DateCount.date a)
                                       (Insights.DateCount.date b)).
  assert (Hperm : Permutation (Insights.sort cmp (map mk (Insights.Object_entries counts)))
                              (map mk counts)).
  { rewrite sort_perm. apply Permutation_map, Object_entries_perm. }
  exists (Insights.sort cmp (map mk (Insights.Object_entries counts))).
  split; [|split; [|split; [|split]]].
  - insight. rewrite H. cbn [authError user].
    unfold Insights.selectApplicationDate, Insights.send.
    rewrite (auth_uid_signedIn env u H), Hf, select_all_rows.
    now destruct s.
  - apply (sort_sorted cmp). intros a b. apply Htot.
  - apply (Permutation_NoDup (l := map Insights.DateCount.date (map mk counts))).
    + symmetry. now apply Permutation_map.
    + rewrite map_map. cbn [mk Insights.DateCount.date].
      apply (keys_countBy _ streq_eq).
  - intros d n.
    rewrite <- (countBy_entries _ streq_eq dates d n). fold counts.
    split.
    + intros Hin. apply (Permutation_in _ Hperm) in Hin.
      apply in_map_iff in Hin as ([k m] & [= <- <-] & Hin). exact Hin.
    + intros Hin. apply (Permutation_in _ (Permutation_sym Hperm)).
      apply in_map_iff. now exists (d, n).
  - rewrite (Permutation_map Insights.DateCount.count Hperm) at 1.
    rewrite map_map. cbn [mk Insights.DateCount.count].
    unfold counts. rewrite (sum_countBy _ dates).
    unfold dates. apply length_map.
Qed.

Lemma compareCodeUnits_total (a b : jsstring) :
  compareCodeUnits a b = Gt -> compareCodeUnits b a <> Gt.
Proof.
  revert b; induction a as [|x a IH]; intros [|y b]; simpl; try discriminate.
  rewrite (N.compare_antisym x y).
  destruct (N.compare x y); simpl; try discriminate.
  apply IH.
Qed.

Lemma date_counts_tally_own_rows_in_order_witness :
  exists result,
    Insights.getApplicationCountsByDate compareCodeUnits
      (Fixture.callBy Fixture.alice 20) (Sample.insights Sample.shared)
    = (Returns (Success result),
       {| Insights.world := Sample.shared;
          Insights.sent := [Insights.SelectApplicationDate] |})
    /\ Sorted (fun a b => compareCodeUnits (Insights.DateCount.date a)
                                           (Insights.DateCount.date b) <> Gt) result
    /\ NoDup (map Insights.DateCount.date result)
    /\ (forall d n,
          In {| Insights.DateCount.date := d; Insights.DateCount.count := n |} result
          <-> n = occurrences streq d
                    (map Application.application_date
                         (rowsOf Fixture.alice (table Sample.shared)))
              /\ (0 < n)%nat)
    /\ list_sum (map Insights.DateCount.count result)
       = List.length (rowsOf Fixture.alice (table Sample.shared)).
Proof.
  apply (date_counts_tally_own_rows_in_order compareCodeUnits
           (Fixture.callBy Fixture.alice 20) Fixture.alice
           (Sample.insights Sample.shared));
    [exact compareCodeUnits_total | reflexivity | reflexivity].
Defined.

(** The three insight functions only read: whatever the session and the
    engine do, the table is unchanged and no query of the data-access layer
    is recorded. *)
Lemma insights_only_read
  (localeCompare : jsstring -> jsstring -> comparison) (env : Env) (s : Insights.State) :
  (table (Insights.world (snd (Insights.getTotalApplicationCount env s)))
   = table (Insights.world s)
   /\ requests (Insights.world (snd (Insights.getTotalApplicationCount env s)))
      = requests (Insights.world s))
  /\ (table (Insights.world (snd (Insights.getApplicationCountsByStatus env s)))
      = table (Insights.world s)
      /\ requests (Insights.world (snd (Insights.getApplicationCountsByStatus env s)))
         = requests (Insights.world s))
  /\ (table (Insights.world (snd (Insights.getApplicationCountsByDate localeCompare env s)))
      = table (Insights.world s)
      /\ requests (Insights.world
                     (snd (Insights.getApplicationCountsByDate localeCompare env s)))
         = requests (Insights.world s)).
Proof.
  destruct s as [w sent].
  repeat split;
    insight; unfold Insights.countExact, Insights.selectStatus,
      Insights.selectApplicationDate, Insights.send, console_error;
    destruct (getUser env) as [[[u|] [e|]]|e]; try reflexivity;
    destruct (fault env) as [[e|]|e]; reflexivity.
Qed.

(** X18: without a session each insight function returns 'User not
    authenticated' and leaves its state as it was: no query is sent and
    nothing is logged. *)
Theorem insights_refuse_without_session
  (localeCompare : jsstring -> jsstring -> comparison) (env : Env) (s : Insights.State) :
  signedOut env ->
  Insights.getTotalApplicationCount env s
  = (Returns (Failure (lit "User not authenticated")), s)
  /\ Insights.getApplicationCountsByStatus env s
     = (Returns (Failure (lit "User not authenticated")), s)
  /\ Insights.getApplicationCountsByDate localeCompare env s
     = (Returns (Failure (lit "User not authenticated")), s).
Proof.
  intros (a & Hget & Hno). destruct s as [w sent].
  repeat split; insight; rewrite Hget;
    destruct (authError a), (user a); try reflexivity;
    destruct Hno; congruence.
Qed.

Lemma insights_refuse_without_session_witness :
  Insights.getApplicationCountsByStatus Fixture.expired (Sample.insights Sample.shared)
  = (Returns (Failure (lit "User not authenticated")), Sample.insights Sample.shared).
Proof.
  apply (insights_refuse_without_session compareCodeUnits Fixture.expired
           (Sample.insights Sample.shared)).
  exists {| user := None; authError := Some (lit "Auth session missing!") |}.
  split; [reflexivity | left; discriminate].
Defined.

(** ** The middleware *)

Lemma get_set_same (params : list (jsstring * jsstring)) (name value : jsstring) :
  Middleware.get (Middleware.set params name value) name = Some value.
Proof.
  induction params as [|[k v] params IH]; simpl.
  - now rewrite streq_refl.
  - destruct (streq k name) eqn:E; simpl; now rewrite E.
Qed.

Lemma get_filter_other (params : list (jsstring * jsstring)) (name other : jsstring) :
  streq other name = false ->
  Middleware.get (filter (fun kv => negb (streq (fst kv) name)) params) other
  = Middleware.get params other.
Proof.
  intros Hne. induction params as [|[k v] params IH]; simpl; [reflexivity|].
  destruct (streq k name) eqn:E; simpl.
  - destruct (streq k other) eqn:E'; [|exact IH].
    apply streq_eq in E, E'. subst. now rewrite streq_refl in Hne.
  - now destruct (streq k other).
Qed.

Lemma get_set_other (params : list (jsstring * jsstring)) (name value other : jsstring) :
  streq other name = false ->
  Middleware.get (Middleware.set params name value) other = Middleware.get params other.
Proof.
  intros Hne. induction params as [|[k v] params IH]; simpl.
  - destruct (streq name other) eqn:E; [|reflexivity].
    apply streq_eq in E. subst. now rewrite streq_refl in Hne.
  - destruct (streq k name) eqn:E; simpl.
    + destruct (streq k other) eqn:E'.
      * apply streq_eq in E, E'. subst. now rewrite streq_refl in Hne.
      * now apply get_filter_other.
    + now destruct (streq k other).
Qed.

(** X19: the middleware lets every request with a user through, and every
    request whose path begins with /api/ whether or not it has a user: the
    response of updateSession is returned as it is. *)
Theorem middleware_lets_users_and_api_through
  {R : Type} (url : Middleware.NextUrl) (response : R) :
  (forall user, Middleware.middleware url response (Some user)
                = Middleware.Continue response)
  /\ (forall rest params user,
        Middleware.middleware
          {| Middleware.pathname := lit "/api/" ++ rest;
             Middleware.searchParams := params |} response user
        = Middleware.Continue response).
Proof.
  split.
  - intros user. unfold Middleware.middleware. now rewrite andb_false_r.
  - intros rest params user. reflexivity.
Qed.

Lemma filter_idem {A} (f : A -> bool) (l : list A) :
  filter f (filter f l) = filter f l.
Proof.
  induction l as [|a l IH]; simpl; [reflexivity|].
  destruct (f a) eqn:E; simpl; now rewrite ?E, IH.
Qed.

(** After [set], the parameters of other names are the ones there were, with
    their repetitions and in their order. *)
Lemma set_keeps_others (params : list (jsstring * jsstring)) (name value : jsstring) :
  filter (fun kv => negb (streq (fst kv) name)) (Middleware.set params name value)
  = filter (fun kv => negb (streq (fst kv) name)) params.
Proof.
  induction params as [|[k v] params IH]; simpl.
  - now rewrite streq_refl.
  - destruct (streq k name) eqn:E; simpl; rewrite E; simpl.
    + apply filter_idem.
    + now rewrite IH.
Qed.

(** After [set], one parameter has the name, and it holds the value. *)
Lemma set_leaves_one (params : list (jsstring * jsstring)) (name value : jsstring) :
  filter (fun kv => streq (fst kv) name) (Middleware.set params name value)
  = [(name, value)].
Proof.
  induction params as [|[k v] params IH]; simpl.
  - now rewrite streq_refl.
  - destruct (streq k name) eqn:E; simpl; rewrite E; simpl.
    + apply streq_eq in E. subst k. f_equal.
      rewrite <- filter_and. apply filter_none.
      intros [k' v'] _. simpl. now destruct (streq k' name).
    + exact IH.
Qed.

(** X20: a request without a user for a path that begins with /dashboard,
    /applications or /insights is redirected to /login. The redirect has
    exactly one redirectTo parameter, which holds the requested path (any
    redirectTo the request carried is replaced or removed), and its other
    query parameters are those of the request, with their repetitions and in
    their order. *)
Theorem middleware_redirect_keeps_the_way_back
  {R : Type} (url : Middleware.NextUrl) (response : R) :
  Middleware.isProtectedPath (Middleware.pathname url) = true ->
  exists target,
    Middleware.middleware url response None = Middleware.RedirectTo target
    /\ Middleware.pathname target = lit "/login"
    /\ filter (fun kv => streq (fst kv) (lit "redirectTo")) (Middleware.searchParams target)
       = [(lit "redirectTo", Middleware.pathname url)]
    /\ filter (fun kv => negb (streq (fst kv) (lit "redirectTo")))
              (Middleware.searchParams target)
       = filter (fun kv => negb (streq (fst kv) (lit "redirectTo")))
                (Middleware.searchParams url)
    /\ Middleware.get (Middleware.searchParams target) (lit "redirectTo")
       = Some (Middleware.pathname url)
    /\ forall name, streq name (lit "redirectTo") = false ->
         Middleware.get (Middleware.searchParams target) name
         = Middleware.get (Middleware.searchParams url) name.
Proof.
  intros Hp. unfold Middleware.middleware. rewrite Hp.
  eexists. split; [reflexivity|]. cbn [Middleware.pathname Middleware.searchParams].
  split; [reflexivity|]. split; [apply set_leaves_one|].
  split; [apply set_keeps_others|]. split; [apply get_set_same|].
  intros name Hname. now apply get_set_other.
Qed.

Lemma middleware_redirect_keeps_the_way_back_witness :
  exists target,
    Middleware.middleware
      {| Middleware.pathname := lit "/applications/new";
         Middleware.searchParams := [(lit "redirectTo", lit "/elsewhere");
                                     (lit "tab", lit "2");
                                     (lit "redirectTo", lit "/again");
                                     (lit "tab", lit "3")] |}
      tt None = Middleware.RedirectTo target
    /\ Middleware.pathname target = lit "/login"
    /\ filter (fun kv => streq (fst kv) (lit "redirectTo")) (Middleware.searchParams target)
       = [(lit "redirectTo", lit "/applications/new")]
    /\ filter (fun kv => negb (streq (fst kv) (lit "redirectTo")))
              (Middleware.searchParams target)
       = [(lit "tab", lit "2"); (lit "tab", lit "3")]
    /\ Middleware.get (Middleware.searchParams target) (lit "redirectTo")
       = Some (lit "/applications/new")
    /\ forall name, streq name (lit "redirectTo") = false ->
         Middleware.get (Middleware.searchParams target) name
         = Middleware.get [(lit "redirectTo", lit "/elsewhere");
                           (lit "tab", lit "2");
                           (lit "redirectTo", lit "/again");
                           (lit "tab", lit "3")] name.
Proof.
  apply (middleware_redirect_keeps_the_way_back
           {| Middleware.pathname := lit "/applications/new";
              Middleware.searchParams := [(lit "redirectTo", lit "/elsewhere");
                                          (lit "tab", lit "2");
                                          (lit "redirectTo", lit "/again");
                                          (lit "tab", lit "3")] |} tt).
  reflexivity.
Defined.

(** ** The routes on their successful paths *)

(** X21: under a session, when the engine answers with an id it has not used
    yet, a POST whose body the schema accepts, with values the columns take
    as sent (texts that can be stored, a date the engine prints back as it
    was written), is answered 201 with the stored record: the validated
    fields, the session's user as owner, the generated id, and notes null
    when the validated notes are absent or null. *)
Theorem POST_answers_201_with_the_stored_record
  (rt : Runtime) (env : Env) (u : User.t) (w : World) (body : json)
  (validatedData : CreateData.t) :
  signedIn env u -> fault env = Returns None ->
  ~ In (gen_random_uuid env) (map Application.id (table w)) ->
  Zod.parseBody (Zod.createApplicationSchema rt) body = Zod.ParseOk validatedData ->
  storedAsSent rt validatedData ->
  fst (Api.POST rt env {| Api.NextRequest.json := Some body |} w)
  = Returns {| Api.body := Api.DataBody (Some (createdRow env u validatedData));
               Api.status := 201 |}
  /\ table (snd (Api.POST rt env {| Api.NextRequest.json := Some body |} w))
     = table w ++ [createdRow env u validatedData]
  /\ Application.user_id (createdRow env u validatedData) = User.id u
  /\ Application.id (createdRow env u validatedData) = gen_random_uuid env
  /\ Application.application_date (createdRow env u validatedData)
     = CreateData.application_date validatedData
  /\ Application.notes (createdRow env u validatedData)
     = orNull (CreateData.notes validatedData).
Proof.
  intros H Hf Hfresh Hparse Hsent.
  rewrite (POST_stores rt env u w body validatedData H Hf Hfresh Hparse Hsent).
  repeat split.
Qed.

Lemma POST_answers_201_with_the_stored_record_witness :
  fst (Api.POST node (Fixture.callBy Fixture.alice 20)
         (Fixture.object [("company_name", Fixture.text "  Hooli ");
                          ("position_title", Fixture.text "Engineer");
                          ("application_date", Fixture.text "2026-03-01");
                          ("status", Fixture.text "applied");
                          ("notes", Fixture.text "  ")]%string) Sample.shared)
  = Returns {| Api.body := Api.DataBody
                             (Some (createdRow (Fixture.callBy Fixture.alice 20)
                                               Fixture.alice Sample.newApplication));
               Api.status := 201 |}.
Proof.
  apply (POST_answers_201_with_the_stored_record node (Fixture.callBy Fixture.alice 20)
           Fixture.alice Sample.shared); try reflexivity.
  - not_in_concrete.
  - split; reflexivity.
Defined.

Lemma only_row_with_id (u : User.t) (v : jsstring) (old : Application.t)
  (t : list Application.t) :
  NoDup (map Application.id t) -> In old t ->
  Engine.eq_id v old = true -> Application.user_id old = User.id u ->
  filter (fun r => Engine.eq_id v r && owns (Some (User.id u)) r) t = [old].
Proof.
  intros Hn Hin Hid Ho.
  induction t as [|r t IH]; [contradiction|].
  inversion Hn as [|? ? Hnot Hrest]; subst.
  cbn [filter]. destruct Hin as [->|Hin].
  - rewrite Hid, (owns_self u old Ho). cbn [andb]. f_equal.
    apply filter_none. intros r Hr.
    destruct (Engine.eq_id v r) eqn:E; [|reflexivity].
    exfalso. apply Hnot.
    unfold Engine.eq_id in Hid, E. apply streq_eq in Hid, E.
    rewrite <- Hid, E. now apply in_map.
  - destruct (Engine.eq_id v r) eqn:E.
    + exfalso. apply Hnot.
      unfold Engine.eq_id in Hid, E. apply streq_eq in Hid, E.
      rewrite <- E, Hid. now apply in_map.
    + cbn [andb]. now apply IH.
Qed.

(** Where no two rows share an id, the id names the row. *)
Lemma row_of_id (v : jsstring) (t : list Application.t) (r old : Application.t) :
  NoDup (map Application.id t) -> In r t -> In old t ->
  Engine.eq_id v r = true -> Engine.eq_id v old = true -> r = old.
Proof.
  intros Hn Hr Hold Er Eold.
  unfold Engine.eq_id in Er, Eold. apply streq_eq in Er, Eold.
  assert (Hsame : Application.id r = Application.id old) by congruence.
  clear Er Eold.
  induction t as [|a t IH]; [contradiction|].
  inversion Hn as [|? ? Hnot Hrest]; subst.
  destruct Hr as [->|Hr], Hold as [->|Hold]; auto.
  - exfalso. apply Hnot. rewrite Hsame. now apply in_map.
  - exfalso. apply Hnot. rewrite <- Hsame. now apply in_map.
Qed.

(** C6 (amended): under a session, updateApplication leaves every row as it
    was except rows of the caller with the given id, and in such a row the
    supplied fields among company_name, position_title, application_date,
    status and notes take the supplied value (the date as the DATE column
    reads the supplied text), the unsupplied ones, id, user_id and created_at
    keep theirs, and updated_at becomes the time of the update. The PATCH
    route does this with the fields its schema reads from the body, and
    changes nothing when the body is not an object the schema accepts.
    Members of the body under keys the schema does not name (id, user_id,
    ...) are dropped, not rejected: two bodies with at least one member each
    that agree on the five fields get the same response and leave the same
    world behind. A body made of such members only is not taken for the
    empty body: it is sent as an update without columns, which changes
    nothing and is answered 500. And the update does take place: when the
    engine answers, the id is a UUID, no two rows share an id and a row of
    the caller has the given id, an update that supplies a field, with values
    the columns take, succeeds; it returns the changed row (PATCH answers 200
    with it), and the table holds it in place of the old one and every other
    row as before. *)
Theorem update_changes_supplied_fields_only
  (rt : Runtime) (env : Env) (u : User.t) (w : World) (id : jsstring) :
  signedIn env u ->
  (forall data,
     Forall2 (framed rt u id data (now env)) (table w)
             (table (snd (Dal.updateApplication rt env id data w))))
  /\ (forall m members validatedData,
        Zod.updateApplicationSchema rt (prop (m :: members)) = Zod.ParseOk validatedData ->
        Forall2 (framed rt u id validatedData (now env)) (table w)
                (table (snd (Api.PATCH rt env
                               {| Api.NextRequest.json := Some (JObject (m :: members)) |}
                               id w))))
  /\ (forall request,
        (forall m members validatedData,
           Api.NextRequest.json request = Some (JObject (m :: members)) ->
           Zod.updateApplicationSchema rt (prop (m :: members))
           <> Zod.ParseOk validatedData) ->
        table (snd (Api.PATCH rt env request id w)) = table w)
  /\ (forall members1 members2,
        members1 <> [] -> members2 <> [] ->
        sameFields (prop members1) (prop members2) ->
        Api.PATCH rt env {| Api.NextRequest.json := Some (JObject members1) |} id w
        = Api.PATCH rt env {| Api.NextRequest.json := Some (JObject members2) |} id w)
  /\ (forall m members,
        id <> [] ->
        Forall (fun k => prop (m :: members) k = VUndefined) schemaKeys ->
        exists response,
          fst (Api.PATCH rt env
                 {| Api.NextRequest.json := Some (JObject (m :: members)) |} id w)
          = Returns response
          /\ Api.status response = 500
          /\ table (snd (Api.PATCH rt env
                           {| Api.NextRequest.json := Some (JObject (m :: members)) |}
                           id w)) = table w)
  /\ (fault env = Returns None ->
      Dal.invalidId (trim id) = false ->
      NoDup (map Application.id (table w)) ->
      forall old,
        In old (table w) -> Engine.eq_id (trim id) old = true ->
        Application.user_id old = User.id u ->
        (forall data p,
           Engine.Patch.isEmpty (Dal.updateColumns data) = false ->
           Engine.patch_in rt (Dal.updateColumns data) = inr p ->
           exists new,
             fst (Dal.updateApplication rt env id data w) = Returns (Success new)
             /\ updatedFrom rt data (now env) old new
             /\ table (snd (Dal.updateApplication rt env id data w))
                = map (fun r => if Engine.eq_id (trim id) r then new else r) (table w))
        /\ (forall m members validatedData p,
              Zod.updateApplicationSchema rt (prop (m :: members))
              = Zod.ParseOk validatedData ->
              Engine.Patch.isEmpty (Dal.updateColumns validatedData) = false ->
              Engine.patch_in rt (Dal.updateColumns validatedData) = inr p ->
              exists new,
                fst (Api.PATCH rt env
                       {| Api.NextRequest.json := Some (JObject (m :: members)) |} id w)
                = Returns {| Api.body := Api.DataBody (Some new); Api.status := 200 |}
                /\ updatedFrom rt validatedData (now env) old new
                /\ table (snd (Api.PATCH rt env
                                 {| Api.NextRequest.json := Some (JObject (m :: members)) |}
                                 id w))
                   = map (fun r => if Engine.eq_id (trim id) r then new else r)
                         (table w))).
Proof.
  intros H. split; [|split; [|split; [|split; [|split]]]].
  - intros data.
    destruct (Dal.updateApplication rt env id data w) as [res w'] eqn:E.
    now apply (updateApplication_frame _ _ u) in E.
  - intros m members validatedData Hparse. now apply PATCH_frame.
  - intros request Hrefused.
    destruct id as [|c id'] eqn:Eid.
    { now apply (PATCH_without_update rt env u w request [] H). }
    destruct (Api.NextRequest.json request) as [[| | | | |[|m members]]|] eqn:Ej.
    1-6,8: apply (PATCH_without_update rt env u w request (c :: id') H);
      intros m' members' Hb; rewrite Ej in Hb; discriminate.
    destruct request as [j]. cbn in Ej. subst j.
    rewrite (PATCH_run rt env u w (c :: id') m members H) by discriminate.
    destruct (Zod.updateApplicationSchema rt _) as [validatedData|details] eqn:Ep;
      [|reflexivity].
    exfalso. exact (Hrefused m members validatedData eq_refl Ep).
  - intros [|m1 members1] [|m2 members2] Hne1 Hne2 Hsame; try congruence.
    unfold Api.PATCH.
    cbn [Api.NextRequest.json Zod.parseBody Object_keys_length List.length].
    now rewrite (updateApplicationSchema_sameFields rt _ _ Hsame).
  - intros m members Hid Hnone.
    rewrite (PATCH_run rt env u w id m members H Hid).
    rewrite (updateApplicationSchema_unnamed rt _ Hnone).
    destruct (update_without_columns rt env u w id
                {| UpdateData.company_name := None;
                   UpdateData.position_title := None;
                   UpdateData.application_date := None;
                   UpdateData.status := None;
                   UpdateData.notes := undefined |} H eq_refl)
      as (msg & Hres & Hnf & Ht).
    destruct (Dal.updateApplication rt env id _ w) as [o w1].
    cbn [fst snd] in Hres, Ht. subst o. rewrite Hnf.
    eexists. repeat split. exact Ht.
  - intros Hf Hid Hn old Hin Heq Ho.
    assert (Hupd : forall data p,
              Engine.Patch.isEmpty (Dal.updateColumns data) = false ->
              Engine.patch_in rt (Dal.updateColumns data) = inr p ->
              Dal.updateApplication rt env id data w
              = (Returns (Success (changed rt env data old)),
                 {| table := map (fun r => if Engine.eq_id (trim id) r
                                           then changed rt env data old else r)
                                 (table w);
                    requests := requests w
                                ++ [UpdateById (Dal.updateColumns data) (trim id)];
                    console := console w |})).
    { intros data p Hne Hp.
      rewrite (updateApplication_answer rt env u w id data p H Hf Hid Hne Hp).
      rewrite (only_row_with_id u (trim id) old (table w) Hn Hin Heq Ho).
      cbn [map]. do 2 f_equal. apply map_ext_in. intros r Hr.
      destruct (Engine.eq_id (trim id) r) eqn:E; [|reflexivity].
      rewrite (row_of_id (trim id) (table w) r old Hn Hr Hin E Heq).
      now rewrite (owns_self u old Ho). }
    split.
    + intros data p Hne Hp. rewrite (Hupd data p Hne Hp). cbn [fst snd table].
      exists (changed rt env data old).
      split; [reflexivity|split; [|reflexivity]].
      rewrite (changed_taken rt env data p old Hp). now apply updatedFrom_change.
    + intros m members validatedData p Hparse Hne Hp.
      assert (Hroute : id <> []) by (intros ->; discriminate Hid).
      rewrite (PATCH_run rt env u w id m members H Hroute), Hparse.
      rewrite (Hupd validatedData p Hne Hp). cbn [fst snd table].
      exists (changed rt env validatedData old).
      split; [reflexivity|split; [|reflexivity]].
      rewrite (changed_taken rt env validatedData p old Hp).
      now apply updatedFrom_change.
Qed.

Lemma update_changes_supplied_fields_only_witness :
  Api.PATCH node (Fixture.callBy Fixture.alice 20)
    (Fixture.object [("user_id", JString (User.id Fixture.bob));
                     ("status", Fixture.text "offer")]%string)
    Fixture.acmeId Fixture.withAcme
  = Api.PATCH node (Fixture.callBy Fixture.alice 20)
      (Fixture.object [("status", Fixture.text "offer")]%string)
      Fixture.acmeId Fixture.withAcme.
Proof.
  destruct (update_changes_supplied_fields_only node (Fixture.callBy Fixture.alice 20)
              Fixture.alice Fixture.withAcme Fixture.acmeId eq_refl)
    as (_ & _ & _ & Hdrop & _).
  apply Hdrop; [discriminate | discriminate | repeat constructor].
Defined.

(** C6 as stated fails: a PATCH of Alice's application whose body carries a
    user_id next to a status is not rejected; it is answered 200, the status
    is applied, the owner stays Alice, and updated_at, which the body did not
    supply, moves from 10 to 20. *)
Lemma patch_with_owner_field_is_applied :
  Api.PATCH node (Fixture.callBy Fixture.alice 20)
    (Fixture.object [("user_id", JString (User.id Fixture.bob));
                     ("status", Fixture.text "offer")]%string)
    Fixture.acmeId Fixture.withAcme
  = (Returns {| Api.body := Api.DataBody (Some Fixture.acmeOffer); Api.status := 200 |},
     {| table := [Fixture.acmeOffer];
        requests := [UpdateById
                       {| Engine.Patch.user_id := None;
                          Engine.Patch.company_name := None;
                          Engine.Patch.position_title := None;
                          Engine.Patch.application_date := None;
                          Engine.Patch.status := Some offer;
                          Engine.Patch.notes := None |} Fixture.acmeId];
        console := [] |})
  /\ Application.user_id Fixture.acmeOffer = User.id Fixture.alice
  /\ Application.updated_at Fixture.acme = 10
  /\ Application.updated_at Fixture.acmeOffer = 20.
Proof. repeat split. Qed.

(** X22: under a session, when the engine answers, an update that sets a
    column of a record the caller owns, in a table without repeated ids,
    with values the columns take as sent (texts that can be stored, a date
    the engine prints back as it was written), succeeds: updateApplication
    returns the record with the supplied fields changed and updated_at
    refreshed, and the PATCH route answers 200 with it. *)
Theorem PATCH_answers_200_with_the_changed_record
  (rt : Runtime) (env : Env) (u : User.t) (w : World) (id : jsstring)
  (m : jsstring * json) (members : list (jsstring * json))
  (validatedData : UpdateData.t) (old : Application.t) :
  signedIn env u -> fault env = Returns None ->
  id <> [] -> Dal.invalidId (trim id) = false ->
  Zod.updateApplicationSchema rt (prop (m :: members)) = Zod.ParseOk validatedData ->
  Engine.Patch.isEmpty (Dal.updateColumns validatedData) = false ->
  updatesAsSent rt validatedData ->
  NoDup (map Application.id (table w)) ->
  In old (table w) -> Engine.eq_id (trim id) old = true ->
  Application.user_id old = User.id u ->
  fst (Dal.updateApplication rt env id validatedData w)
  = Returns (Success (changed rt env validatedData old))
  /\ fst (Api.PATCH rt env {| Api.NextRequest.json := Some (JObject (m :: members)) |} id w)
     = Returns {| Api.body := Api.DataBody (Some (changed rt env validatedData old));
                  Api.status := 200 |}
  /\ updatedFrom rt validatedData (now env) old (changed rt env validatedData old)
  /\ Application.application_date (changed rt env validatedData old)
     = match UpdateData.application_date validatedData with
       | Some text => text
       | None => Application.application_date old
       end.
Proof.
  intros H Hf Hne Hid Hparse Hp Hsent Hn Hin Heq Ho.
  assert (Hupd : Dal.updateApplication rt env id validatedData w
                 = (Returns (Success (changed rt env validatedData old)),
                    {| table := map (fun r => if Engine.eq_id (trim id) r
                                                 && owns (Some (User.id u)) r
                                              then changed rt env validatedData r else r)
                                    (table w);
                       requests := requests w
                                   ++ [UpdateById (Dal.updateColumns validatedData) (trim id)];
                       console := console w |})).
  { rewrite (updateApplication_answer rt env u w id validatedData _ H Hf Hid Hp Hsent).
    now rewrite (only_row_with_id u (trim id) old (table w) Hn Hin Heq Ho). }
  split; [|split; [|split]].
  - now rewrite Hupd.
  - rewrite (PATCH_run rt env u w id m members H Hne), Hparse.
    now rewrite Hupd.
  - rewrite (changed_taken rt env validatedData _ old Hsent).
    now apply updatedFrom_change.
  - rewrite (changed_taken rt env validatedData _ old Hsent).
    now destruct validatedData as [c pt [text|] st n].
Qed.

Lemma PATCH_answers_200_with_the_changed_record_witness :
  fst (Api.PATCH node (Fixture.callBy Fixture.alice 20)
         (Fixture.object [("application_date", Fixture.text "2026-01-12");
                          ("status", Fixture.text "interviewing")]%string)
         Fixture.acmeId Sample.shared)
  = Returns {| Api.body :=
                 Api.DataBody
                   (Some {| Application.id := Fixture.acmeId;
                            Application.user_id := User.id Fixture.alice;
                            Application.company_name := lit "Acme";
                            Application.position_title := lit "Engineer";
                            Application.status := interviewing;
                            Application.application_date := lit "2026-01-12";
                            Application.notes := None;
                            Application.created_at := 10;
                            Application.updated_at := 20 |});
               Api.status := 200 |}.
Proof.
  apply (PATCH_answers_200_with_the_changed_record node
           (Fixture.callBy Fixture.alice 20) Fixture.alice Sample.shared Fixture.acmeId
           (lit "application_date", Fixture.text "2026-01-12")
           [(lit "status", Fixture.text "interviewing")]
           {| UpdateData.company_name := None;
              UpdateData.position_title := None;
              UpdateData.application_date := Some (lit "2026-01-12");
              UpdateData.status := Some interviewing;
              UpdateData.notes := undefined |}
           Fixture.acme); try reflexivity.
  - discriminate.
  - repeat constructor; not_in_concrete.
  - now left.
Defined.

(** ** Values the columns refuse *)





